(** * Event planner: calendar grid, events on a date, venue configuration

    A shallow embedding of the core logic of the planner, with the properties
    its specification states about it:

    - [src/utils/dateUtils.ts]: [isSameDay], [getDaysInMonth],
      [getCalendarGrid];
    - [components/Dashboard.ts] ([src/unnamed/part_000]): [getEventsForDate],
      [updateStats];
    - [components/Calendar.ts] and [components/ConfigPage.ts]
      ([src/unnamed/part_001]): [getEventsForDate], [addPriority];
    - [src/services/EventStorage.ts], the service over [localStorage]:
      [loadAllEvents], [getEventsForDate];
    - [src/services/ConfigService.ts], the service over the HTTP API:
      [getActiveLocations], [getAllCategories], [getAllPriorities],
      [updateConfig], [exportConfig], [importConfig];
    - [models/VenueConfig.ts], [models/Event.ts] and the configuration service
      over [localStorage] ([src/unnamed/part_003]);
    - the editing of the configuration lists on the configuration page and
      the arrays the page shares with the service, the text fields of the
      event form, the calendar view and the router.

    The JavaScript objects the code relies on (numbers and [parseInt],
    [Array.prototype.sort], object spread and JSON values, [Date]) are
    modelled in the first modules; the modules after them follow the
    TypeScript sources function by function, and the properties come last. *)

From Stdlib Require Import ZArith List String Ascii Bool Lia Permutation Sorted.
From stdpp Require Import gmap strings pretty.
Import ListNotations.

Set Warnings "-register-all".

Local Open Scope Z_scope.

(** ** Numbers

    The numbers the planner computes with are integers (timestamps, day
    counts, priority levels) or [NaN], the result of [parseInt] on text that
    does not start with a digit. *)
Module JsNumber.

Inductive number : Type :=
| NaN
| Num (z : Z).

(** [a - b] *)
Definition sub (a b : number) : number :=
  match a, b with
  | Num x, Num y => Num (x - y)
  | _, _ => NaN
  end.

(** [Math.max(a, b)] and [Math.min(a, b)]: [NaN] if either argument is. *)
Definition Math_max (a b : number) : number :=
  match a, b with
  | Num x, Num y => Num (Z.max x y)
  | _, _ => NaN
  end.

Definition Math_min (a b : number) : number :=
  match a, b with
  | Num x, Num y => Num (Z.min x y)
  | _, _ => NaN
  end.

Definition isWhiteSpace (c : ascii) : bool :=
  match nat_of_ascii c with
  | 9%nat | 10%nat | 11%nat | 12%nat | 13%nat | 32%nat => true
  | _ => false
  end.

Fixpoint trimStart (s : string) : string :=
  match s with
  | String c s' => if isWhiteSpace c then trimStart s' else s
  | EmptyString => s
  end.

(** Value of a character as a digit in radix up to 36. *)
Definition digitValue (c : ascii) : option Z :=
  let n := Z.of_nat (nat_of_ascii c) in
  if (48 <=? n) && (n <=? 57) then Some (n - 48)
  else if (97 <=? n) && (n <=? 122) then Some (n - 87)
  else if (65 <=? n) && (n <=? 90) then Some (n - 55)
  else None.

(** The integer denoted by the longest prefix of [s] made of digits of the
    radix; [acc] is [None] until a digit has been read. *)
Fixpoint parseDigits (radix : Z) (s : string) (acc : option Z) : option Z :=
  match s with
  | String c s' =>
      match digitValue c with
      | Some d =>
          if d <? radix
          then parseDigits radix s' (Some (radix * default 0 acc + d))
          else acc
      | None => acc
      end
  | EmptyString => acc
  end.

(** [parseInt(s)] without a radix argument: leading white space (here the
    ASCII white space) is skipped,
    a sign is read, a [0x] prefix selects radix 16, and the digits that
    follow are read up to the first other character; no digit gives [NaN]. *)
Definition parseInt (s : string) : number :=
  let s1 := trimStart s in
  let '(sign, s2) :=
    match s1 with
    | String "-" r => (-1, r)
    | String "+" r => (1, r)
    | _ => (1, s1)
    end in
  let '(radix, s3) :=
    match s2 with
    | String "0" (String "x" r) => (16, r)
    | String "0" (String "X" r) => (16, r)
    | _ => (10, s2)
    end in
  match parseDigits radix s3 None with
  | Some n => Num (sign * n)
  | None => NaN
  end.

End JsNumber.

(** ** Arrays

    [Array.prototype.sort(compareFn)] is a stable sort; a comparison result
    of [NaN] counts as 0.  For a comparator that orders by a key the result
    is the stably sorted permutation of the array, which insertion from the
    right computes. *)
Module JsArray.
Import JsNumber.

Section Sort.
Context {A : Type} (compareFn : A -> A -> number).

Definition sortCompare (x y : A) : Z :=
  match compareFn x y with
  | NaN => 0
  | Num v => v
  end.

Fixpoint insertSorted (x : A) (l : list A) : list A :=
  match l with
  | [] => [x]
  | y :: l' =>
      if sortCompare x y <=? 0 then x :: l else y :: insertSorted x l'
  end.

Definition sort (l : list A) : list A := fold_right insertSorted [] l.

End Sort.

(** The order of an array sorted by a key, smallest first. *)
Definition ascendingBy {A : Type} (key : A -> Z) (x y : A) : Prop :=
  key x <= key y.

End JsArray.

(** ** Values and objects

    What [JSON.parse] returns and what object spread works on.  An object is
    a finite map from property names to values; a property may be present
    with the value [undefined]. *)
Module JsValue.
Import JsNumber.

Inductive value : Type :=
| VUndefined
| VNull
| VBool (b : bool)
| VNumber (n : number)
| VString (s : string)
| VArray (items : list value)
| VObject (props : gmap string value).

(** [o.key]: [undefined] when the object has no such property. *)
Definition getProp (o : gmap string value) (key : string) : value :=
  default VUndefined (o !! key).

(** The own enumerable properties that a spread [...v] copies: those of an
    object, the indexed elements of an array, the indexed characters of a
    string, and none for the other values. *)
Definition ownProps (v : value) : gmap string value :=
  match v with
  | VObject props => props
  | VArray items =>
      list_to_map (imap (fun i x => (pretty i, x)) items)
  | VString s =>
      list_to_map (imap (fun i c => (pretty i, VString (String c EmptyString)))
                        (list_ascii_of_string s))
  | _ => ∅
  end.

(** [{ ...a, ...b }]: the properties of [b] over those of [a]. *)
Definition spread (a : gmap string value) (b : value) : gmap string value :=
  ownProps b ∪ a.

(** The value [JSON.parse(JSON.stringify(v))] denotes: [NaN] becomes [null],
    an [undefined] array element becomes [null], and a property whose value is
    [undefined] is left out. *)
Fixpoint jsonImage (v : value) : value :=
  match v with
  | VNumber NaN => VNull
  | VArray items =>
      VArray (map (fun x => match x with
                            | VUndefined => VNull
                            | _ => jsonImage x
                            end) items)
  | VObject props =>
      VObject (omap (fun x => match x with
                              | VUndefined => None
                              | _ => Some (jsonImage x)
                              end) props)
  | _ => v
  end.

(** A value that JSON represents as it is. *)
Definition jsonClean (v : value) : Prop :=
  v <> VUndefined /\ jsonImage v = v.

(** An object literal. *)
Definition object (fields : list (string * value)) : value :=
  VObject (list_to_map fields).

(** The value without the properties that hold [undefined], at every depth.
    Reading a property that is not there gives [undefined] as well, so the
    two differ only in which names [Object.keys] lists. *)
Fixpoint withoutUndefined (v : value) : value :=
  match v with
  | VArray items => VArray (map withoutUndefined items)
  | VObject props =>
      VObject (omap (fun x => match x with
                              | VUndefined => None
                              | _ => Some (withoutUndefined x)
                              end) props)
  | _ => v
  end.

(** A value that JSON represents up to such properties: it has no [NaN] and
    no [undefined] array element, the two things [JSON.stringify] writes as
    [null]. *)
Definition jsonRepresentable (v : value) : Prop :=
  v <> VUndefined /\ jsonImage v = withoutUndefined v.

End JsValue.

(** ** The [Date] object

    A [Date] is its time value: milliseconds since the epoch, read on the
    local wall clock (the planner treats every date as a local wall-clock
    date, so the model fixes the local offset to zero).  The day and
    calendar arithmetic follows ECMA-262, section "Date objects":
    [Day], [TimeWithinDay], [DayFromYear], [YearFromTime], [MonthFromTime],
    [DateFromTime], [WeekDay], [MakeDay], [MakeDate].  The range limit of
    time values (about 273,000 years around the epoch) is not modelled. *)
Module JsDate.

Abbreviation Date := Z.

Definition msPerDay : Z := 86400000.

Definition Day (t : Date) : Z := t / msPerDay.
Definition TimeWithinDay (t : Date) : Z := t mod msPerDay.

Definition DayFromYear (y : Z) : Z :=
  365 * (y - 1970) + (y - 1969) / 4 - (y - 1901) / 100 + (y - 1601) / 400.

Definition DaysInYear (y : Z) : Z :=
  if negb (y mod 4 =? 0) then 365
  else if negb (y mod 100 =? 0) then 366
  else if negb (y mod 400 =? 0) then 365
  else 366.

Definition InLeapYear (y : Z) : Z := if DaysInYear y =? 366 then 1 else 0.

(** The largest year [y] with [DayFromYear y <= d]: the estimate from the mean
    year length is off by at most one, see [YearFromDay_spec]. *)
Definition YearFromDay (d : Z) : Z :=
  let y := 1970 + (d * 400) / 146097 in
  if d <? DayFromYear y then y - 1
  else if DayFromYear (y + 1) <=? d then y + 1
  else y.

(** Number of days of the year before month [m] (0-based), [leap] being 0 or 1. *)
Definition monthStart (leap m : Z) : Z :=
  match m with
  | 0 => 0
  | 1 => 31
  | 2 => 59 + leap
  | 3 => 90 + leap
  | 4 => 120 + leap
  | 5 => 151 + leap
  | 6 => 181 + leap
  | 7 => 212 + leap
  | 8 => 243 + leap
  | 9 => 273 + leap
  | 10 => 304 + leap
  | 11 => 334 + leap
  | _ => 365 + leap
  end.

Definition DayWithinYear (d : Z) : Z := d - DayFromYear (YearFromDay d).

Definition MonthFromDay (d : Z) : Z :=
  let leap := InLeapYear (YearFromDay d) in
  let dwy := DayWithinYear d in
  if dwy <? 31 then 0
  else if dwy <? 59 + leap then 1
  else if dwy <? 90 + leap then 2
  else if dwy <? 120 + leap then 3
  else if dwy <? 151 + leap then 4
  else if dwy <? 181 + leap then 5
  else if dwy <? 212 + leap then 6
  else if dwy <? 243 + leap then 7
  else if dwy <? 273 + leap then 8
  else if dwy <? 304 + leap then 9
  else if dwy <? 334 + leap then 10
  else 11.

Definition DateFromDay (d : Z) : Z :=
  DayWithinYear d - monthStart (InLeapYear (YearFromDay d)) (MonthFromDay d) + 1.

Definition WeekDay (d : Z) : Z := (d + 4) mod 7.

(** [MakeDay(year, month, date)]: months outside 0..11 carry into the year,
    the day of the month is added as a plain offset. *)
Definition MakeDay (year month date : Z) : Z :=
  let ym := year + month / 12 in
  let mn := month mod 12 in
  DayFromYear ym + monthStart (InLeapYear ym) mn + date - 1.

Definition MakeDate (day time : Z) : Date := day * msPerDay + time.

(** [new Date(year, month, date)]: local midnight of that day; a year in
    0..99 stands for 1900 + year. *)
Definition newDate (year month date : Z) : Date :=
  let yr := if (0 <=? year) && (year <=? 99) then 1900 + year else year in
  MakeDate (MakeDay yr month date) 0.

Definition getFullYear (t : Date) : Z := YearFromDay (Day t).
Definition getMonth (t : Date) : Z := MonthFromDay (Day t).
Definition getDate (t : Date) : Z := DateFromDay (Day t).
Definition getDay (t : Date) : Z := WeekDay (Day t).
Definition getTime (t : Date) : Z := t.

(** [d.setDate(date)]: same year, month and time of day, new day of month. *)
Definition setDate (t : Date) (date : Z) : Date :=
  MakeDate (MakeDay (getFullYear t) (getMonth t) date) (TimeWithinDay t).

(** [d.setHours(0, 0, 0, 0)]. *)
Definition setHoursZero (t : Date) : Date := MakeDate (Day t) 0.

End JsDate.

(** ** [src/utils/dateUtils.ts] *)
Module DateUtils.
Import JsDate.

(** [isSameDay(date1, date2)] *)
Definition isSameDay (date1 date2 : Date) : bool :=
  (getFullYear date1 =? getFullYear date2) &&
  (getMonth date1 =? getMonth date2) &&
  (getDate date1 =? getDate date2).

(** [getDaysInMonth(year, month)]: the loop [for (day = 1; day <=
    lastDay.getDate(); day++)] runs over [1 .. lastDay.getDate()]. *)
Definition getDaysInMonth (year month : Z) : list Date :=
  let lastDay := newDate year (month + 1) 0 in
  map (fun day => newDate year month (Z.of_nat day))
      (seq 1 (Z.to_nat (getDate lastDay))).

(** One iteration of the loop of [getCalendarGrid]; the state is
    [(weeks, currentWeek)]. *)
Definition gridStep (startDate : Date)
    (st : list (list Date) * list Date) (i : Z) : list (list Date) * list Date :=
  let '(weeks, currentWeek) := st in
  (* const currentDate = new Date(startDate);
     currentDate.setDate(startDate.getDate() + i); *)
  let currentDate := setDate startDate (getDate startDate + i) in
  let currentWeek := currentWeek ++ [currentDate] in
  if (length currentWeek =? 7)%nat
  then (weeks ++ [currentWeek], [])
  else (weeks, currentWeek).

(** [getCalendarGrid(year, month)] *)
Definition getCalendarGrid (year month : Z) : list (list Date) :=
  let firstDay := newDate year month 1 in
  let startDate := firstDay in
  (* startDate.setDate(startDate.getDate() - startDate.getDay()); *)
  let startDate := setDate startDate (getDate startDate - getDay startDate) in
  fst (fold_left (gridStep startDate) (map Z.of_nat (seq 0 42)) ([], [])).

End DateUtils.


(** ** Auxiliary notions used to state the grid properties *)
Module GridSpec.
Import JsDate.

(** The normalised year and month of [new Date(year, month, _)] and the
    length of that month. *)
Definition ctorYear (year month : Z) : Z :=
  (if (0 <=? year) && (year <=? 99) then 1900 + year else year) + month / 12.

Definition ctorMonth (month : Z) : Z := month mod 12.

Definition monthLength (year month : Z) : Z :=
  let leap := InLeapYear (ctorYear year month) in
  monthStart leap (ctorMonth month + 1) - monthStart leap (ctorMonth month).

(** The anchor of the grid: the first day of the month moved back by its
    weekday. *)
Definition gridAnchor (year month : Z) : Date :=
  let firstDay := newDate year month 1 in
  firstDay - getDay firstDay * msPerDay.

(** Shape of a grid of 42 consecutive days from a Sunday [a]. *)
Definition gridFrom (a : Date) : list (list Date) :=
  map (fun w => map (fun j => a + (7 * Z.of_nat w + Z.of_nat j) * msPerDay)
                 (seq 0 7)) (seq 0 6).

(** The loop of [getCalendarGrid] over an arbitrary cell function. *)
Definition chunkStep (cell : Z -> Date)
    (st : list (list Date) * list Date) (i : Z) : list (list Date) * list Date :=
  let '(weeks, currentWeek) := st in
  let currentWeek := currentWeek ++ [cell i] in
  if (length currentWeek =? 7)%nat
  then (weeks ++ [currentWeek], [])
  else (weeks, currentWeek).

End GridSpec.

(** ** [models/Event.ts] *)
Module Event.
Import JsDate.

Record t : Type := {
  id : string;
  title : string;
  description : string;
  startDate : Date;
  endDate : Date;
  location : option string;
  category : string;
  priority : string;
  attendees : option (list string);
  createdAt : Date;
  updatedAt : Date
}.

End Event.

(** ** [src/services/EventStorage.ts], over [localStorage] *)
Module EventStorage.
Import JsDate JsNumber.

(** [loadAllEvents()]: the stored events sorted by start, and the empty list
    when nothing is stored or reading fails.  [stored] is the list of events
    the storage yields, [None] in the two other cases.  (The service over the
    HTTP API returns the rows of the response in the same way: mapped to
    events and sorted, or [[]] when the response is not ok.) *)
Definition loadAllEvents (stored : option (list Event.t)) : list Event.t :=
  match stored with
  | None => []
  | Some events =>
      JsArray.sort
        (fun a b => Num (getTime (Event.startDate a) - getTime (Event.startDate b)))
        events
  end.

(** [getEventsForDate(date)] *)
Definition getEventsForDate (stored : option (list Event.t)) (date : Date)
    : list Event.t :=
  let allEvents := loadAllEvents stored in
  let targetDate := newDate (getFullYear date) (getMonth date) (getDate date) in
  List.filter
    (fun event =>
       let eventStartDate :=
         newDate (getFullYear (Event.startDate event))
                 (getMonth (Event.startDate event))
                 (getDate (Event.startDate event)) in
       let eventEndDate :=
         newDate (getFullYear (Event.endDate event))
                 (getMonth (Event.endDate event))
                 (getDate (Event.endDate event)) in
       (targetDate >=? eventStartDate) && (targetDate <=? eventEndDate))
    allEvents.

End EventStorage.

(** ** [components/Calendar.ts] *)
Module Calendar.
Import JsDate.

(** [loadEvents()]: [this.events] after the call; a failed load leaves the
    empty list. *)
Definition loadEvents (stored : option (list Event.t)) : list Event.t :=
  EventStorage.loadAllEvents stored.

(** [getEventsForDate(date)] over [this.events] *)
Definition getEventsForDate (events : list Event.t) (date : Date) : list Event.t :=
  List.filter
    (fun event =>
       let eventStart := Event.startDate event in
       let eventEnd := Event.endDate event in
       let targetDate := newDate (getFullYear date) (getMonth date) (getDate date) in
       let startDate :=
         newDate (getFullYear eventStart) (getMonth eventStart) (getDate eventStart) in
       let endDate :=
         newDate (getFullYear eventEnd) (getMonth eventEnd) (getDate eventEnd) in
       (targetDate >=? startDate) && (targetDate <=? endDate))
    events.

End Calendar.

(** ** [components/Dashboard.ts] *)
Module Dashboard.
Import JsDate JsNumber.

(** [getEventsForDate(date)] over [this.events] *)
Definition getEventsForDate (events : list Event.t) (date : Date) : list Event.t :=
  JsArray.sort
    (fun a b => Num (getTime (Event.startDate a) - getTime (Event.startDate b)))
    (List.filter
       (fun event =>
          let eventStart := Event.startDate event in
          let eventEnd := Event.endDate event in
          let targetDate := newDate (getFullYear date) (getMonth date) (getDate date) in
          let startDate :=
            newDate (getFullYear eventStart) (getMonth eventStart) (getDate eventStart) in
          let endDate :=
            newDate (getFullYear eventEnd) (getMonth eventEnd) (getDate eventEnd) in
          (targetDate >=? startDate) && (targetDate <=? endDate))
       events).

Record Stats : Type := {
  totalEvents : nat;
  todayEvents : nat;
  upcomingEvents : nat;
  urgentEvents : nat
}.

(** [updateStats()]: the four numbers it renders.  [now] is the reading of
    the clock ([new Date()]) during the call. *)
Definition updateStats (events : list Event.t) (now : Date) : Stats :=
  let totalEvents := length events in
  let todayEvents := length (getEventsForDate events now) in
  let upcomingEvents :=
    length (List.filter
              (fun event =>
                 let eventDate := Event.startDate event in
                 let today := setHoursZero now in
                 eventDate >? today)
              events) in
  let urgentEvents :=
    length (List.filter
              (fun event =>
                 String.eqb (Event.priority event) "urgent"
                 && (Event.startDate event >=? now))
              events) in
  {| totalEvents := totalEvents;
     todayEvents := todayEvents;
     upcomingEvents := upcomingEvents;
     urgentEvents := urgentEvents |}.

End Dashboard.

(** ** Auxiliary notions used to state the event properties *)
Module EventSpec.
Import JsDate.

(** The day test of the three queries, written once.  [startOfDay d] is the
    expression they evaluate,
    [new Date(d.getFullYear(), d.getMonth(), d.getDate())], and [onDate] the
    comparison they make with it.  These follow the code; what the calendar
    says is [dayStart] and [spansDay] below. *)
Definition startOfDay (d : Date) : Date :=
  newDate (getFullYear d) (getMonth d) (getDate d).

Definition onDate (date : Date) (e : Event.t) : Prop :=
  startOfDay (Event.startDate e) <= startOfDay date
  /\ startOfDay date <= startOfDay (Event.endDate e).

Definition onDateb (date : Date) (e : Event.t) : bool :=
  (startOfDay (Event.startDate e) <=? startOfDay date)
  && (startOfDay date <=? startOfDay (Event.endDate e)).

(** Ascending by start. *)
Definition startsBefore : Event.t -> Event.t -> Prop :=
  JsArray.ascendingBy Event.startDate.

(** The comparator of the event queries:
    [(a, b) => a.startDate.getTime() - b.startDate.getTime()]. *)
Definition byStart (a b : Event.t) : JsNumber.number :=
  JsNumber.Num (getTime (Event.startDate a) - getTime (Event.startDate b)).

(** A local date and time, and an event with the fields the queries read. *)
Definition at_ (year month day hours minutes : Z) : Date :=
  newDate year month day + hours * 3600000 + minutes * 60000.

Definition sampleEvent (id : string) (startDate endDate : Date) (priority : string)
    : Event.t :=
  {| Event.id := id; Event.title := id; Event.description := EmptyString;
     Event.startDate := startDate; Event.endDate := endDate;
     Event.location := None; Event.category := "meeting";
     Event.priority := priority; Event.attendees := None;
     Event.createdAt := startDate; Event.updatedAt := startDate |}.

(** A year the [Date] constructor takes as it is. *)
Definition plainYear (d : Date) : Prop :=
  getFullYear d < 0 \/ 99 < getFullYear d.

(** The start of the calendar day of a date: midnight of its day. *)
Definition dayStart (d : Date) : Date := Day d * msPerDay.

(** The event is on the day of [date]: the whole-day interval from the start
    of the day it starts on to the start of the day it ends on contains the
    start of the day of [date]. *)
Definition spansDay (date : Date) (e : Event.t) : Prop :=
  dayStart (Event.startDate e) <= dayStart date
  /\ dayStart date <= dayStart (Event.endDate e).

Definition spansDayb (date : Date) (e : Event.t) : bool :=
  (dayStart (Event.startDate e) <=? dayStart date)
  && (dayStart date <=? dayStart (Event.endDate e)).

(** The local date and time that a date string with a four-digit year, such
    as [0050-06-01T09:00], denotes: the year is taken as written. *)
Definition localTime (year month day hours minutes : Z) : Date :=
  MakeDate (MakeDay year month day) (hours * 3600000 + minutes * 60000).

End EventSpec.

(** ** [models/VenueConfig.ts] *)
Module LocationOption.
Import JsNumber.

Record t : Type := {
  id : string;
  name : string;
  description : option string;
  capacity : option number;
  amenities : option (list string);
  isActive : bool
}.

End LocationOption.

Module CategoryOption.

Record t : Type := {
  id : string;
  name : string;
  color : string;
  icon : option string;
  isActive : bool
}.

End CategoryOption.

Module PriorityOption.
Import JsNumber.

Record t : Type := {
  id : string;
  name : string;
  color : string;
  level : number;
  isActive : bool
}.

End PriorityOption.

Module VenueConfig.
Import JsNumber.

Inductive TimeFormat : Type := H12 | H24.
Inductive DateFormat : Type := MDY | DMY | YMD.
Inductive FirstDayOfWeek : Type := Sunday | Monday.

Record Features : Type := {
  showAttendees : bool;
  showLocation : bool;
  showDescription : bool;
  allowRecurring : bool;
  allowFileAttachments : bool
}.

Record t : Type := {
  companyName : string;
  logo : string;
  tagline : option string;
  primaryColor : string;
  secondaryColor : string;
  venueName : string;
  venueAddress : option string;
  venuePhone : option string;
  venueEmail : option string;
  venueWebsite : option string;
  locations : list LocationOption.t;
  customCategories : option (list CategoryOption.t);
  customPriorities : option (list PriorityOption.t);
  defaultEventDuration : number;
  defaultCategory : string;
  defaultPriority : string;
  timeFormat : TimeFormat;
  dateFormat : DateFormat;
  firstDayOfWeek : FirstDayOfWeek;
  features : Features
}.

(** [config.customPriorities = v] *)
Definition set_customPriorities (v : option (list PriorityOption.t)) (c : t) : t :=
  {| companyName := companyName c; logo := logo c; tagline := tagline c;
     primaryColor := primaryColor c; secondaryColor := secondaryColor c;
     venueName := venueName c; venueAddress := venueAddress c;
     venuePhone := venuePhone c; venueEmail := venueEmail c;
     venueWebsite := venueWebsite c; locations := locations c;
     customCategories := customCategories c; customPriorities := v;
     defaultEventDuration := defaultEventDuration c;
     defaultCategory := defaultCategory c; defaultPriority := defaultPriority c;
     timeFormat := timeFormat c; dateFormat := dateFormat c;
     firstDayOfWeek := firstDayOfWeek c; features := features c |}.

End VenueConfig.

(** [DEFAULT_CONFIG] *)
Module Defaults.
Import JsNumber.

Definition DEFAULT_CONFIG : VenueConfig.t :=
  {| VenueConfig.companyName := "Event Planner";
     VenueConfig.logo := "📅";
     VenueConfig.tagline := Some "Organize your events with ease"%string;
     VenueConfig.primaryColor := "#667eea";
     VenueConfig.secondaryColor := "#764ba2";
     VenueConfig.venueName := "Main Venue";
     VenueConfig.venueAddress := Some EmptyString;
     VenueConfig.venuePhone := Some EmptyString;
     VenueConfig.venueEmail := Some EmptyString;
     VenueConfig.venueWebsite := Some EmptyString;
     VenueConfig.locations :=
       [ {| LocationOption.id := "main-hall";
            LocationOption.name := "Main Hall";
            LocationOption.description :=
              Some "Large conference hall with A/V equipment"%string;
            LocationOption.capacity := Some (Num 200);
            LocationOption.amenities :=
              Some ["Projector"; "Sound System"; "WiFi"; "Air Conditioning"]%string;
            LocationOption.isActive := true |};
         {| LocationOption.id := "meeting-room-a";
            LocationOption.name := "Meeting Room A";
            LocationOption.description :=
              Some "Small meeting room for team discussions"%string;
            LocationOption.capacity := Some (Num 12);
            LocationOption.amenities :=
              Some ["Whiteboard"; "WiFi"; "Conference Phone"]%string;
            LocationOption.isActive := true |};
         {| LocationOption.id := "meeting-room-b";
            LocationOption.name := "Meeting Room B";
            LocationOption.description :=
              Some "Medium meeting room with presentation setup"%string;
            LocationOption.capacity := Some (Num 20);
            LocationOption.amenities :=
              Some ["TV Display"; "WiFi"; "Video Conferencing"]%string;
            LocationOption.isActive := true |};
         {| LocationOption.id := "outdoor-space";
            LocationOption.name := "Outdoor Patio";
            LocationOption.description :=
              Some "Covered outdoor area for social events"%string;
            LocationOption.capacity := Some (Num 50);
            LocationOption.amenities := Some ["Tables"; "Chairs"; "Lighting"]%string;
            LocationOption.isActive := true |};
         {| LocationOption.id := "virtual";
            LocationOption.name := "Virtual/Online";
            LocationOption.description := Some "Online meeting or webinar"%string;
            LocationOption.capacity := None;
            LocationOption.amenities := None;
            LocationOption.isActive := true |} ];
     VenueConfig.customCategories :=
       Some [ {| CategoryOption.id := "training"; CategoryOption.name := "Training";
                 CategoryOption.color := "#10b981";
                 CategoryOption.icon := Some "🎓"%string;
                 CategoryOption.isActive := true |};
              {| CategoryOption.id := "workshop"; CategoryOption.name := "Workshop";
                 CategoryOption.color := "#f59e0b";
                 CategoryOption.icon := Some "🔨"%string;
                 CategoryOption.isActive := true |};
              {| CategoryOption.id := "conference";
                 CategoryOption.name := "Conference";
                 CategoryOption.color := "#3b82f6";
                 CategoryOption.icon := Some "🎤"%string;
                 CategoryOption.isActive := true |} ];
     VenueConfig.customPriorities :=
       Some [ {| PriorityOption.id := "critical"; PriorityOption.name := "Critical";
                 PriorityOption.color := "#dc2626"; PriorityOption.level := Num 10;
                 PriorityOption.isActive := true |};
              {| PriorityOption.id := "important";
                 PriorityOption.name := "Important";
                 PriorityOption.color := "#f59e0b"; PriorityOption.level := Num 7;
                 PriorityOption.isActive := true |};
              {| PriorityOption.id := "normal"; PriorityOption.name := "Normal";
                 PriorityOption.color := "#6b7280"; PriorityOption.level := Num 5;
                 PriorityOption.isActive := true |};
              {| PriorityOption.id := "low"; PriorityOption.name := "Low";
                 PriorityOption.color := "#10b981"; PriorityOption.level := Num 2;
                 PriorityOption.isActive := true |} ];
     VenueConfig.defaultEventDuration := Num 1;
     VenueConfig.defaultCategory := "meeting";
     VenueConfig.defaultPriority := "normal";
     VenueConfig.timeFormat := VenueConfig.H12;
     VenueConfig.dateFormat := VenueConfig.MDY;
     VenueConfig.firstDayOfWeek := VenueConfig.Sunday;
     VenueConfig.features :=
       {| VenueConfig.showAttendees := true; VenueConfig.showLocation := true;
          VenueConfig.showDescription := true; VenueConfig.allowRecurring := false;
          VenueConfig.allowFileAttachments := false |} |}.

End Defaults.

(** ** The objects behind the typed configuration

    The object a value of the TypeScript types is at run time: a property per
    field, an optional field that is not set having no property. *)
Module Encode.
Import JsNumber JsValue.

Definition optional {A : Type} (f : A -> value) (key : string) (x : option A)
    : list (string * value) :=
  match x with
  | Some a => [(key, f a)]
  | None => []
  end.

Definition strings (l : list string) : value := VArray (map VString l).

Definition location (l : LocationOption.t) : value :=
  object ([("id", VString (LocationOption.id l));
           ("name", VString (LocationOption.name l))]%string
          ++ optional VString "description" (LocationOption.description l)
          ++ optional VNumber "capacity" (LocationOption.capacity l)
          ++ optional strings "amenities" (LocationOption.amenities l)
          ++ [("isActive", VBool (LocationOption.isActive l))]%string).

Definition category (c : CategoryOption.t) : value :=
  object ([("id", VString (CategoryOption.id c));
           ("name", VString (CategoryOption.name c));
           ("color", VString (CategoryOption.color c))]%string
          ++ optional VString "icon" (CategoryOption.icon c)
          ++ [("isActive", VBool (CategoryOption.isActive c))]%string).

Definition priority (p : PriorityOption.t) : value :=
  object [("id", VString (PriorityOption.id p));
          ("name", VString (PriorityOption.name p));
          ("color", VString (PriorityOption.color p));
          ("level", VNumber (PriorityOption.level p));
          ("isActive", VBool (PriorityOption.isActive p))]%string.

Definition features (f : VenueConfig.Features) : value :=
  object [("showAttendees", VBool (VenueConfig.showAttendees f));
          ("showLocation", VBool (VenueConfig.showLocation f));
          ("showDescription", VBool (VenueConfig.showDescription f));
          ("allowRecurring", VBool (VenueConfig.allowRecurring f));
          ("allowFileAttachments", VBool (VenueConfig.allowFileAttachments f))]%string.

Definition timeFormat (f : VenueConfig.TimeFormat) : value :=
  match f with
  | VenueConfig.H12 => VString "12h"
  | VenueConfig.H24 => VString "24h"
  end.

Definition dateFormat (f : VenueConfig.DateFormat) : value :=
  match f with
  | VenueConfig.MDY => VString "MM/DD/YYYY"
  | VenueConfig.DMY => VString "DD/MM/YYYY"
  | VenueConfig.YMD => VString "YYYY-MM-DD"
  end.

Definition firstDayOfWeek (d : VenueConfig.FirstDayOfWeek) : value :=
  match d with
  | VenueConfig.Sunday => VNumber (Num 0)
  | VenueConfig.Monday => VNumber (Num 1)
  end.

Definition configFields (c : VenueConfig.t) : list (string * value) :=
  [("companyName", VString (VenueConfig.companyName c));
   ("logo", VString (VenueConfig.logo c))]%string
  ++ optional VString "tagline" (VenueConfig.tagline c)
  ++ [("primaryColor", VString (VenueConfig.primaryColor c));
      ("secondaryColor", VString (VenueConfig.secondaryColor c));
      ("venueName", VString (VenueConfig.venueName c))]%string
  ++ optional VString "venueAddress" (VenueConfig.venueAddress c)
  ++ optional VString "venuePhone" (VenueConfig.venuePhone c)
  ++ optional VString "venueEmail" (VenueConfig.venueEmail c)
  ++ optional VString "venueWebsite" (VenueConfig.venueWebsite c)
  ++ [("locations", VArray (map location (VenueConfig.locations c)))]%string
  ++ optional (fun l => VArray (map category l)) "customCategories"
       (VenueConfig.customCategories c)
  ++ optional (fun l => VArray (map priority l)) "customPriorities"
       (VenueConfig.customPriorities c)
  ++ [("defaultEventDuration", VNumber (VenueConfig.defaultEventDuration c));
      ("defaultCategory", VString (VenueConfig.defaultCategory c));
      ("defaultPriority", VString (VenueConfig.defaultPriority c));
      ("timeFormat", timeFormat (VenueConfig.timeFormat c));
      ("dateFormat", dateFormat (VenueConfig.dateFormat c));
      ("firstDayOfWeek", firstDayOfWeek (VenueConfig.firstDayOfWeek c));
      ("features", features (VenueConfig.features c))]%string.

(** The configuration object. *)
Definition config (c : VenueConfig.t) : gmap string value :=
  list_to_map (configFields c).

(** No number of the configuration is [NaN]. *)
Definition numeric (c : VenueConfig.t) : Prop :=
  VenueConfig.defaultEventDuration c <> NaN
  /\ Forall (fun l => LocationOption.capacity l <> Some NaN) (VenueConfig.locations c)
  /\ Forall (fun p => PriorityOption.level p <> NaN)
            (default [] (VenueConfig.customPriorities c)).

End Encode.

(** ** [src/services/ConfigService.ts]: the lists offered to the forms *)
Module ConfigService.
Import JsNumber.

(** An object literal [{ id, name, color }]. *)
Record Choice : Type := { id : string; name : string; color : string }.

(** An element of the arrays [getAllCategories] and [getAllPriorities]
    return: one of the literals above, or an object of the configuration
    itself. *)
Inductive Entry (T : Type) : Type :=
| Literal (c : Choice)
| Stored (x : T).
Arguments Literal {T} c.
Arguments Stored {T} x.

Definition defaultCategories : list Choice :=
  [ {| id := "meeting"; name := "Meeting"; color := "#3b82f6" |};
    {| id := "personal"; name := "Personal"; color := "#10b981" |};
    {| id := "work"; name := "Work"; color := "#f59e0b" |};
    {| id := "other"; name := "Other"; color := "#6b7280" |} ].

Definition defaultPriorities : list Choice :=
  [ {| id := "high"; name := "High"; color := "#ef4444" |};
    {| id := "medium"; name := "Medium"; color := "#f59e0b" |};
    {| id := "low"; name := "Low"; color := "#10b981" |} ].

(** The three getters below read the configuration [getConfig()] returns,
    here [cfg]. *)

(** [getActiveLocations()] *)
Definition getActiveLocations (cfg : VenueConfig.t) : list LocationOption.t :=
  List.filter (fun l => LocationOption.isActive l) (VenueConfig.locations cfg).

(** [getAllCategories()]:
    [[...defaultCategories, ...(cfg.customCategories || [])]] *)
Definition getAllCategories (cfg : VenueConfig.t) : list (Entry CategoryOption.t) :=
  map Literal defaultCategories
  ++ map Stored (default [] (VenueConfig.customCategories cfg)).

(** The comparator [(a, b) => b.level - a.level]. *)
Definition byLevelDescending (a b : PriorityOption.t) : number :=
  sub (PriorityOption.level b) (PriorityOption.level a).

(** [getAllPriorities()].  [getConfig()] copies the configuration object but
    not its arrays, and [sort] works in place: the call also leaves the
    stored custom priorities sorted.  The result is the returned array and
    the configuration after the call. *)
Definition getAllPriorities (cfg : VenueConfig.t)
    : list (Entry PriorityOption.t) * VenueConfig.t :=
  match VenueConfig.customPriorities cfg with
  | Some stored =>
      let custom := JsArray.sort byLevelDescending stored in
      (map Literal defaultPriorities ++ map Stored custom,
       VenueConfig.set_customPriorities (Some custom) cfg)
  | None =>
      let custom := JsArray.sort byLevelDescending [] in
      (map Literal defaultPriorities ++ map Stored custom, cfg)
  end.

(** *** The stored configuration and its updates

    [updateConfig] and [importConfig] receive whatever value the caller or
    [JSON.parse] hands them, so this part works on objects as they are at run
    time ([Encode.config] gives the object of a typed configuration).
    [Backend] stands for the answers of the HTTP API during one call: how the
    first load goes, whether [getVenueId] gets its answer, and whether the
    [PUT] comes back ok. *)
Inductive Load : Type :=
| LoadRefused
    (* the configuration request is not ok: thrown before anything is stored *)
| LoadInterrupted (c : gmap string JsValue.value)
    (* the configuration is stored, then a request for the lists fails *)
| Loaded (c : gmap string JsValue.value).

Record Backend : Type := {
  firstLoad : Load;
  venueIdAnswered : bool;
  putOk : bool
}.

(** [this.config]: [None] is [null], before the first load. *)
Definition State : Type := option (gmap string JsValue.value).

Inductive Outcome (A : Type) : Type :=
| Returned (a : A)
| Thrown.
Arguments Returned {A} a.
Arguments Thrown {A}.

(** A method: from the state before the call to its outcome and the state
    after it. *)
Definition Method (A : Type) : Type := State -> Outcome A * State.

Definition ret {A} (a : A) : Method A := fun st => (Returned a, st).
Definition throw {A} : Method A := fun st => (Thrown, st).
Definition bind {A B} (m : Method A) (k : A -> Method B) : Method B :=
  fun st =>
    match m st with
    | (Returned a, st') => k a st'
    | (Thrown, st') => (Thrown, st')
    end.
Definition getState : Method State := fun st => (Returned st, st).
Definition setConfig (c : gmap string JsValue.value) : Method unit :=
  fun _ => (Returned tt, Some c).

Notation "x <- m ;; k" := (bind m (fun x => k))
  (at level 100, m at next level, right associativity).
Notation "m ;;; k" := (bind m (fun _ => k))
  (at level 100, right associativity).

Section Service.
Import JsValue.
Context (JSON_parse : string -> option value)
        (JSON_stringify : value -> string)
        (backend : Backend).

(** [ensureLoaded()] *)
Definition ensureLoaded : Method unit :=
  st <- getState ;;
  match st with
  | Some _ => ret tt
  | None =>
      match firstLoad backend with
      | Loaded c => setConfig c
      | LoadInterrupted c => setConfig c ;;; throw
      | LoadRefused => throw
      end
  end.

(** The configuration after [ensureLoaded]. *)
Definition currentConfig : Method (gmap string value) :=
  ensureLoaded ;;;
  st <- getState ;;
  match st with
  | Some c => ret c
  | None => throw
  end.

(** [getConfig()]: [{ ...this.config }] *)
Definition getConfig : Method (gmap string value) :=
  c <- currentConfig ;;
  ret (spread ∅ (VObject c)).

(** [getVenueId()] *)
Definition getVenueId : Method unit :=
  if venueIdAnswered backend then ret tt else throw.

(** Reading [merged.features.showAttendees] and the other flags for the
    payload throws when [merged.features] is [undefined] or [null]. *)
Definition readFeatures (merged : gmap string value) : Method unit :=
  match getProp merged "features" with
  | VUndefined | VNull => throw
  | _ => ret tt
  end.

(** [updateConfig(updates)]: the merge is stored only after the backend has
    accepted it. *)
Definition updateConfig (updates : value) : Method unit :=
  current <- currentConfig ;;
  let merged := spread current updates in
  getVenueId ;;;
  readFeatures merged ;;;
  (if putOk backend then ret tt else throw) ;;;
  setConfig merged.

(** [exportConfig()] *)
Definition exportConfig : Method string :=
  cfg <- getConfig ;;
  ret (JSON_stringify (VObject cfg)).

(** [importConfig(jsonString)]: [try { ... return true } catch { return
    false }] *)
Definition importConfig (jsonString : string) : Method bool :=
  fun st =>
    match JSON_parse jsonString with
    | None => (Returned false, st)
    | Some imported =>
        match updateConfig imported st with
        | (Returned _, st') => (Returned true, st')
        | (Thrown, st') => (Returned false, st')
        end
    end.

End Service.

End ConfigService.

(** ** The configuration service over [localStorage] *)
Module LocalConfigService.
Import ConfigService.

(** [getActiveLocations()] *)
Definition getActiveLocations (config : VenueConfig.t) : list LocationOption.t :=
  List.filter (fun location => LocationOption.isActive location)
              (VenueConfig.locations config).

(** [getAllCategories()]: "default + custom active ones" *)
Definition getAllCategories (config : VenueConfig.t) : list Choice :=
  let customCategories :=
    map (fun cat => {| id := CategoryOption.id cat;
                       name := CategoryOption.name cat;
                       color := CategoryOption.color cat |})
        (List.filter (fun cat => CategoryOption.isActive cat)
                     (default [] (VenueConfig.customCategories config))) in
  defaultCategories ++ customCategories.

End LocalConfigService.

(** ** [components/ConfigPage.ts] *)
Module ConfigPage.
Import JsNumber.

(** A string is truthy when it is not empty; [null] is not. *)
Definition truthy (s : option string) : bool :=
  match s with
  | Some (String _ _) => true
  | _ => false
  end.

(** [a || b] on an optional string *)
Definition orElse (a : option string) (b : string) : string :=
  match a with
  | Some (String c s) => String c s
  | _ => b
  end.

(** [addPriority()].  [name] and [levelInput] are the answers to the two
    prompts ([None] when the prompt is cancelled), [now] is [Date.now()];
    the result is [this.config] after the call. *)
Definition addPriority (name levelInput : option string) (now : Z)
    (config : VenueConfig.t) : VenueConfig.t :=
  match name with
  | Some (String c s) =>
      let name := String c s in
      let level := parseInt (orElse levelInput "5") in
      let newPriority :=
        {| PriorityOption.id := "priority-" ++ pretty now;
           PriorityOption.name := name;
           PriorityOption.color := "#6b7280";
           PriorityOption.level := Math_max (Num 1) (Math_min (Num 10) level);
           PriorityOption.isActive := true |} in
      (* if (!this.config.customPriorities) this.config.customPriorities = [];
         this.config.customPriorities.push(newPriority); *)
      VenueConfig.set_customPriorities
        (Some (default [] (VenueConfig.customPriorities config) ++ [newPriority]))
        config
  | _ => config
  end.

End ConfigPage.

(** ** Auxiliary notions used to state the configuration properties *)
Module ConfigSpec.
Import JsNumber ConfigService.

(** The [id], [name] and [color] a consumer reads from an entry. *)
Definition categoryChoice (e : Entry CategoryOption.t) : Choice :=
  match e with
  | Literal c => c
  | Stored x => {| id := CategoryOption.id x; name := CategoryOption.name x;
                   color := CategoryOption.color x |}
  end.

(** The effective category list as the specification words it: the four
    defaults, then the custom categories that are active, in stored order. *)
Definition effectiveCategories (cfg : VenueConfig.t) : list Choice :=
  defaultCategories
  ++ map (fun c => {| id := CategoryOption.id c; name := CategoryOption.name c;
                      color := CategoryOption.color c |})
         (List.filter (fun c => CategoryOption.isActive c)
                      (default [] (VenueConfig.customCategories cfg))).

(** The merged configuration has a [features] object to read the flags
    from. *)
Definition hasFeatures (merged : gmap string JsValue.value) : bool :=
  match JsValue.getProp merged "features" with
  | JsValue.VUndefined | JsValue.VNull => false
  | _ => true
  end.

(** The backend answers and accepts the update. *)
Definition accepts (backend : Backend) : bool :=
  venueIdAnswered backend && putOk backend.

(** A parser that reads one text, as the given document. *)
Definition parseOnly (text : string) (doc : JsValue.value)
    : string -> option JsValue.value :=
  fun s => if String.eqb s text then Some doc else None.

(** Every level is a number. *)
Definition numericLevels (l : list PriorityOption.t) : Prop :=
  Forall (fun p => PriorityOption.level p <> NaN) l.

(** The level as an integer ([NaN] read as 0). *)
Definition levelOf (p : PriorityOption.t) : Z :=
  match PriorityOption.level p with
  | Num z => z
  | NaN => 0
  end.

(** [a] does not come after [b] when sorted by level, highest first. *)
Definition levelDescending (a b : PriorityOption.t) : Prop :=
  levelOf b <= levelOf a.

Definition samplePriority (id : string) (level : Z) : PriorityOption.t :=
  {| PriorityOption.id := id; PriorityOption.name := id;
     PriorityOption.color := "#6b7280"; PriorityOption.level := Num level;
     PriorityOption.isActive := true |}.

Definition sampleCategory (id : string) (isActive : bool) : CategoryOption.t :=
  {| CategoryOption.id := id; CategoryOption.name := id;
     CategoryOption.color := "#6b7280"; CategoryOption.icon := None;
     CategoryOption.isActive := isActive |}.

(** A configuration as [ensureLoaded] builds it, with the given lists. *)
Definition sampleConfig (categories : option (list CategoryOption.t))
    (priorities : option (list PriorityOption.t)) : VenueConfig.t :=
  {| VenueConfig.companyName := "Event Planner";
     VenueConfig.logo := "logo.png";
     VenueConfig.tagline := Some EmptyString;
     VenueConfig.primaryColor := "#667eea";
     VenueConfig.secondaryColor := "#764ba2";
     VenueConfig.venueName := "Main Venue";
     VenueConfig.venueAddress := Some EmptyString;
     VenueConfig.venuePhone := Some EmptyString;
     VenueConfig.venueEmail := Some EmptyString;
     VenueConfig.venueWebsite := Some EmptyString;
     VenueConfig.locations := [];
     VenueConfig.customCategories := categories;
     VenueConfig.customPriorities := priorities;
     VenueConfig.defaultEventDuration := Num 1;
     VenueConfig.defaultCategory := "meeting";
     VenueConfig.defaultPriority := "normal";
     VenueConfig.timeFormat := VenueConfig.H12;
     VenueConfig.dateFormat := VenueConfig.MDY;
     VenueConfig.firstDayOfWeek := VenueConfig.Sunday;
     VenueConfig.features :=
       {| VenueConfig.showAttendees := true; VenueConfig.showLocation := true;
          VenueConfig.showDescription := true; VenueConfig.allowRecurring := false;
          VenueConfig.allowFileAttachments := false |} |}.

(** A configuration as [ensureLoaded] stores it: each location has all its
    properties, [capacity] holding [undefined] when the row has none. *)
Definition loadedConfig : gmap string JsValue.value :=
  <["locations" :=
      JsValue.VArray
        [ JsValue.object
            [ ("id", JsValue.VString "hall");
              ("name", JsValue.VString "Main Hall");
              ("description", JsValue.VString EmptyString);
              ("capacity", JsValue.VUndefined);
              ("amenities", JsValue.VArray [JsValue.VString "stage"]);
              ("isActive", JsValue.VBool true) ]%string ]]>
    (Encode.config (sampleConfig (Some []) (Some []))).

(** A parser that reads the three documents [{}], [42] and ["ab"]. *)
Definition parseSmall (s : string) : option JsValue.value :=
  if String.eqb s "{}" then Some (JsValue.VObject ∅)
  else if String.eqb s "42" then Some (JsValue.VNumber (Num 42))
  else if String.eqb s (String "034" (String "a" (String "b" (String "034" EmptyString))))
       then Some (JsValue.VString "ab")
  else None.

End ConfigSpec.

(** ** The [Date] object, continued *)
Module JsDateMore.
Import JsDate.

(** [d.setMonth(month)]: same year, day of month and time of day, new month;
    a day the new month does not have carries into the month after it. *)
Definition setMonth (t : Date) (month : Z) : Date :=
  MakeDate (MakeDay (getFullYear t) month (getDate t)) (TimeWithinDay t).

(** [new Date(year, month, date, hours, minutes)] *)
Definition newDateTime (year month date hours minutes : Z) : Date :=
  let yr := if (0 <=? year) && (year <=? 99) then 1900 + year else year in
  MakeDate (MakeDay yr month date) (hours * 3600000 + minutes * 60000).

(** [array[index]]: [undefined] outside the array. *)
Definition element {A : Type} (array : list A) (index : Z) : option A :=
  if index <? 0 then None else nth_error array (Z.to_nat index).

End JsDateMore.

(** ** [src/utils/dateUtils.ts], continued *)
Module DateUtilsMore.
Import JsDate JsDateMore.

(** [getWeekStart(date)]: [date.setDate(diff)] moves the argument itself and
    returns its new time value, of which the result is a copy.  The pair is
    the returned date and the argument after the call. *)
Definition getWeekStart (date : Date) : Date * Date :=
  let day := getDay date in
  let diff := getDate date - day in
  let date := setDate date diff in
  (date, date).

Definition monthNames : list string :=
  ["January"; "February"; "March"; "April"; "May"; "June";
   "July"; "August"; "September"; "October"; "November"; "December"]%string.

Definition dayNames : list string :=
  ["Sunday"; "Monday"; "Tuesday"; "Wednesday"; "Thursday"; "Friday";
   "Saturday"]%string.

Definition shortDayNames : list string :=
  ["Sun"; "Mon"; "Tue"; "Wed"; "Thu"; "Fri"; "Sat"]%string.

(** [getMonthName(month)], [getDayName(day)], [getShortDayName(day)]:
    [None] is [undefined]. *)
Definition getMonthName (month : Z) : option string := element monthNames month.
Definition getDayName (day : Z) : option string := element dayNames day.
Definition getShortDayName (day : Z) : option string := element shortDayNames day.

End DateUtilsMore.

(** ** [components/Calendar.ts], continued *)
Module CalendarView.
Import JsDate JsDateMore DateUtils.

(** [previousMonth()] and [nextMonth()]: [this.currentDate] after the call. *)
Definition previousMonth (currentDate : Date) : Date :=
  setMonth currentDate (getMonth currentDate - 1).

Definition nextMonth (currentDate : Date) : Date :=
  setMonth currentDate (getMonth currentDate + 1).

(** [isToday(date)], with [today] the reading of the clock *)
Definition isToday (today date : Date) : bool := isSameDay date today.

(** [isSelected(date)] *)
Definition isSelected (selectedDate : option Date) (date : Date) : bool :=
  match selectedDate with
  | Some selected => isSameDay date selected
  | None => false
  end.

(** [isCurrentMonth(date)] *)
Definition isCurrentMonth (currentDate date : Date) : bool :=
  (getMonth date =? getMonth currentDate)
  && (getFullYear date =? getFullYear currentDate).

(** The grid [render()] draws: [getCalendarGrid(year, month)] for the year
    and month of [this.currentDate]. *)
Definition renderedGrid (currentDate : Date) : list (list Date) :=
  let year := getFullYear currentDate in
  let month := getMonth currentDate in
  getCalendarGrid year month.

(** What [renderDay(date)] shows of a day: its classes, its number, the
    titles of the first three events and the count behind ["+n more"]. *)
Record DayCell : Type := {
  classes : list string;
  dayNumber : Z;
  shown : list string;
  more : option nat
}.

Definition renderDay (events : list Event.t) (today : Date)
    (selectedDate : option Date) (currentDate date : Date) : DayCell :=
  let dayEvents := Calendar.getEventsForDate events date in
  let isToday := isToday today date in
  let isSelected := isSelected selectedDate date in
  let isCurrentMonth := isCurrentMonth currentDate date in
  let hasEvents := (0 <? length dayEvents)%nat in
  {| classes :=
       List.filter (fun c => negb (String.eqb c EmptyString))
         [ "calendar__day"%string;
           if isToday then "today"%string else EmptyString;
           if isSelected then "selected"%string else EmptyString;
           if negb isCurrentMonth then "other-month"%string else EmptyString;
           if hasEvents then "has-events"%string else EmptyString ];
     dayNumber := getDate date;
     shown := map Event.title (firstn 3 dayEvents);
     more := if (3 <? length dayEvents)%nat
             then Some (length dayEvents - 3)%nat else None |}.

End CalendarView.

(** ** Auxiliary notions used to state the calendar properties *)
Module CalendarSpec.
Import JsDate.

(** The Gregorian rule. *)
Definition isLeapYear (y : Z) : bool :=
  (y mod 4 =? 0) && (negb (y mod 100 =? 0) || (y mod 400 =? 0)).

(** Days of month [m] (0-based). *)
Definition daysInMonth (leap : bool) (m : Z) : Z :=
  if m =? 1 then (if leap then 29 else 28)
  else if (m =? 3) || (m =? 5) || (m =? 8) || (m =? 10) then 30
  else 31.

End CalendarSpec.


(** ** [components/ConfigPage.ts], continued: editing the lists *)
Module ConfigPageLists.
Import JsNumber ConfigPage.

(** [config.locations = v] and [config.customCategories = v] *)
Definition set_locations (v : list LocationOption.t) (c : VenueConfig.t)
    : VenueConfig.t :=
  {| VenueConfig.companyName := VenueConfig.companyName c;
     VenueConfig.logo := VenueConfig.logo c;
     VenueConfig.tagline := VenueConfig.tagline c;
     VenueConfig.primaryColor := VenueConfig.primaryColor c;
     VenueConfig.secondaryColor := VenueConfig.secondaryColor c;
     VenueConfig.venueName := VenueConfig.venueName c;
     VenueConfig.venueAddress := VenueConfig.venueAddress c;
     VenueConfig.venuePhone := VenueConfig.venuePhone c;
     VenueConfig.venueEmail := VenueConfig.venueEmail c;
     VenueConfig.venueWebsite := VenueConfig.venueWebsite c;
     VenueConfig.locations := v;
     VenueConfig.customCategories := VenueConfig.customCategories c;
     VenueConfig.customPriorities := VenueConfig.customPriorities c;
     VenueConfig.defaultEventDuration := VenueConfig.defaultEventDuration c;
     VenueConfig.defaultCategory := VenueConfig.defaultCategory c;
     VenueConfig.defaultPriority := VenueConfig.defaultPriority c;
     VenueConfig.timeFormat := VenueConfig.timeFormat c;
     VenueConfig.dateFormat := VenueConfig.dateFormat c;
     VenueConfig.firstDayOfWeek := VenueConfig.firstDayOfWeek c;
     VenueConfig.features := VenueConfig.features c |}.

Definition set_customCategories (v : option (list CategoryOption.t))
    (c : VenueConfig.t) : VenueConfig.t :=
  {| VenueConfig.companyName := VenueConfig.companyName c;
     VenueConfig.logo := VenueConfig.logo c;
     VenueConfig.tagline := VenueConfig.tagline c;
     VenueConfig.primaryColor := VenueConfig.primaryColor c;
     VenueConfig.secondaryColor := VenueConfig.secondaryColor c;
     VenueConfig.venueName := VenueConfig.venueName c;
     VenueConfig.venueAddress := VenueConfig.venueAddress c;
     VenueConfig.venuePhone := VenueConfig.venuePhone c;
     VenueConfig.venueEmail := VenueConfig.venueEmail c;
     VenueConfig.venueWebsite := VenueConfig.venueWebsite c;
     VenueConfig.locations := VenueConfig.locations c;
     VenueConfig.customCategories := v;
     VenueConfig.customPriorities := VenueConfig.customPriorities c;
     VenueConfig.defaultEventDuration := VenueConfig.defaultEventDuration c;
     VenueConfig.defaultCategory := VenueConfig.defaultCategory c;
     VenueConfig.defaultPriority := VenueConfig.defaultPriority c;
     VenueConfig.timeFormat := VenueConfig.timeFormat c;
     VenueConfig.dateFormat := VenueConfig.dateFormat c;
     VenueConfig.firstDayOfWeek := VenueConfig.firstDayOfWeek c;
     VenueConfig.features := VenueConfig.features c |}.

(** [addLocation()].  [name] is the answer to the prompt, [now] is
    [Date.now()]; the result is [this.config] after the call. *)
Definition addLocation (name : option string) (now : Z) (config : VenueConfig.t)
    : VenueConfig.t :=
  match name with
  | Some (String c s) =>
      let name := String c s in
      let newLocation :=
        {| LocationOption.id := "location-" ++ pretty now;
           LocationOption.name := name;
           LocationOption.description := None;
           LocationOption.capacity := None;
           LocationOption.amenities := None;
           LocationOption.isActive := true |} in
      set_locations (VenueConfig.locations config ++ [newLocation]) config
  | _ => config
  end.

(** [addCategory()] *)
Definition addCategory (name : option string) (now : Z) (config : VenueConfig.t)
    : VenueConfig.t :=
  match name with
  | Some (String c s) =>
      let name := String c s in
      let newCategory :=
        {| CategoryOption.id := "category-" ++ pretty now;
           CategoryOption.name := name;
           CategoryOption.color := "#6b7280";
           CategoryOption.icon := None;
           CategoryOption.isActive := true |} in
      set_customCategories
        (Some (default [] (VenueConfig.customCategories config) ++ [newCategory]))
        config
  | _ => config
  end.

(** [const x = array.find(test); if (x) x.field = ...]: the first element
    that passes the test is changed where it is, the others stay.  (The
    elements of the configuration lists are distinct objects: they are made
    one by one from the rows of the backend, from a parsed document or by
    the [add...] methods.) *)
Fixpoint updateFound {T : Type} (test : T -> bool) (update : T -> T)
    (array : list T) : list T :=
  match array with
  | [] => []
  | x :: rest =>
      if test x then update x :: rest else x :: updateFound test update rest
  end.

(** [x.isActive = !x.isActive] on the three kinds of item *)
Definition toggleLocation (l : LocationOption.t) : LocationOption.t :=
  {| LocationOption.id := LocationOption.id l;
     LocationOption.name := LocationOption.name l;
     LocationOption.description := LocationOption.description l;
     LocationOption.capacity := LocationOption.capacity l;
     LocationOption.amenities := LocationOption.amenities l;
     LocationOption.isActive := negb (LocationOption.isActive l) |}.

Definition toggleCategory (c : CategoryOption.t) : CategoryOption.t :=
  {| CategoryOption.id := CategoryOption.id c;
     CategoryOption.name := CategoryOption.name c;
     CategoryOption.color := CategoryOption.color c;
     CategoryOption.icon := CategoryOption.icon c;
     CategoryOption.isActive := negb (CategoryOption.isActive c) |}.

Definition togglePriority (p : PriorityOption.t) : PriorityOption.t :=
  {| PriorityOption.id := PriorityOption.id p;
     PriorityOption.name := PriorityOption.name p;
     PriorityOption.color := PriorityOption.color p;
     PriorityOption.level := PriorityOption.level p;
     PriorityOption.isActive := negb (PriorityOption.isActive p) |}.

(** [toggleItem(e)].  [type] and [id] are the [data-type] and [data-id]
    attributes of the item the button belongs to ([None] when there is no
    such item or attribute); the result is [this.config] after the call. *)
Definition toggleItem (type id : option string) (config : VenueConfig.t)
    : VenueConfig.t :=
  match type, id with
  | Some type, Some id =>
      if truthy (Some type) && truthy (Some id) then
        if String.eqb type "location" then
          set_locations
            (updateFound (fun l => String.eqb (LocationOption.id l) id)
                         toggleLocation (VenueConfig.locations config))
            config
        else if String.eqb type "category" then
          set_customCategories
            (option_map
               (updateFound (fun c => String.eqb (CategoryOption.id c) id)
                            toggleCategory)
               (VenueConfig.customCategories config))
            config
        else if String.eqb type "priority" then
          VenueConfig.set_customPriorities
            (option_map
               (updateFound (fun p => String.eqb (PriorityOption.id p) id)
                            togglePriority)
               (VenueConfig.customPriorities config))
            config
        else config
      else config
  | _, _ => config
  end.

(** [deleteItem(e)].  [confirmed] is the answer to the confirmation. *)
Definition deleteItem (confirmed : bool) (type id : option string)
    (config : VenueConfig.t) : VenueConfig.t :=
  if negb confirmed then config else
  match type, id with
  | Some type, Some id =>
      if truthy (Some type) && truthy (Some id) then
        if String.eqb type "location" then
          set_locations
            (List.filter (fun l => negb (String.eqb (LocationOption.id l) id))
                         (VenueConfig.locations config))
            config
        else if String.eqb type "category" then
          set_customCategories
            (option_map
               (List.filter (fun c => negb (String.eqb (CategoryOption.id c) id)))
               (VenueConfig.customCategories config))
            config
        else if String.eqb type "priority" then
          VenueConfig.set_customPriorities
            (option_map
               (List.filter (fun p => negb (String.eqb (PriorityOption.id p) id)))
               (VenueConfig.customPriorities config))
            config
        else config
      else config
  | _, _ => config
  end.

(** The controls [saveConfig()] reads. *)
Record Form : Type := {
  company_name : string;
  logo : string;
  tagline : string;
  primary_color : string;
  secondary_color : string;
  venue_name : string;
  venue_address : string;
  venue_phone : string;
  venue_email : string;
  venue_website : string;
  time_format : string;
  date_format : string;
  first_day_week : string;
  default_duration : string;
  show_attendees : bool;
  show_location : bool;
  show_description : bool;
  allow_recurring : bool;
  allow_attachments : bool
}.

Section Save.
Import JsValue ConfigService.
Context (parseFloat : string -> value) (backend : Backend).

(** The object literal [updates] of [saveConfig()]. *)
Definition formUpdates (form : Form) : value :=
  object
    [ ("companyName", VString (company_name form));
      ("logo", VString (logo form));
      ("tagline", VString (tagline form));
      ("primaryColor", VString (primary_color form));
      ("secondaryColor", VString (secondary_color form));
      ("venueName", VString (venue_name form));
      ("venueAddress", VString (venue_address form));
      ("venuePhone", VString (venue_phone form));
      ("venueEmail", VString (venue_email form));
      ("venueWebsite", VString (venue_website form));
      ("timeFormat", VString (time_format form));
      ("dateFormat", VString (date_format form));
      ("firstDayOfWeek", VNumber (parseInt (first_day_week form)));
      ("defaultEventDuration", parseFloat (default_duration form));
      ("features",
       object
         [ ("showAttendees", VBool (show_attendees form));
           ("showLocation", VBool (show_location form));
           ("showDescription", VBool (show_description form));
           ("allowRecurring", VBool (allow_recurring form));
           ("allowFileAttachments", VBool (allow_attachments form)) ]) ]%string.

(** [saveConfig()]: [true] when the success message is shown, [false] when
    the failure message is. *)
Definition saveConfig (form : Form) : Method bool :=
  fun st =>
    match updateConfig backend (formUpdates form) st with
    | (Returned _, st') => (Returned true, st')
    | (Thrown, st') => (Returned false, st')
    end.

End Save.

End ConfigPageLists.

(** ** [components/ConfigPage.ts] and the configuration service: the lists
    they share

    [render()] of the page stores what [getConfig()] returns, the copy
    [{ ...this.config }] of the service's configuration: another object with
    the same properties, so a list property of the page is the very array of
    the service, holding the very item objects, until the page assigns a new
    array to it.  Here arrays and item objects are kept by reference in a
    [Heap] (a reference is a position in it), for one list property of the
    two configuration objects ([locations], [customCategories] or
    [customPriorities]); [None] is [undefined]. *)
Module ConfigSharing.

Section Sharing.
Context {T : Type} (idOf : T -> string) (toggled : T -> T).

Record Heap : Type := {
  objects : list T;
  arrays : list (list nat)
}.

Record World : Type := {
  heap : Heap;
  serviceList : option nat;   (* the property of the service's [this.config] *)
  pageList : option nat       (* the property of the page's [this.config] *)
}.

(** The items of an array, and of a list property ([list || []]). *)
Definition elements (h : Heap) (array : nat) : list T :=
  omap (fun o => objects h !! o) (default [] (arrays h !! array)).

Definition items (h : Heap) (property : option nat) : list T :=
  match property with
  | Some array => elements h array
  | None => []
  end.

(** What the getters of the service read, and what the page shows. *)
Definition serviceItems (w : World) : list T := items (heap w) (serviceList w).
Definition pageItems (w : World) : list T := items (heap w) (pageList w).

(** [render()]: [this.config = await this.configService.getConfig()] *)
Definition render (w : World) : World :=
  {| heap := heap w; serviceList := serviceList w; pageList := serviceList w |}.

(** [addCategory()] and [addPriority()] with the new item:
    [if (!this.config.list) this.config.list = []; this.config.list.push(item)].
    [addLocation()] pushes without the first statement, on a list that is
    always defined. *)
Definition addItem (item : T) (w : World) : World :=
  let h := heap w in
  let o := length (objects h) in
  match pageList w with
  | Some array =>
      {| heap := {| objects := objects h ++ [item];
                    arrays := <[array := default [] (arrays h !! array) ++ [o]]>
                                (arrays h) |};
         serviceList := serviceList w;
         pageList := Some array |}
  | None =>
      {| heap := {| objects := objects h ++ [item];
                    arrays := arrays h ++ [[o]] |};
         serviceList := serviceList w;
         pageList := Some (length (arrays h)) |}
  end.

(** [list.find(x => x.id === id)]: the first item object with the id. *)
Fixpoint find (h : Heap) (id : string) (array : list nat) : option nat :=
  match array with
  | [] => None
  | o :: rest =>
      match objects h !! o with
      | Some x => if String.eqb (idOf x) id then Some o else find h id rest
      | None => find h id rest
      end
  end.

(** [toggleItem(e)] on an item of this list, [id] being its [data-id]
    (nothing happens when that is empty):
    [const x = this.config.list?.find(...); if (x) x.isActive = !x.isActive] *)
Definition toggleItem (id : string) (w : World) : World :=
  let h := heap w in
  if negb (ConfigPage.truthy (Some id)) then w else
  match pageList w with
  | Some array =>
      match find h id (default [] (arrays h !! array)) with
      | Some o =>
          {| heap := {| objects := alter toggled o (objects h);
                        arrays := arrays h |};
             serviceList := serviceList w;
             pageList := pageList w |}
      | None => w
      end
  | None => w
  end.

(** [deleteItem(e)] on an item of this list, confirmed:
    [this.config.list = this.config.list?.filter(x => x.id !== id)] *)
Definition deleteItem (id : string) (w : World) : World :=
  let h := heap w in
  if negb (ConfigPage.truthy (Some id)) then w else
  match pageList w with
  | Some array =>
      let kept :=
        List.filter (fun o => match objects h !! o with
                              | Some x => negb (String.eqb (idOf x) id)
                              | None => true
                              end)
                    (default [] (arrays h !! array)) in
      {| heap := {| objects := objects h; arrays := arrays h ++ [kept] |};
         serviceList := serviceList w;
         pageList := Some (length (arrays h)) |}
  | None => w
  end.

(** What the user does on the page after [render()]. *)
Inductive Action : Type :=
| Add (item : T)
| Toggle (id : string)
| Delete (id : string).

Definition act (a : Action) (w : World) : World :=
  match a with
  | Add item => addItem item w
  | Toggle id => toggleItem id w
  | Delete id => deleteItem id w
  end.

Definition run (actions : list Action) (w : World) : World :=
  fold_left (fun w a => act a w) actions w.

(** *** Notions used to state the properties *)

(** The page's list is the array of the service. *)
Definition shares (w : World) : bool :=
  match pageList w, serviceList w with
  | Some p, Some s => Nat.eqb p s
  | _, _ => false
  end.

(** The action assigns a new array to the page's list, if it has one. *)
Definition isDelete (a : Action) : bool :=
  match a with
  | Delete id => ConfigPage.truthy (Some id)
  | _ => false
  end.

(** Every reference is to something in the heap. *)
Definition wellFormed (w : World) : Prop :=
  (forall array, serviceList w = Some array \/ pageList w = Some array ->
                 (array < length (arrays (heap w)))%nat) /\
  Forall (Forall (fun o => (o < length (objects (heap w)))%nat)) (arrays (heap w)).

End Sharing.

Arguments Heap T : clear implicits.
Arguments World T : clear implicits.
Arguments Action T : clear implicits.

End ConfigSharing.

(** ** The configuration service over [localStorage], continued

    The service keeps [this.config] and writes it, as JSON text, to one item
    of [localStorage].  [stored] is that item ([None] when there is none);
    [writable] tells whether [setItem] succeeds or throws (storage full or
    disabled), which [saveConfig] catches. *)
Module LocalConfigStore.
Import JsNumber JsValue ConfigService.

Definition DEFAULT_CONFIG : gmap string value :=
  Encode.config Defaults.DEFAULT_CONFIG.

Record Service : Type := {
  config : gmap string value;
  stored : option string
}.

Section Store.
Context (JSON_parse : string -> option value)
        (JSON_stringify : value -> string)
        (JSON_stringify_indented : value -> string)
        (writable : bool).

(** [loadConfig()] *)
Definition loadConfig (stored : option string) : gmap string value :=
  match stored with
  | Some (String c s) =>
      match JSON_parse (String c s) with
      | Some parsedConfig => spread DEFAULT_CONFIG parsedConfig
      | None => spread ∅ (VObject DEFAULT_CONFIG)
      end
  | _ => spread ∅ (VObject DEFAULT_CONFIG)
  end.

(** The constructor: [this.config = this.loadConfig()] *)
Definition new (stored : option string) : Service :=
  {| config := loadConfig stored; stored := stored |}.

(** [saveConfig()] *)
Definition saveConfig (s : Service) : Service :=
  if writable
  then {| config := config s; stored := Some (JSON_stringify (VObject (config s))) |}
  else s.

(** [getConfig()] *)
Definition getConfig (s : Service) : gmap string value :=
  spread ∅ (VObject (config s)).

(** [updateConfig(updates)] *)
Definition updateConfig (updates : value) (s : Service) : Service :=
  saveConfig {| config := spread (config s) updates; stored := stored s |}.

(** [resetToDefaults()] *)
Definition resetToDefaults (s : Service) : Service :=
  saveConfig {| config := spread ∅ (VObject DEFAULT_CONFIG); stored := stored s |}.

(** [exportConfig()] *)
Definition exportConfig (s : Service) : string :=
  JSON_stringify_indented (VObject (config s)).

(** [importedConfig && typeof importedConfig === 'object'] *)
Definition isObject (v : value) : bool :=
  match v with
  | VObject _ | VArray _ => true
  | _ => false
  end.

(** [importConfig(jsonString)] *)
Definition importConfig (jsonString : string) (s : Service) : bool * Service :=
  match JSON_parse jsonString with
  | Some importedConfig =>
      if isObject importedConfig
      then (true,
            saveConfig {| config := spread DEFAULT_CONFIG importedConfig;
                          stored := stored s |})
      else (false, s)
  | None => (false, s)
  end.

(** A call of one of the methods that change the configuration. *)
Inductive Call : Type :=
| CallUpdate (updates : value)
| CallReset
| CallImport (jsonString : string).

Definition call (c : Call) (s : Service) : Service :=
  match c with
  | CallUpdate updates => updateConfig updates s
  | CallReset => resetToDefaults s
  | CallImport jsonString => snd (importConfig jsonString s)
  end.

(** The service after a sequence of calls, first call first. *)
Definition calls (cs : list Call) (s : Service) : Service :=
  fold_left (fun s c => call c s) cs s.

End Store.

(** [getAllPriorities()]: the active custom priorities as [{ id, name,
    color }], sorted on a copy by the level found for their id, after the
    three defaults. *)
Definition levelOr5 (config : VenueConfig.t) (id : string) : number :=
  match VenueConfig.customPriorities config with
  | Some customPriorities =>
      match List.find (fun p => String.eqb (PriorityOption.id p) id)
                      customPriorities with
      | Some p =>
          match PriorityOption.level p with
          | NaN => Num 5
          | Num 0 => Num 5
          | Num level => Num level
          end
      | None => Num 5
      end
  | None => Num 5
  end.

Definition getAllPriorities (config : VenueConfig.t) : list Choice :=
  let customPriorities :=
    JsArray.sort
      (fun a b =>
         let aLevel := levelOr5 config (id a) in
         let bLevel := levelOr5 config (id b) in
         sub bLevel aLevel)
      (map (fun priority => {| id := PriorityOption.id priority;
                               name := PriorityOption.name priority;
                               color := PriorityOption.color priority |})
           (List.filter (fun priority => PriorityOption.isActive priority)
                        (default [] (VenueConfig.customPriorities config)))) in
  defaultPriorities ++ customPriorities.

End LocalConfigStore.

(** ** Auxiliary notions used to state the properties of that service *)
Module LocalConfigSpec.
Import JsValue ConfigService LocalConfigStore.

(** Every property of [DEFAULT_CONFIG] is there. *)
Definition complete (c : gmap string value) : Prop :=
  forall k, is_Some (DEFAULT_CONFIG !! k) -> is_Some (c !! k).

(** The [{ id, name, color }] of a priority. *)
Definition priorityChoice (p : PriorityOption.t) : Choice :=
  {| id := PriorityOption.id p; name := PriorityOption.name p;
     color := PriorityOption.color p |}.

(** The level is a number other than 0. *)
Definition properLevel (p : PriorityOption.t) : Prop :=
  exists n, PriorityOption.level p = JsNumber.Num n /\ n <> 0.

End LocalConfigSpec.

(** ** [src/services/EventStorage.ts] over [localStorage], continued

    The service keeps one item with the array of event ids under
    [EVENTS_KEY] and one item per event under [EVENT_PREFIX + id].  No event
    key equals [EVENTS_KEY] and different ids have different keys (proved
    with the storage properties), so the storage is modelled as the index item and
    a map from ids to event items.  An item is represented by what
    [JSON.parse] makes of its text: [JSON.stringify] followed by [JSON.parse]
    gives an array of strings back as it was, and an event with its four
    dates as ISO strings, which [loadEvent] turns into the same dates again.
    Items that parse but are neither of the two kinds are not modelled.
    [capacity] is the number of further [setItem] calls that succeed before
    the storage is full and [setItem] throws. *)
Module LocalEventStorage.
Import JsDate JsNumber.

Definition EVENTS_KEY : string := "eventplanner_events".
Definition EVENT_PREFIX : string := "event_".

Inductive Text (A : Type) : Type :=
| Parsed (a : A)   (* text that JSON.parse reads as [a] *)
| Empty            (* the empty text, which is falsy *)
| Unparseable.     (* other text that JSON.parse throws on *)
Arguments Parsed {A} a.
Arguments Empty {A}.
Arguments Unparseable {A}.

Record Storage : Type := {
  index : option (Text (list string));
  records : gmap string (Text Event.t);
  capacity : nat
}.

Inductive Outcome (A : Type) : Type :=
| Returned (a : A)
| Thrown.
Arguments Returned {A} a.
Arguments Thrown {A}.

(** [localStorage.setItem(EVENTS_KEY, JSON.stringify(eventIds))]: [None]
    when it throws. *)
Definition setIndex (eventIds : list string) (st : Storage) : option Storage :=
  match capacity st with
  | O => None
  | S n => Some {| index := Some (Parsed eventIds); records := records st;
                   capacity := n |}
  end.

(** [localStorage.setItem(EVENT_PREFIX + id, JSON.stringify(event))] *)
Definition setRecord (id : string) (event : Event.t) (st : Storage)
    : option Storage :=
  match capacity st with
  | O => None
  | S n => Some {| index := index st;
                   records := <[id := Parsed event]> (records st);
                   capacity := n |}
  end.

(** [localStorage.removeItem(EVENT_PREFIX + id)] *)
Definition removeRecord (id : string) (st : Storage) : Storage :=
  {| index := index st; records := delete id (records st);
     capacity := capacity st |}.

(** [loadEvent(id)]: [None] is [null]. *)
Definition loadEvent (id : string) (st : Storage) : option Event.t :=
  match records st !! id with
  | Some (Parsed parsedEvent) => Some parsedEvent
  | _ => None
  end.

(** The events [loadAllEvents()] collects before it sorts them: [None] when
    there is no index or reading it throws. *)
Definition readEvents (st : Storage) : option (list Event.t) :=
  match index st with
  | Some (Parsed eventIds) =>
      Some (omap (fun eventId => loadEvent eventId st) eventIds)
  | _ => None
  end.

(** [loadAllEvents()] and [getEventsForDate(date)] *)
Definition loadAllEvents (st : Storage) : list Event.t :=
  EventStorage.loadAllEvents (readEvents st).

Definition getEventsForDate (st : Storage) (date : Date) : list Event.t :=
  EventStorage.getEventsForDate (readEvents st) date.

(** [eventIds.includes(eventId)] *)
Definition includes (eventIds : list string) (eventId : string) : bool :=
  existsb (String.eqb eventId) eventIds.

(** [updateEventsList(eventId)] *)
Definition updateEventsList (eventId : string) (st : Storage)
    : Outcome unit * Storage :=
  match index st with
  | Some Unparseable => (Thrown, st)
  | eventsData =>
      let eventIds :=
        match eventsData with
        | Some (Parsed eventIds) => eventIds
        | _ => []
        end in
      if negb (includes eventIds eventId) then
        match setIndex (eventIds ++ [eventId]) st with
        | Some st' => (Returned tt, st')
        | None => (Thrown, st)
        end
      else (Returned tt, st)
  end.

(** [{ ...event, updatedAt: now }] *)
Definition set_updatedAt (now : Date) (event : Event.t) : Event.t :=
  {| Event.id := Event.id event; Event.title := Event.title event;
     Event.description := Event.description event;
     Event.startDate := Event.startDate event;
     Event.endDate := Event.endDate event;
     Event.location := Event.location event;
     Event.category := Event.category event;
     Event.priority := Event.priority event;
     Event.attendees := Event.attendees event;
     Event.createdAt := Event.createdAt event;
     Event.updatedAt := now |}.

(** [updateEvent(event)], [now] being the reading of the clock: an error is
    logged and thrown again. *)
Definition updateEvent (now : Date) (event : Event.t) (st : Storage)
    : Outcome Event.t * Storage :=
  let updatedEvent := set_updatedAt now event in
  match setRecord (Event.id event) updatedEvent st with
  | None => (Thrown, st)
  | Some st1 =>
      match updateEventsList (Event.id event) st1 with
      | (Returned _, st2) => (Returned updatedEvent, st2)
      | (Thrown, st2) => (Thrown, st2)
      end
  end.

(** [CreateEventData] *)
Record CreateEventData : Type := {
  title : string;
  description : string;
  startDate : Date;
  endDate : Date;
  location : option string;
  category : string;
  priority : string;
  attendees : option (list string)
}.

(** [saveEvent(eventData)]: [uuid] is the id [uuidv4()] draws, [now] the
    clock when the event is made and [later] the clock in [updateEvent]. *)
Definition saveEvent (uuid : string) (now later : Date) (eventData : CreateEventData)
    (st : Storage) : Outcome Event.t * Storage :=
  let event :=
    {| Event.id := uuid; Event.title := title eventData;
       Event.description := description eventData;
       Event.startDate := startDate eventData;
       Event.endDate := endDate eventData;
       Event.location := location eventData;
       Event.category := category eventData;
       Event.priority := priority eventData;
       Event.attendees := attendees eventData;
       Event.createdAt := now; Event.updatedAt := now |} in
  match updateEvent later event st with
  | (Returned _, st') => (Returned event, st')
  | (Thrown, st') => (Thrown, st')
  end.

(** [deleteEvent(id)] *)
Definition deleteEvent (id : string) (st : Storage) : bool * Storage :=
  let st1 := removeRecord id st in
  match index st1 with
  | Some (Parsed eventIds) =>
      let updatedIds :=
        List.filter (fun eventId => negb (String.eqb eventId id)) eventIds in
      match setIndex updatedIds st1 with
      | Some st2 => (true, st2)
      | None => (false, st1)
      end
  | Some Unparseable => (false, st1)
  | _ => (true, st1)
  end.

(** [clearAllEvents()] *)
Definition clearAllEvents (st : Storage) : bool * Storage :=
  match index st with
  | Some Unparseable => (false, st)
  | eventsData =>
      let listed :=
        match eventsData with
        | Some (Parsed eventIds) => eventIds
        | _ => []
        end in
      (true,
       {| index := None;
          records := fold_left (fun records eventId => delete eventId records)
                               listed (records st);
          capacity := capacity st |})
  end.

End LocalEventStorage.

(** ** Auxiliary notions used to state the storage properties *)
Module LocalEventSpec.
Import LocalEventStorage.

(** The ids the index lists. *)
Definition listed (st : Storage) : list string :=
  match index st with
  | Some (Parsed eventIds) => eventIds
  | _ => []
  end.

(** The index lists no id twice, and every event is stored under its own
    id. *)
Definition consistent (st : Storage) : Prop :=
  List.NoDup (listed st) /\
  forall id event, records st !! id = Some (Parsed event) -> Event.id event = id.

End LocalEventSpec.

(** ** [src/components/EventForm.ts] and [components/EventEditorPage.ts]:
    the text fields of the event form

    The value of a text field is a string, here the sequence of its UTF-16
    code units.  [trim] removes the white space and the line terminators of
    ECMA-262 from both ends; all of them are single code units. *)
Module EventForm.

Definition text : Type := list N.

(** The code units of a text of 8-bit characters. *)
Definition ofAscii (s : string) : text :=
  map (fun c => N_of_ascii c) (list_ascii_of_string s).

(** The line feed, ['\n']. *)
Definition newline : N := 10%N.

(** [WhiteSpace] and [LineTerminator]: tab, line feed, vertical tab, form
    feed, carriage return, space, no-break space, the other space separators
    of Unicode (U+1680, U+2000 to U+200A, U+202F, U+205F, U+3000), the line
    and paragraph separators (U+2028, U+2029) and the byte order mark
    (U+FEFF). *)
Definition isWhiteSpace (c : N) : bool :=
  ((9 <=? c) && (c <=? 13) || (c =? 32) || (c =? 160) || (c =? 5760)
   || (8192 <=? c) && (c <=? 8202) || (c =? 8232) || (c =? 8233)
   || (c =? 8239) || (c =? 8287) || (c =? 12288) || (c =? 65279))%N.

(** [s.split('\n')] *)
Fixpoint split (s : text) : list text :=
  match s with
  | [] => [[]]
  | c :: s' =>
      if N.eqb c newline then [] :: split s'
      else
        match split s' with
        | line :: lines => (c :: line) :: lines
        | [] => [[c]]
        end
  end.

(** [array.join('\n')] *)
Fixpoint join (array : list text) : text :=
  match array with
  | [] => []
  | [x] => x
  | x :: rest => x ++ newline :: join rest
  end.

(** [s.trimStart()], [s.trimEnd()] and [s.trim()] *)
Fixpoint trimStart (s : text) : text :=
  match s with
  | c :: s' => if isWhiteSpace c then trimStart s' else s
  | [] => []
  end.

Fixpoint trimEnd (s : text) : text :=
  match s with
  | [] => []
  | c :: s' =>
      match trimEnd s' with
      | [] => if isWhiteSpace c then [] else [c]
      | rest => c :: rest
      end
  end.

Definition trim (s : text) : text := trimEnd (trimStart s).

(** The attendees [collectFormData()] reads from the text area: [None] is
    [undefined]. *)
Definition collectAttendees (value : text) : option (list text) :=
  let attendees :=
    List.filter (fun line => (0 <? length line)%nat)
                (map (fun line => trim line) (split value)) in
  if (0 <? length attendees)%nat then Some attendees else None.

(** The text [populateForm(event)] puts into the text area:
    [event.attendees?.join('\n') || ''] *)
Definition attendeesText (attendees : option (list text)) : text :=
  match attendees with
  | Some attendees => join attendees
  | None => []
  end.

(** The title [collectFormData()] accepts: [None] when the form is
    rejected for lack of a title. *)
Definition collectTitle (value : text) : option text :=
  match trim value with
  | [] => None
  | title => Some title
  end.

(** [locationInput.value.trim() || undefined] *)
Definition collectLocation (value : text) : option text :=
  match trim value with
  | [] => None
  | location => Some location
  end.

End EventForm.

(** ** Auxiliary notions used to state the form properties *)
Module EventFormSpec.
Import EventForm.

(** No line feed in the text. *)
Fixpoint oneLine (s : text) : bool :=
  match s with
  | [] => true
  | c :: s' => negb (N.eqb c newline) && oneLine s'
  end.

(** A name as the form yields it: not empty, no white space around it, on
    one line. *)
Definition name (s : text) : Prop :=
  s <> [] /\ trim s = s /\ oneLine s = true.

End EventFormSpec.

(** ** The router ([Router])

    The router keeps [currentPage] and works on the session history of the
    browser.  The history is modelled as its entries in this document: the
    current one, those before it (nearest first) and those after it; each
    holds the state object given to [pushState] or [replaceState], or
    [null].  [history.back()] moves to the entry before the current one, if
    there is one, and then the [popstate] listener runs with the state of
    that entry.  [Data] is whatever the caller passes along with a page. *)
Module Router.

Section Router.
Context {Data : Type}.

(** The state object [{ page, data }]; a state written by other code may
    lack the page. *)
Record HistoryState : Type := {
  page : option string;
  data : option Data
}.

Record History : Type := {
  before : list (option HistoryState);
  current : option HistoryState;
  after : list (option HistoryState)
}.

(** [window.history.pushState(state, '', url)] and [replaceState] *)
Definition pushState (state : HistoryState) (h : History) : History :=
  {| before := current h :: before h; current := Some state; after := [] |}.

Definition replaceState (state : HistoryState) (h : History) : History :=
  {| before := before h; current := Some state; after := after h |}.

(** The router, the history, and the calls of the [onPageChange] callback so
    far (latest first). *)
Record World : Type := {
  currentPage : string;
  listening : bool;
  history : History;
  shown : list (string * option Data)
}.

(** A new router on a page whose history is [h]. *)
Definition new (h : History) : World :=
  {| currentPage := "dashboard"; listening := false; history := h; shown := [] |}.

(** [navigateTo(page, data)] *)
Definition navigateTo (page : string) (data : option Data) (w : World) : World :=
  {| currentPage := page;
     listening := listening w;
     history := pushState {| page := Some page; data := data |} (history w);
     shown := (page, data) :: shown w |}.

(** The [popstate] listener that [init()] installs. *)
Definition onPopState (state : option HistoryState) (w : World) : World :=
  match state with
  | Some state =>
      let currentPage := ConfigPage.orElse (page state) "dashboard" in
      {| currentPage := currentPage; listening := listening w;
         history := history w;
         shown := (currentPage, data state) :: shown w |}
  | None =>
      {| currentPage := "dashboard"; listening := listening w;
         history := history w;
         shown := ("dashboard"%string, None) :: shown w |}
  end.

(** [init()] *)
Definition init (w : World) : World :=
  {| currentPage := currentPage w; listening := true;
     history := replaceState {| page := Some "dashboard"%string; data := None |}
                             (history w);
     shown := shown w |}.

(** [goBack()]: [window.history.back()] and the [popstate] event it causes. *)
Definition goBack (w : World) : World :=
  match before (history w) with
  | [] => w
  | entry :: earlier =>
      let moved :=
        {| currentPage := currentPage w; listening := listening w;
           history := {| before := earlier; current := entry;
                         after := current (history w) :: after (history w) |};
           shown := shown w |} in
      if listening w then onPopState entry moved else moved
  end.

(** [getCurrentPage()] *)
Definition getCurrentPage (w : World) : string := currentPage w.

(** What the user of the router does. *)
Inductive Action : Type :=
| NavigateTo (page : string) (data : option Data)
| GoBack.

Definition act (a : Action) (w : World) : World :=
  match a with
  | NavigateTo page data => navigateTo page data w
  | GoBack => goBack w
  end.

Definition run (actions : list Action) (w : World) : World :=
  fold_left (fun w a => act a w) actions w.

(** The page the state of the current history entry stands for. *)
Definition entryPage (state : option HistoryState) : string :=
  match state with
  | Some state => ConfigPage.orElse (page state) "dashboard"
  | None => "dashboard"%string
  end.

(** The action names a page. *)
Definition namesPage (a : Action) : Prop :=
  match a with
  | NavigateTo page _ => page <> EmptyString
  | GoBack => True
  end.

End Router.

Arguments HistoryState Data : clear implicits.
Arguments History Data : clear implicits.
Arguments World Data : clear implicits.
Arguments Action Data : clear implicits.

End Router.
(** * Properties *)

(** Evaluate [monthStart] at closed arguments. *)
Ltac eval_monthStart :=
  repeat match goal with
         | |- context [JsDate.monthStart ?l ?m] =>
             let v := eval cbv in (JsDate.monthStart l m) in
             progress change (JsDate.monthStart l m) with v
         | H : context [JsDate.monthStart ?l ?m] |- _ =>
             let v := eval cbv in (JsDate.monthStart l m) in
             progress change (JsDate.monthStart l m) with v in H
         end.

(** ** Calendar arithmetic *)
Section DateFacts.
Import JsDate.

Lemma step4 y : (y + 1 - 1969) / 4 = (y - 1969) / 4 + (if y mod 4 =? 0 then 1 else 0).
Proof. destruct (Z.eqb_spec (y mod 4) 0); Z.div_mod_to_equations; lia. Qed.

Lemma step100 y : (y + 1 - 1901) / 100 = (y - 1901) / 100 + (if y mod 100 =? 0 then 1 else 0).
Proof. destruct (Z.eqb_spec (y mod 100) 0); Z.div_mod_to_equations; lia. Qed.

Lemma step400 y : (y + 1 - 1601) / 400 = (y - 1601) / 400 + (if y mod 400 =? 0 then 1 else 0).
Proof. destruct (Z.eqb_spec (y mod 400) 0); Z.div_mod_to_equations; lia. Qed.

Lemma DaysInYear_cases y : DaysInYear y = 365 \/ DaysInYear y = 366.
Proof.
  unfold DaysInYear.
  repeat match goal with
         | |- context [?a =? ?b] => destruct (Z.eqb_spec a b); cbn [negb]
         end; auto.
Qed.

Lemma InLeapYear_cases y :
  (InLeapYear y = 0 /\ DaysInYear y = 365) \/ (InLeapYear y = 1 /\ DaysInYear y = 366).
Proof.
  unfold InLeapYear. destruct (DaysInYear_cases y) as [H|H]; rewrite H; cbn; auto.
Qed.

(** Consecutive years are [DaysInYear] apart. *)
Lemma DayFromYear_succ y : DayFromYear (y + 1) = DayFromYear y + DaysInYear y.
Proof.
  unfold DayFromYear, DaysInYear.
  rewrite step4, step100, step400.
  assert (y mod 100 = 0 -> y mod 4 = 0) by (intros; Z.div_mod_to_equations; lia).
  assert (y mod 400 = 0 -> y mod 100 = 0) by (intros; Z.div_mod_to_equations; lia).
  destruct (Z.eqb_spec (y mod 4) 0), (Z.eqb_spec (y mod 100) 0),
    (Z.eqb_spec (y mod 400) 0); cbn [negb]; lia.
Qed.

Lemma DayFromYear_bounds y :
  146097 * (y - 1970) - 800 <= 400 * DayFromYear y <= 146097 * (y - 1970) + 800.
Proof. unfold DayFromYear. Z.div_mod_to_equations. lia. Qed.

(** [YearFromDay d] is the year whose days contain day number [d]. *)
Lemma YearFromDay_spec d :
  DayFromYear (YearFromDay d) <= d < DayFromYear (YearFromDay d + 1).
Proof.
  unfold YearFromDay.
  set (y := 1970 + d * 400 / 146097).
  pose proof (DayFromYear_succ y) as Hs.
  pose proof (DayFromYear_succ (y - 1)) as Hp.
  pose proof (DayFromYear_succ (y + 1)) as Hn.
  replace (y - 1 + 1) with y in Hp by lia.
  pose proof (DayFromYear_bounds y) as Hb.
  pose proof (DaysInYear_cases y). pose proof (DaysInYear_cases (y - 1)).
  pose proof (DaysInYear_cases (y + 1)).
  assert (146097 * (y - 1970) <= 400 * d < 146097 * (y - 1970) + 146097)
    by (subst y; Z.div_mod_to_equations; lia).
  clearbody y.
  destruct (Z.ltb_spec d (DayFromYear y)).
  - replace (y - 1 + 1) with y by lia. lia.
  - destruct (Z.leb_spec (DayFromYear (y + 1)) d); lia.
Qed.

Lemma DayFromYear_mono a b : a <= b -> DayFromYear a <= DayFromYear b.
Proof. intros H. unfold DayFromYear. Z.div_mod_to_equations. lia. Qed.

Lemma YearFromDay_unique y d :
  DayFromYear y <= d < DayFromYear (y + 1) -> YearFromDay d = y.
Proof.
  intros H. pose proof (YearFromDay_spec d) as Hs.
  destruct (Z.lt_trichotomy (YearFromDay d) y) as [Hlt | [Heq | Hgt]]; [|assumption|].
  - pose proof (DayFromYear_mono (YearFromDay d + 1) y ltac:(lia)). lia.
  - pose proof (DayFromYear_mono (y + 1) (YearFromDay d) ltac:(lia)). lia.
Qed.

Lemma DayWithinYear_range d :
  0 <= DayWithinYear d < DaysInYear (YearFromDay d).
Proof.
  unfold DayWithinYear. pose proof (YearFromDay_spec d) as H.
  rewrite DayFromYear_succ in H. lia.
Qed.

Lemma MonthFromDay_range d : 0 <= MonthFromDay d <= 11.
Proof.
  unfold MonthFromDay.
  repeat match goal with
         | |- context [?a <? ?b] => destruct (Z.ltb_spec a b)
         end; lia.
Qed.

(** The month found by [MonthFromDay] contains the day. *)
Lemma MonthFromDay_spec d :
  let leap := InLeapYear (YearFromDay d) in
  monthStart leap (MonthFromDay d) <= DayWithinYear d
    < monthStart leap (MonthFromDay d + 1).
Proof.
  cbv zeta. pose proof (DayWithinYear_range d) as Hr.
  destruct (InLeapYear_cases (YearFromDay d)) as [[Hl Hd] | [Hl Hd]];
    rewrite Hl, Hd in *; unfold MonthFromDay; rewrite Hl;
    repeat match goal with
           | |- context [?a <? ?b] => destruct (Z.ltb_spec a b)
           end; eval_monthStart; lia.
Qed.

Lemma DateFromDay_range d : 1 <= DateFromDay d <= 31.
Proof.
  unfold DateFromDay. pose proof (MonthFromDay_spec d) as H. cbv zeta in H.
  pose proof (MonthFromDay_range d) as Hm.
  destruct (InLeapYear_cases (YearFromDay d)) as [[Hl _] | [Hl _]]; rewrite Hl in *;
  assert (MonthFromDay d = 0 \/ MonthFromDay d = 1 \/ MonthFromDay d = 2 \/
          MonthFromDay d = 3 \/ MonthFromDay d = 4 \/ MonthFromDay d = 5 \/
          MonthFromDay d = 6 \/ MonthFromDay d = 7 \/ MonthFromDay d = 8 \/
          MonthFromDay d = 9 \/ MonthFromDay d = 10 \/ MonthFromDay d = 11) as Hc by lia;
  repeat (destruct Hc as [Hc | Hc]); rewrite Hc in *; eval_monthStart; lia.
Qed.

End DateFacts.

Section GridFacts.
Import JsDate DateUtils GridSpec.

Lemma msPerDay_pos : 0 < msPerDay.
Proof. reflexivity. Qed.

Lemma Day_MakeDate d t : 0 <= t < msPerDay -> Day (MakeDate d t) = d.
Proof.
  intros H. unfold Day, MakeDate.
  rewrite Z.add_comm, Z.div_add by (unfold msPerDay; lia).
  rewrite Z.div_small by assumption. lia.
Qed.

Lemma TimeWithinDay_MakeDate d t : 0 <= t < msPerDay -> TimeWithinDay (MakeDate d t) = t.
Proof.
  intros H. unfold TimeWithinDay, MakeDate.
  rewrite Z.add_comm, Z.mod_add by (unfold msPerDay; lia).
  apply Z.mod_small. assumption.
Qed.

Lemma MakeDate_Day t : MakeDate (Day t) (TimeWithinDay t) = t.
Proof.
  unfold MakeDate, Day, TimeWithinDay.
  pose proof (Z.div_mod t msPerDay ltac:(unfold msPerDay; lia)). lia.
Qed.

Lemma Day_add t k : Day (t + k * msPerDay) = Day t + k.
Proof. unfold Day. apply Z.div_add. unfold msPerDay. lia. Qed.

(** [MakeDay] inverts the decomposition of a day number into year, month and
    day of month, and is linear in the day of month. *)
Lemma MakeDay_components d k :
  MakeDay (YearFromDay d) (MonthFromDay d) (DateFromDay d + k) = d + k.
Proof.
  unfold MakeDay. pose proof (MonthFromDay_range d) as Hm.
  rewrite Z.div_small, Z.mod_small, Z.add_0_r by lia.
  unfold DateFromDay, DayWithinYear. lia.
Qed.

(** Moving the day of month by [k] moves the date by [k] whole days. *)
Lemma setDate_offset t k : setDate t (getDate t + k) = t + k * msPerDay.
Proof.
  unfold setDate, getFullYear, getMonth, getDate.
  rewrite MakeDay_components.
  pose proof (MakeDate_Day t) as H. unfold MakeDate in *. lia.
Qed.

Lemma WeekDay_range d : 0 <= WeekDay d < 7.
Proof. unfold WeekDay. apply Z.mod_pos_bound. lia. Qed.

Lemma WeekDay_sub d : WeekDay (d - WeekDay d) = 0.
Proof. unfold WeekDay. Z.div_mod_to_equations. lia. Qed.

Lemma chunkStep_42 (cell : Z -> Date) :
  fst (fold_left (chunkStep cell) (map Z.of_nat (seq 0 42)) ([], [])) =
  map (fun w => map (fun j => cell (7 * Z.of_nat w + Z.of_nat j)) (seq 0 7)) (seq 0 6).
Proof. reflexivity. Qed.

Lemma fold_left_pointwise {A B} (f g : A -> B -> A) (l : list B) (a : A) :
  (forall x y, f x y = g x y) -> fold_left f l a = fold_left g l a.
Proof.
  intros H. revert a. induction l as [|y l IH]; intros a; cbn; [reflexivity|].
  rewrite H. apply IH.
Qed.

Lemma getCalendarGrid_cells year month :
  getCalendarGrid year month =
  map (fun w => map (fun j => gridAnchor year month
                               + (7 * Z.of_nat w + Z.of_nat j) * msPerDay)
                 (seq 0 7)) (seq 0 6).
Proof.
  unfold getCalendarGrid.
  set (firstDay := newDate year month 1).
  assert (Hs : setDate firstDay (getDate firstDay - getDay firstDay)
               = gridAnchor year month).
  { unfold gridAnchor. fold firstDay.
    replace (getDate firstDay - getDay firstDay)
      with (getDate firstDay + - getDay firstDay) by lia.
    rewrite setDate_offset. lia. }
  rewrite Hs.
  rewrite <- (chunkStep_42 (fun i => gridAnchor year month + i * msPerDay)).
  f_equal. apply fold_left_pointwise. intros [weeks week] i.
  unfold gridStep, chunkStep. rewrite setDate_offset. reflexivity.
Qed.

(** Year, month and day of month of a day built by [MakeDay] from a month in
    0..11 and a day inside that month. *)
Lemma components_of_day y m dt :
  let leap := InLeapYear y in
  let d := DayFromYear y + monthStart leap m + dt - 1 in
  0 <= m <= 11 -> 1 <= dt -> monthStart leap m + dt - 1 < monthStart leap (m + 1) ->
  YearFromDay d = y /\ MonthFromDay d = m /\ DateFromDay d = dt.
Proof.
  cbv zeta. intros Hm Hdt Hlen.
  set (d := DayFromYear y + monthStart (InLeapYear y) m + dt - 1).
  assert (Hcases : m = 0 \/ m = 1 \/ m = 2 \/ m = 3 \/ m = 4 \/ m = 5 \/ m = 6 \/
                   m = 7 \/ m = 8 \/ m = 9 \/ m = 10 \/ m = 11) by lia.
  assert (Hy : YearFromDay d = y).
  { apply YearFromDay_unique. rewrite DayFromYear_succ. subst d.
    destruct (InLeapYear_cases y) as [[Hl Hd] | [Hl Hd]]; rewrite Hl, Hd in *;
      repeat (destruct Hcases as [Hc | Hcases]); subst m; eval_monthStart; lia. }
  assert (Hw : DayWithinYear d = monthStart (InLeapYear y) m + dt - 1).
  { unfold DayWithinYear. rewrite Hy. subst d. lia. }
  assert (Hmo : MonthFromDay d = m).
  { unfold MonthFromDay. rewrite Hw, Hy.
    destruct (InLeapYear_cases y) as [[Hl Hd] | [Hl Hd]]; rewrite Hl in *;
      repeat (destruct Hcases as [Hc | Hcases]); subst m; eval_monthStart;
      repeat match goal with
             | |- context [?a <? ?b] => destruct (Z.ltb_spec a b)
             end; lia. }
  repeat split; [assumption .. |].
  unfold DateFromDay. rewrite Hw, Hy, Hmo. lia.
Qed.

(** Every month has between 28 and 31 days. *)
Lemma month_length leap m :
  0 <= leap <= 1 -> 0 <= m <= 11 ->
  28 <= monthStart leap (m + 1) - monthStart leap m <= 31.
Proof.
  intros Hl Hm.
  assert (Hcases : m = 0 \/ m = 1 \/ m = 2 \/ m = 3 \/ m = 4 \/ m = 5 \/ m = 6 \/
                   m = 7 \/ m = 8 \/ m = 9 \/ m = 10 \/ m = 11) by lia.
  assert (Hleap : leap = 0 \/ leap = 1) by lia.
  destruct Hleap; subst leap;
    repeat (destruct Hcases as [Hc | Hcases]); subst m; eval_monthStart; lia.
Qed.

Lemma InLeapYear_range y : 0 <= InLeapYear y <= 1.
Proof. destruct (InLeapYear_cases y) as [[H _] | [H _]]; lia. Qed.

(** Day 0 of the following month is the last day of the month, also across
    the end of the year. *)
Lemma MakeDay_day0_next yr month :
  let ym := yr + month / 12 in
  let mn := month mod 12 in
  MakeDay yr (month + 1) 0 =
  DayFromYear ym + monthStart (InLeapYear ym) (mn + 1) - 1.
Proof.
  cbv zeta. unfold MakeDay.
  pose proof (Z.mod_pos_bound month 12 ltac:(lia)) as Hr.
  destruct (Z.eq_dec (month mod 12) 11) as [He | Hne].
  - assert ((month + 1) / 12 = month / 12 + 1) as -> by (Z.div_mod_to_equations; lia).
    assert ((month + 1) mod 12 = 0) as -> by (Z.div_mod_to_equations; lia).
    rewrite He. replace (yr + (month / 12 + 1)) with (yr + month / 12 + 1) by lia.
    rewrite DayFromYear_succ.
    destruct (InLeapYear_cases (yr + month / 12)) as [[Hl Hd] | [Hl Hd]];
      rewrite Hl, Hd; eval_monthStart; lia.
  - assert ((month + 1) / 12 = month / 12) as -> by (Z.div_mod_to_equations; lia).
    assert ((month + 1) mod 12 = month mod 12 + 1) as -> by (Z.div_mod_to_equations; lia).
    lia.
Qed.

Lemma In_consecutive (anchor : Date) (n : nat) (i : Z) :
  0 <= i < Z.of_nat n ->
  In (anchor + i * msPerDay)
     (map (fun k => anchor + Z.of_nat k * msPerDay) (seq 0 n)).
Proof.
  intros Hi. apply in_map_iff. exists (Z.to_nat i). split.
  - rewrite Z2Nat.id by lia. reflexivity.
  - apply in_seq. lia.
Qed.

Lemma ctorMonth_range month : 0 <= ctorMonth month <= 11.
Proof. unfold ctorMonth. pose proof (Z.mod_pos_bound month 12 ltac:(lia)). lia. Qed.

Lemma monthLength_range year month : 28 <= monthLength year month <= 31.
Proof.
  unfold monthLength. apply month_length.
  - apply InLeapYear_range.
  - apply ctorMonth_range.
Qed.

Lemma newDate_day year month dt :
  newDate year month dt = newDate year month 1 + (dt - 1) * msPerDay.
Proof. unfold newDate, MakeDate, MakeDay. lia. Qed.

Lemma Day_newDate year month dt :
  Day (newDate year month dt) =
  DayFromYear (ctorYear year month)
  + monthStart (InLeapYear (ctorYear year month)) (ctorMonth month) + dt - 1.
Proof.
  unfold newDate. rewrite Day_MakeDate by (unfold msPerDay; lia). reflexivity.
Qed.

Lemma newDate_day0_next year month :
  newDate year (month + 1) 0 = newDate year month (monthLength year month).
Proof.
  unfold newDate, MakeDate. f_equal. f_equal. rewrite MakeDay_day0_next.
  unfold MakeDay, monthLength, ctorYear, ctorMonth. lia.
Qed.

(** The getters read back what the constructor was given, for a day inside
    the month. *)
Lemma newDate_components year month dt :
  1 <= dt <= monthLength year month ->
  getFullYear (newDate year month dt) = ctorYear year month /\
  getMonth (newDate year month dt) = ctorMonth month /\
  getDate (newDate year month dt) = dt.
Proof.
  intros Hdt. unfold getFullYear, getMonth, getDate. rewrite Day_newDate.
  pose proof (ctorMonth_range month).
  apply components_of_day; unfold monthLength in Hdt; lia.
Qed.

(** The day after the last day of a month is a 1st. *)
Lemma getDate_after_month year month :
  getDate (newDate year month (monthLength year month) + msPerDay) = 1.
Proof.
  unfold getDate.
  replace (newDate year month (monthLength year month) + msPerDay)
    with (newDate year month (monthLength year month) + 1 * msPerDay) by lia.
  rewrite Day_add, Day_newDate. unfold monthLength.
  set (ym := ctorYear year month). set (mn := ctorMonth month).
  pose proof (ctorMonth_range month) as Hmn. fold mn in Hmn. clearbody ym mn.
  destruct (Z.eq_dec mn 11) as [-> | Hne].
  - replace (DayFromYear ym + monthStart (InLeapYear ym) 11
             + (monthStart (InLeapYear ym) (11 + 1) - monthStart (InLeapYear ym) 11)
             - 1 + 1)
      with (DayFromYear (ym + 1) + monthStart (InLeapYear (ym + 1)) 0 + 1 - 1).
    + apply (components_of_day (ym + 1) 0 1); eval_monthStart; lia.
    + rewrite DayFromYear_succ.
      destruct (InLeapYear_cases ym) as [[Hl Hd] | [Hl Hd]];
        rewrite Hl, Hd; eval_monthStart; lia.
  - replace (DayFromYear ym + monthStart (InLeapYear ym) mn
             + (monthStart (InLeapYear ym) (mn + 1) - monthStart (InLeapYear ym) mn)
             - 1 + 1)
      with (DayFromYear ym + monthStart (InLeapYear ym) (mn + 1) + 1 - 1) by lia.
    pose proof (month_length (InLeapYear ym) (mn + 1) (InLeapYear_range ym) ltac:(lia)).
    apply (components_of_day ym (mn + 1) 1); lia.
Qed.

Lemma getDaysInMonth_days year month :
  getDaysInMonth year month =
  map (fun day => newDate year month (Z.of_nat day))
      (seq 1 (Z.to_nat (monthLength year month))).
Proof.
  pose proof (monthLength_range year month) as Hlen.
  destruct (newDate_components year month (monthLength year month) ltac:(lia))
    as (_ & _ & Hdl).
  unfold getDaysInMonth. cbv zeta. rewrite newDate_day0_next, Hdl. reflexivity.
Qed.

Lemma gridFrom_concat a :
  concat (gridFrom a) = map (fun i => a + Z.of_nat i * msPerDay) (seq 0 42).
Proof. reflexivity. Qed.

Lemma getDay_column a w j :
  getDay a = 0 -> 0 <= j < 7 -> getDay (a + (7 * w + j) * msPerDay) = j.
Proof.
  unfold getDay. intros Ha Hj. rewrite Day_add.
  unfold WeekDay in *. Z.div_mod_to_equations. lia.
Qed.

Lemma gridFrom_weekdays a :
  getDay a = 0 ->
  Forall (fun row => map getDay row = [0; 1; 2; 3; 4; 5; 6]) (gridFrom a).
Proof.
  intros Ha. unfold gridFrom. apply List.Forall_forall. intros row Hrow.
  apply in_map_iff in Hrow. destruct Hrow as (w & <- & _).
  cbn [map seq]. change (Z.of_nat 0) with 0. change (Z.of_nat 1) with 1.
  change (Z.of_nat 2) with 2. change (Z.of_nat 3) with 3.
  change (Z.of_nat 4) with 4. change (Z.of_nat 5) with 5.
  change (Z.of_nat 6) with 6.
  rewrite !getDay_column by (assumption || lia). reflexivity.
Qed.

Lemma getCalendarGrid_gridFrom year month :
  getCalendarGrid year month = gridFrom (gridAnchor year month).
Proof. apply getCalendarGrid_cells. Qed.

Lemma getDay_gridAnchor year month : getDay (gridAnchor year month) = 0.
Proof.
  unfold gridAnchor, getDay. cbv zeta.
  generalize (newDate year month 1). intros t.
  replace (t - WeekDay (Day t) * msPerDay)
    with (t + - WeekDay (Day t) * msPerDay) by lia.
  rewrite Day_add. apply WeekDay_sub.
Qed.

End GridFacts.

(** ** The calendar grid *)
Section GridTheorems.
Import JsDate DateUtils GridSpec.



(** February 2024: the grid starts on Sunday 28 January and its fifth row
    holds 29 February. *)
Example getCalendarGrid_february_2024 :
  let ymd c := (getFullYear c, getMonth c, getDate c) in
  map ymd (nth 0 (getCalendarGrid 2024 1) []) =
    [(2024, 0, 28); (2024, 0, 29); (2024, 0, 30); (2024, 0, 31);
     (2024, 1, 1); (2024, 1, 2); (2024, 1, 3)] /\
  map ymd (nth 4 (getCalendarGrid 2024 1) []) =
    [(2024, 1, 25); (2024, 1, 26); (2024, 1, 27); (2024, 1, 28);
     (2024, 1, 29); (2024, 2, 1); (2024, 2, 2)] /\
  map getDate (getDaysInMonth 2024 1) = map Z.of_nat (seq 1 29).
Proof. vm_compute. auto. Qed.

(** A month that starts on a Sunday is not moved back: the first cell of
    September 2024 is 1 September. *)
Example getCalendarGrid_september_2024 :
  getDay (newDate 2024 8 1) = 0 /\
  nth 0 (concat (getCalendarGrid 2024 8)) 0 = newDate 2024 8 1.
Proof. vm_compute. auto. Qed.

(** Two times on 15 March 2024 are the same day; 15 March 23:59 and 16 March
    00:00 are not. *)
Example isSameDay_examples :
  isSameDay (newDate 2024 2 15) (newDate 2024 2 15 + 86340000) = true /\
  isSameDay (newDate 2024 2 15 + 86340000) (newDate 2024 2 16) = false.
Proof. vm_compute. auto. Qed.

End GridTheorems.

(** ** Sorting *)
Section SortFacts.
Import JsNumber JsArray.
Context {A : Type} (compareFn : A -> A -> number).

Lemma insertSorted_Permutation x l :
  Permutation (insertSorted compareFn x l) (x :: l).
Proof.
  induction l as [|y l IH]; cbn; [reflexivity|].
  destruct (sortCompare compareFn x y <=? 0); [reflexivity|].
  rewrite IH. apply perm_swap.
Qed.

Lemma sort_Permutation l : Permutation (sort compareFn l) l.
Proof.
  induction l as [|x l IH]; cbn; [reflexivity|].
  rewrite insertSorted_Permutation. constructor. exact IH.
Qed.

Lemma sort_length l : length (sort compareFn l) = length l.
Proof. apply Permutation_length, sort_Permutation. Qed.

Lemma sort_In x l : In x (sort compareFn l) <-> In x l.
Proof.
  split; apply Permutation_in; [|symmetry]; apply sort_Permutation.
Qed.

(** The comparator orders the elements that satisfy [P] by the key [key]. *)
Context (P : A -> Prop) (key : A -> Z).
Hypothesis compare_key :
  forall x y, P x -> P y -> sortCompare compareFn x y = key x - key y.

Lemma insertSorted_StronglySorted x l :
  P x -> Forall P l ->
  StronglySorted (ascendingBy key) l -> StronglySorted (ascendingBy key) (insertSorted compareFn x l).
Proof.
  intros Hx Hl Hs. induction Hs as [|y l Hs IH Hy]; cbn.
  - repeat constructor.
  - apply Forall_cons_iff in Hl as [Py Pl].
    destruct (Z.leb_spec (sortCompare compareFn x y) 0) as [Hle | Hgt];
      rewrite compare_key in * by assumption.
    + constructor; [constructor; assumption|].
      constructor; [unfold ascendingBy; lia|].
      eapply List.Forall_impl; [|exact Hy]. unfold ascendingBy. intros z Hz. lia.
    + constructor; [apply IH; assumption|].
      eapply Permutation_Forall.
      * symmetry. apply insertSorted_Permutation.
      * constructor; [unfold ascendingBy; lia | exact Hy].
Qed.

Lemma sort_StronglySorted l :
  Forall P l -> StronglySorted (ascendingBy key) (sort compareFn l).
Proof.
  induction l as [|x l IH]; intros Hl; cbn; [constructor|].
  apply Forall_cons_iff in Hl as [Px Pl].
  apply insertSorted_StronglySorted; [assumption| |apply IH; assumption].
  eapply Permutation_Forall; [symmetry; apply sort_Permutation | assumption].
Qed.

(** Stability: elements with equal keys keep their relative order, so the
    elements of any one key appear as in the input. *)
Lemma insertSorted_same_key k x l :
  P x -> Forall P l -> StronglySorted (ascendingBy key) l ->
  List.filter (fun y => key y =? k) (insertSorted compareFn x l) =
  List.filter (fun y => key y =? k) (x :: l).
Proof.
  intros Hx Hl Hs. induction Hs as [|y l Hs IH Hy]; [reflexivity|].
  apply Forall_cons_iff in Hl as [Py Pl].
  cbn [insertSorted].
  destruct (Z.leb_spec (sortCompare compareFn x y) 0) as [Hle | Hgt];
    rewrite compare_key in * by assumption; [reflexivity|].
  cbn [List.filter] in *. rewrite IH by assumption.
  destruct (Z.eqb_spec (key x) k) as [Hxk | Hxk]; [|reflexivity].
  destruct (Z.eqb_spec (key y) k) as [Hyk | Hyk]; [lia|reflexivity].
Qed.

Lemma sort_stable k l :
  Forall P l ->
  List.filter (fun y => key y =? k) (sort compareFn l) =
  List.filter (fun y => key y =? k) l.
Proof.
  induction l as [|x l IH]; intros Hl; [reflexivity|].
  apply Forall_cons_iff in Hl as [Px Pl].
  cbn [sort fold_right]. fold (sort compareFn l).
  rewrite insertSorted_same_key.
  - cbn [List.filter]. rewrite IH by assumption. reflexivity.
  - assumption.
  - eapply Permutation_Forall; [symmetry; apply sort_Permutation | assumption].
  - apply sort_StronglySorted. assumption.
Qed.

(** A sorted array is left as it is. *)
Lemma sort_sorted_id l :
  Forall P l -> StronglySorted (ascendingBy key) l -> sort compareFn l = l.
Proof.
  intros Hl Hs. induction Hs as [|x l Hs IH Hx]; [reflexivity|].
  apply Forall_cons_iff in Hl as [Px Pl].
  cbn [sort fold_right]. fold (sort compareFn l). rewrite IH by assumption.
  destruct l as [|y l']; [reflexivity|]. cbn [insertSorted].
  apply Forall_cons_iff in Hx as [Hxy _].
  apply Forall_cons_iff in Pl as [Py _].
  rewrite compare_key by assumption.
  destruct (Z.leb_spec (key x - key y) 0); [reflexivity|].
  unfold ascendingBy in Hxy. lia.
Qed.

End SortFacts.

Section FilterFacts.
Context {A : Type}.

Lemma filter_StronglySorted (R : A -> A -> Prop) (p : A -> bool) l :
  StronglySorted R l -> StronglySorted R (List.filter p l).
Proof.
  induction 1 as [|x l Hs IH Hx]; cbn; [constructor|].
  destruct (p x); [|exact IH].
  constructor; [exact IH|].
  apply List.Forall_forall. intros y Hy. apply List.filter_In in Hy as [Hy _].
  eapply List.Forall_forall in Hx; eauto.
Qed.

Lemma filter_Permutation_compat (p : A -> bool) l l' :
  Permutation l l' -> Permutation (List.filter p l) (List.filter p l').
Proof.
  induction 1 as [|x l l' _ IH|x y l|l l' l'' _ IH1 _ IH2]; cbn.
  - constructor.
  - destruct (p x); [constructor|]; exact IH.
  - destruct (p x), (p y); try reflexivity. apply perm_swap.
  - etransitivity; eassumption.
Qed.

End FilterFacts.

(** ** Events on a date *)
Section EventFacts.
Import JsDate JsNumber JsArray EventSpec.

Lemma byStart_key (x y : Event.t) :
  True -> True -> sortCompare byStart x y = Event.startDate x - Event.startDate y.
Proof. reflexivity. Qed.

Lemma Forall_True {A} (l : list A) : Forall (fun _ => True) l.
Proof. induction l; constructor; auto. Qed.

Lemma sort_byStart_sorted l : StronglySorted startsBefore (sort byStart l).
Proof.
  apply (sort_StronglySorted byStart (fun _ => True) Event.startDate byStart_key).
  apply Forall_True.
Qed.

Lemma onDateb_spec date e : onDateb date e = true <-> onDate date e.
Proof.
  unfold onDateb, onDate. rewrite andb_true_iff, !Z.leb_le. reflexivity.
Qed.

(** The time of day does not take part in [startOfDay]. *)
Lemma startOfDay_same_day t1 t2 : Day t1 = Day t2 -> startOfDay t1 = startOfDay t2.
Proof.
  intros H. unfold startOfDay, getFullYear, getMonth, getDate. rewrite H. reflexivity.
Qed.

Lemma Day_TimeWithinDay t : t = Day t * msPerDay + TimeWithinDay t.
Proof.
  unfold Day, TimeWithinDay.
  pose proof (Z.div_mod t msPerDay ltac:(unfold msPerDay; lia)). lia.
Qed.

(** For a year the constructor takes as it is, [startOfDay] is the local
    midnight that starts the day. *)
Lemma startOfDay_midnight t :
  plainYear t -> startOfDay t = Day t * msPerDay.
Proof.
  unfold plainYear, startOfDay, newDate, getFullYear, getMonth, getDate.
  intros Hy.
  assert ((0 <=? YearFromDay (Day t)) && (YearFromDay (Day t) <=? 99) = false) as ->.
  { apply andb_false_iff. rewrite Z.leb_gt, Z.leb_gt. lia. }
  pose proof (MakeDay_components (Day t) 0) as H.
  rewrite !Z.add_0_r in H. rewrite H. unfold MakeDate. lia.
Qed.

(** Midnights are ordered as their days are. *)
Lemma midnight_le d1 d2 : d1 * msPerDay <= d2 * msPerDay <-> d1 <= d2.
Proof. unfold msPerDay. lia. Qed.

(** For such years the query compares calendar days: the event is found on
    every day from the day it starts to the day it ends. *)
Lemma onDate_days date e :
  plainYear date -> plainYear (Event.startDate e) -> plainYear (Event.endDate e) ->
  (onDate date e <->
   Day (Event.startDate e) <= Day date /\ Day date <= Day (Event.endDate e)).
Proof.
  intros Hd Hs He. unfold onDate.
  rewrite !startOfDay_midnight by assumption. rewrite !midnight_le. reflexivity.
Qed.

End EventFacts.

(** ** The event queries *)
Section EventTheorems.
Import JsDate JsNumber JsArray EventSpec.

Lemma filter_onDate_In date events e :
  In e (List.filter (onDateb date) events) <-> In e events /\ onDate date e.
Proof. rewrite List.filter_In, onDateb_spec. reflexivity. Qed.

Lemma Dashboard_getEventsForDate_eq events date :
  Dashboard.getEventsForDate events date =
  sort byStart (List.filter (onDateb date) events).
Proof.
  unfold Dashboard.getEventsForDate. apply (f_equal (sort byStart)).
  apply List.filter_ext.
  intros e. unfold onDateb, startOfDay. cbv zeta.
  rewrite Z.geb_leb. reflexivity.
Qed.

Lemma Calendar_getEventsForDate_eq events date :
  Calendar.getEventsForDate events date = List.filter (onDateb date) events.
Proof.
  unfold Calendar.getEventsForDate. apply List.filter_ext.
  intros e. unfold onDateb, startOfDay. cbv zeta.
  rewrite Z.geb_leb. reflexivity.
Qed.

Lemma EventStorage_getEventsForDate_eq stored date :
  EventStorage.getEventsForDate stored date =
  List.filter (onDateb date) (EventStorage.loadAllEvents stored).
Proof.
  unfold EventStorage.getEventsForDate. cbv zeta. apply List.filter_ext.
  intros e. unfold onDateb, startOfDay.
  rewrite Z.geb_leb. reflexivity.
Qed.

Lemma loadAllEvents_sorted stored :
  StronglySorted startsBefore (EventStorage.loadAllEvents stored).
Proof.
  destruct stored as [events|]; cbn; [apply sort_byStart_sorted | constructor].
Qed.

Lemma loadAllEvents_Permutation stored :
  Permutation (EventStorage.loadAllEvents stored) (default [] stored).
Proof.
  destruct stored as [events|]; cbn; [apply sort_Permutation | constructor].
Qed.

(** On the events [loadAllEvents] returns, the sort of the dashboard's query
    has nothing to move. *)
Lemma Dashboard_getEventsForDate_loaded stored date :
  Dashboard.getEventsForDate (EventStorage.loadAllEvents stored) date =
  EventStorage.getEventsForDate stored date.
Proof.
  rewrite Dashboard_getEventsForDate_eq, EventStorage_getEventsForDate_eq.
  apply (sort_sorted_id byStart (fun _ => True) Event.startDate byStart_key).
  - apply Forall_True.
  - apply filter_StronglySorted, loadAllEvents_sorted.
Qed.

(** The three queries apply one test, [onDate], in which the time of day of
    the three dates plays no part: the dashboard's query over any event list,
    and the storage's and the calendar's query over the events
    [loadAllEvents] returns, yield the events that pass it, each as often as
    it is in the list, ordered by [startDate] ascending. *)
Lemma getEventsForDate_spec (events : list Event.t)
    (stored : option (list Event.t)) (date : Date) :
  let dashboard := Dashboard.getEventsForDate events date in
  let storage := EventStorage.getEventsForDate stored date in
  let calendar := Calendar.getEventsForDate (Calendar.loadEvents stored) date in
  (forall e, In e dashboard <-> In e events /\ onDate date e) /\
  Permutation dashboard (List.filter (onDateb date) events) /\
  StronglySorted startsBefore dashboard /\
  (forall e, In e storage <-> In e (default [] stored) /\ onDate date e) /\
  Permutation storage (List.filter (onDateb date) (default [] stored)) /\
  StronglySorted startsBefore storage /\
  calendar = storage /\
  Dashboard.getEventsForDate (EventStorage.loadAllEvents stored) date = storage /\
  (forall t1 t2, Day t1 = Day t2 -> startOfDay t1 = startOfDay t2).
Proof.
  cbv zeta. unfold Calendar.loadEvents.
  rewrite Dashboard_getEventsForDate_loaded.
  rewrite Dashboard_getEventsForDate_eq, EventStorage_getEventsForDate_eq,
    Calendar_getEventsForDate_eq.
  split; [|split; [|split; [|split; [|split; [|split; [|split; [|split]]]]]]].
  - intros e. rewrite sort_In. apply filter_onDate_In.
  - apply sort_Permutation.
  - apply sort_byStart_sorted.
  - intros e. rewrite filter_onDate_In.
    split; intros [H1 H2]; (split; [|exact H2]).
    + eapply Permutation_in; [apply loadAllEvents_Permutation | exact H1].
    + eapply Permutation_in; [symmetry; apply loadAllEvents_Permutation | exact H1].
  - apply filter_Permutation_compat, loadAllEvents_Permutation.
  - apply filter_StronglySorted, loadAllEvents_sorted.
  - reflexivity.
  - reflexivity.
  - apply startOfDay_same_day.
Qed.

(** Between dates whose years the [Date] constructor takes as they are, the
    test of the queries is the calendar's. *)
Lemma onDate_spansDay date e :
  plainYear date -> plainYear (Event.startDate e) -> plainYear (Event.endDate e) ->
  (onDate date e <-> spansDay date e).
Proof.
  intros Hd Hs He. rewrite (onDate_days date e Hd Hs He).
  unfold spansDay, dayStart. rewrite !midnight_le. reflexivity.
Qed.

(** For a date and events of years outside 0..99 the query is the one the
    specification describes: exactly the events whose whole-day interval
    contains the day asked for, ordered by [startDate]. *)
Lemma getEventsForDate_plain_years (events : list Event.t) (date : Date) :
  plainYear date ->
  Forall (fun e => plainYear (Event.startDate e) /\ plainYear (Event.endDate e))
         events ->
  let result := Dashboard.getEventsForDate events date in
  (forall e, In e result <-> In e events /\ spansDay date e) /\
  Permutation result (List.filter (spansDayb date) events) /\
  StronglySorted startsBefore result /\
  (forall e, In e (EventStorage.getEventsForDate (Some events) date)
             <-> In e events /\ spansDay date e) /\
  StronglySorted startsBefore (EventStorage.getEventsForDate (Some events) date).
Proof.
  intros Hd Hall. cbv zeta.
  assert (Hon : forall e, In e events -> (onDate date e <-> spansDay date e)).
  { intros e Hin. destruct (proj1 (List.Forall_forall _ _) Hall e Hin) as [Hs He].
    apply (onDate_spansDay date e Hd Hs He). }
  assert (Hext : List.filter (onDateb date) events
                 = List.filter (spansDayb date) events).
  { clear Hon. induction Hall as [|e l [Hs He] _ IH]; [reflexivity|].
    cbn [List.filter]. rewrite IH.
    assert (Hb : onDateb date e = spansDayb date e).
    { apply eq_true_iff_eq. rewrite onDateb_spec, (onDate_spansDay date e Hd Hs He).
      unfold spansDay, spansDayb. rewrite andb_true_iff, !Z.leb_le. reflexivity. }
    rewrite Hb. reflexivity. }
  split; [|split; [|split; [|split]]].
  - intros e. rewrite Dashboard_getEventsForDate_eq, sort_In, filter_onDate_In.
    split; intros [Hin H]; (split; [exact Hin|]); apply (Hon e Hin); exact H.
  - rewrite Dashboard_getEventsForDate_eq, Hext. apply sort_Permutation.
  - rewrite Dashboard_getEventsForDate_eq. apply sort_byStart_sorted.
  - intros e. rewrite EventStorage_getEventsForDate_eq, filter_onDate_In.
    unfold EventStorage.loadAllEvents. rewrite sort_In.
    split; intros [Hin H]; (split; [exact Hin|]); apply (Hon e Hin); exact H.
  - rewrite EventStorage_getEventsForDate_eq.
    apply filter_StronglySorted, loadAllEvents_sorted.
Qed.

(** C1.  The queries take the day of a date with
    [new Date(d.getFullYear(), d.getMonth(), d.getDate())], which reads a
    year from 0 to 99 as 1900 + year, so for such years they do not compare
    calendar days.  An event from 1 June to 3 June of the year 50 is returned
    by all three queries for 2 June 1950, a day its interval does not
    contain; an event from 31 December 99 to 1 January 100 is returned for
    neither of its two days.  (For years outside 0..99 the queries are right:
    [getEventsForDate_plain_years].) *)
Theorem getEventsForDate_two_digit_years :
  let jubilee := sampleEvent "jubilee" (localTime 50 5 1 9 0) (localTime 50 5 3 17 0)
                             "high" in
  let date := at_ 1950 5 2 12 0 in
  let vigil := sampleEvent "vigil" (localTime 99 11 31 20 0) (localTime 100 0 1 2 0)
                           "high" in
  (getFullYear (Event.startDate jubilee), getMonth (Event.startDate jubilee),
   getDate (Event.startDate jubilee)) = (50, 5, 1) /\
  (getFullYear (Event.endDate jubilee), getMonth (Event.endDate jubilee),
   getDate (Event.endDate jubilee)) = (50, 5, 3) /\
  (getFullYear date, getMonth date, getDate date) = (1950, 5, 2) /\
  ~ spansDay date jubilee /\
  Dashboard.getEventsForDate [jubilee] date = [jubilee] /\
  EventStorage.getEventsForDate (Some [jubilee]) date = [jubilee] /\
  Calendar.getEventsForDate (Calendar.loadEvents (Some [jubilee])) date = [jubilee] /\
  spansDay (localTime 99 11 31 12 0) vigil /\
  spansDay (localTime 100 0 1 12 0) vigil /\
  Dashboard.getEventsForDate [vigil] (localTime 99 11 31 12 0) = [] /\
  Dashboard.getEventsForDate [vigil] (localTime 100 0 1 12 0) = [] /\
  EventStorage.getEventsForDate (Some [vigil]) (localTime 99 11 31 12 0) = [] /\
  Calendar.getEventsForDate (Calendar.loadEvents (Some [vigil]))
                            (localTime 100 0 1 12 0) = [].
Proof.
  cbv zeta.
  split; [vm_compute; reflexivity|]. split; [vm_compute; reflexivity|].
  split; [vm_compute; reflexivity|].
  split; [intros [_ H]; vm_compute in H; apply H; reflexivity|].
  split; [vm_compute; reflexivity|]. split; [vm_compute; reflexivity|].
  split; [vm_compute; reflexivity|].
  split; [split; vm_compute; discriminate|].
  split; [split; vm_compute; discriminate|].
  split; [vm_compute; reflexivity|]. split; [vm_compute; reflexivity|].
  split; vm_compute; reflexivity.
Qed.

(** The scenario of the specification: an event from 1 June to 3 June 2024 is
    found on each of the three days, whatever the time of day asked for, and
    neither on 31 May nor on 4 June. *)
Example getEventsForDate_multi_day :
  let e := sampleEvent "conference" (at_ 2024 5 1 9 0) (at_ 2024 5 3 17 0) "high" in
  Dashboard.getEventsForDate [e] (at_ 2024 5 1 0 0) = [e] /\
  Dashboard.getEventsForDate [e] (at_ 2024 5 2 12 30) = [e] /\
  Dashboard.getEventsForDate [e] (at_ 2024 5 3 23 59) = [e] /\
  Dashboard.getEventsForDate [e] (at_ 2024 4 31 23 59) = [] /\
  Dashboard.getEventsForDate [e] (at_ 2024 5 4 0 0) = [].
Proof. vm_compute. auto 10. Qed.


(** The scenario of the specification, on 15 March 2024 at 10:00: [A] today
    09:00 to 10:00, [B] tomorrow, [C] from yesterday to tomorrow, [D] urgent
    and starting in two hours. *)
Example updateStats_scenario :
  let now := at_ 2024 2 15 10 0 in
  let A := sampleEvent "A" (at_ 2024 2 15 9 0) (at_ 2024 2 15 10 0) "medium" in
  let B := sampleEvent "B" (at_ 2024 2 16 9 0) (at_ 2024 2 16 10 0) "low" in
  let C := sampleEvent "C" (at_ 2024 2 14 9 0) (at_ 2024 2 16 18 0) "high" in
  Dashboard.updateStats [A; B; C] now =
    {| Dashboard.totalEvents := 3; Dashboard.todayEvents := 2;
       Dashboard.upcomingEvents := 2; Dashboard.urgentEvents := 0 |} /\
  Dashboard.getEventsForDate [A; B; C] now = [C; A] /\
  let D := sampleEvent "D" (at_ 2024 2 15 12 0) (at_ 2024 2 15 13 0) "urgent" in
  Dashboard.updateStats [A; B; C; D] now =
    {| Dashboard.totalEvents := 4; Dashboard.todayEvents := 3;
       Dashboard.upcomingEvents := 3; Dashboard.urgentEvents := 1 |}.
Proof. vm_compute. auto 10. Qed.

End EventTheorems.

(** ** The lists offered to the forms *)
Section ConfigListFacts.
Import JsNumber JsArray ConfigService ConfigSpec.

Lemma StronglySorted_weaken {A} (R S : A -> A -> Prop) l :
  (forall x y, R x y -> S x y) -> StronglySorted R l -> StronglySorted S l.
Proof.
  intros HRS. induction 1 as [|x l Hs IH Hx]; constructor; [assumption|].
  eapply List.Forall_impl; [|exact Hx]. intros y. apply HRS.
Qed.

Lemma byLevelDescending_key (x y : PriorityOption.t) :
  PriorityOption.level x <> NaN -> PriorityOption.level y <> NaN ->
  sortCompare byLevelDescending x y = (- levelOf x) - (- levelOf y).
Proof.
  unfold sortCompare, byLevelDescending, levelOf.
  destruct (PriorityOption.level x), (PriorityOption.level y);
    intros Hx Hy; try contradiction; cbn; lia.
Qed.

(** The returned array always starts with the three defaults and goes on with
    the custom priorities in some order. *)
Lemma getAllPriorities_shape cfg :
  fst (getAllPriorities cfg) =
  map Literal defaultPriorities
  ++ map Stored (sort byLevelDescending
                      (default [] (VenueConfig.customPriorities cfg))).
Proof.
  unfold getAllPriorities. destruct (VenueConfig.customPriorities cfg); reflexivity.
Qed.

(** The stored array is the one that was sorted. *)
Lemma getAllPriorities_stored cfg :
  VenueConfig.customPriorities (snd (getAllPriorities cfg)) =
  option_map (sort byLevelDescending) (VenueConfig.customPriorities cfg).
Proof.
  unfold getAllPriorities.
  destruct (VenueConfig.customPriorities cfg) eqn:E; cbn; [reflexivity|exact E].
Qed.

Lemma getAllCategories_choices cfg :
  map categoryChoice (getAllCategories cfg) =
  defaultCategories
  ++ map (fun c => {| id := CategoryOption.id c; name := CategoryOption.name c;
                      color := CategoryOption.color c |})
         (default [] (VenueConfig.customCategories cfg)).
Proof.
  unfold getAllCategories. rewrite map_app, !map_map. cbn [categoryChoice].
  f_equal; try apply map_id.
Qed.

(** The four defaults are always there, whatever the custom categories are. *)
Lemma getAllCategories_defaults cfg :
  firstn 4 (map categoryChoice (getAllCategories cfg)) = defaultCategories.
Proof. rewrite getAllCategories_choices. reflexivity. Qed.

(** The service over [localStorage] returns the list the specification
    describes. *)
Lemma LocalConfigService_getAllCategories cfg :
  LocalConfigService.getAllCategories cfg = effectiveCategories cfg.
Proof. reflexivity. Qed.

(** When every custom category is active the two services agree. *)
Lemma getAllCategories_all_active cfg :
  Forall (fun c => CategoryOption.isActive c = true)
         (default [] (VenueConfig.customCategories cfg)) ->
  map categoryChoice (getAllCategories cfg) = effectiveCategories cfg.
Proof.
  intros H. rewrite getAllCategories_choices. unfold effectiveCategories.
  f_equal. f_equal. induction H as [|c l Hc _ IH]; cbn; [reflexivity|].
  rewrite Hc. f_equal. exact IH.
Qed.

End ConfigListFacts.

Section ConfigListTheorems.
Import JsNumber JsArray ConfigService ConfigSpec.

(** C4.  With a custom category that was switched off, [getAllCategories]
    still returns it after the four defaults: the list has five entries where
    the specification, [getActiveLocations] and the service over
    [localStorage] keep only the active ones. *)
Theorem getAllCategories_keeps_inactive :
  let cfg := sampleConfig (Some [sampleCategory "training" true;
                                 sampleCategory "retired" false]) None in
  map (fun c => id c) (map categoryChoice (getAllCategories cfg)) =
    ["meeting"; "personal"; "work"; "other"; "training"; "retired"]%string /\
  map (fun c => id c) (effectiveCategories cfg) =
    ["meeting"; "personal"; "work"; "other"; "training"]%string /\
  map categoryChoice (getAllCategories cfg) <> effectiveCategories cfg /\
  LocalConfigService.getAllCategories cfg = effectiveCategories cfg.
Proof.
  cbv zeta. split; [reflexivity|]. split; [reflexivity|]. split; [|reflexivity].
  intros H. apply (f_equal (@length _)) in H. discriminate H.
Qed.

(** When the custom levels are numbers, the priority list is the three
    defaults [high], [medium], [low] in that order, followed by the custom
    priorities, all of them, sorted by level from the highest to the lowest
    (priorities of equal level in stored order); the defaults are not part
    of the sort. *)
Lemma getAllPriorities_order (cfg : VenueConfig.t) :
  let custom := default [] (VenueConfig.customPriorities cfg) in
  numericLevels custom ->
  exists sorted,
    fst (getAllPriorities cfg) = map Literal defaultPriorities ++ map Stored sorted /\
    map (fun c => id c) defaultPriorities = ["high"; "medium"; "low"]%string /\
    Permutation sorted custom /\
    StronglySorted levelDescending sorted /\
    (forall k, List.filter (fun p => levelOf p =? k) sorted =
               List.filter (fun p => levelOf p =? k) custom).
Proof.
  cbv zeta. intros Hnum.
  exists (sort byLevelDescending (default [] (VenueConfig.customPriorities cfg))).
  split; [apply getAllPriorities_shape|]. split; [reflexivity|].
  split; [apply sort_Permutation|]. split.
  - eapply StronglySorted_weaken;
      [| apply (sort_StronglySorted byLevelDescending _ (fun p => - levelOf p)
                  byLevelDescending_key); exact Hnum].
    unfold ascendingBy, levelDescending. intros x y. lia.
  - intros k.
    pose proof (sort_stable byLevelDescending _ (fun p => - levelOf p)
                  byLevelDescending_key (- k) _ Hnum) as Hst.
    assert (Heq : forall l : list PriorityOption.t,
               List.filter (fun p => levelOf p =? k) l =
               List.filter (fun p => - levelOf p =? - k) l).
    { intros l. apply List.filter_ext. intros p.
      destruct (Z.eqb_spec (levelOf p) k), (Z.eqb_spec (- levelOf p) (- k));
        (reflexivity || lia). }
    rewrite !Heq. exact Hst.
Qed.

(** Custom levels 3, 9, 5 come out as 9, 5, 3 after the defaults. *)
Lemma getAllPriorities_order_witness :
  let cfg := sampleConfig None (Some [samplePriority "c" 3; samplePriority "a" 9;
                                      samplePriority "b" 5]) in
  numericLevels (default [] (VenueConfig.customPriorities cfg)) /\
  exists sorted,
    fst (getAllPriorities cfg) = map Literal defaultPriorities ++ map Stored sorted /\
    map (fun c => id c) defaultPriorities = ["high"; "medium"; "low"]%string /\
    Permutation sorted (default [] (VenueConfig.customPriorities cfg)) /\
    StronglySorted levelDescending sorted /\
    (forall k, List.filter (fun p => levelOf p =? k) sorted =
               List.filter (fun p => levelOf p =? k)
                           (default [] (VenueConfig.customPriorities cfg))).
Proof.
  cbv zeta.
  assert (H : numericLevels
                (default [] (VenueConfig.customPriorities
                   (sampleConfig None (Some [samplePriority "c" 3;
                                             samplePriority "a" 9;
                                             samplePriority "b" 5]))))).
  { cbn. repeat constructor; discriminate. }
  split; [exact H|].
  exact (getAllPriorities_order _ H).
Defined.

Example getAllPriorities_3_9_5 :
  let cfg := sampleConfig None (Some [samplePriority "c" 3; samplePriority "a" 9;
                                      samplePriority "b" 5]) in
  fst (getAllPriorities cfg) =
    map Literal defaultPriorities
    ++ map Stored [samplePriority "a" 9; samplePriority "b" 5; samplePriority "c" 3]
  /\ VenueConfig.customPriorities (snd (getAllPriorities cfg)) =
     Some [samplePriority "a" 9; samplePriority "b" 5; samplePriority "c" 3].
Proof. split; reflexivity. Qed.

End ConfigListTheorems.

(** ** Adding a priority *)
Section AddPriorityTheorems.
Import JsNumber ConfigPage.

(** C10.  A priority added with a name and a level input that [parseInt]
    reads as the number [n] is appended to the custom priorities with level
    [max(1, min(10, n))], which lies between 1 and 10. *)
Theorem addPriority_level_clamped (name levelInput : option string) (now : Z)
    (config : VenueConfig.t) (n : Z) :
  truthy name = true ->
  parseInt (orElse levelInput "5") = Num n ->
  exists p,
    VenueConfig.customPriorities (addPriority name levelInput now config) =
      Some (default [] (VenueConfig.customPriorities config) ++ [p]) /\
    PriorityOption.level p = Num (Z.max 1 (Z.min 10 n)) /\
    1 <= Z.max 1 (Z.min 10 n) <= 10.
Proof.
  intros Hname Hlevel. unfold addPriority.
  destruct name as [[|c s]|]; try discriminate Hname.
  rewrite Hlevel. eexists. split; [reflexivity|]. split; [reflexivity|]. lia.
Qed.

Lemma addPriority_level_clamped_witness :
  truthy (Some "Rush"%string) = true /\
  parseInt (orElse (Some "15"%string) "5") = Num 15 /\
  exists p,
    VenueConfig.customPriorities
      (addPriority (Some "Rush"%string) (Some "15"%string) 1700000000000
                   (ConfigSpec.sampleConfig None None)) =
      Some (default [] (VenueConfig.customPriorities
                          (ConfigSpec.sampleConfig None None)) ++ [p]) /\
    PriorityOption.level p = Num (Z.max 1 (Z.min 10 15)) /\
    1 <= Z.max 1 (Z.min 10 15) <= 10.
Proof.
  split; [reflexivity|]. split; [reflexivity|].
  apply (addPriority_level_clamped (Some "Rush"%string) (Some "15"%string)
           1700000000000 (ConfigSpec.sampleConfig None None) 15);
    reflexivity.
Defined.

Example parseInt_inputs :
  parseInt "7" = Num 7 /\ parseInt "15" = Num 15 /\ parseInt "0" = Num 0 /\
  parseInt "-3" = Num (-3) /\ parseInt "  8 or so" = Num 8 /\
  parseInt "0x1F" = Num 31 /\ parseInt "3.7" = Num 3 /\
  parseInt "high" = NaN /\ parseInt EmptyString = NaN /\
  orElse None "5" = "5"%string /\ orElse (Some EmptyString) "5" = "5"%string.
Proof. repeat split. Qed.

Example addPriority_stored :
  let added input :=
    option_map (map PriorityOption.level)
      (VenueConfig.customPriorities
         (addPriority (Some "Rush"%string) input 1700000000000
                      (ConfigSpec.sampleConfig None None))) in
  added (Some "15"%string) = Some [Num 10] /\
  added (Some "-3"%string) = Some [Num 1] /\
  added (Some "7"%string) = Some [Num 7] /\
  added None = Some [Num 5] /\
  added (Some "high"%string) = Some [NaN] /\
  option_map (map PriorityOption.id)
    (VenueConfig.customPriorities
       (addPriority (Some "Rush"%string) None 1700000000000
                    (ConfigSpec.sampleConfig None None)))
  = Some ["priority-1700000000000"%string].
Proof. vm_compute. repeat split. Qed.

End AddPriorityTheorems.

(** ** A level that is not a number *)
Section PriorityLevelTheorems.
Import JsNumber ConfigService ConfigPage ConfigSpec.

(** C5.  The custom priorities are not always sorted by level.  [addPriority]
    stores [NaN] as the level when the answer to its level prompt is not a
    number ([Math.max(1, Math.min(10, NaN))]), and the comparator
    [b.level - a.level] of [getAllPriorities] is [NaN] against such a
    priority, which [sort] reads as equal.  After a priority of level 3,
    [addPriority] answered with [high] and [addPriority] answered with [9],
    the list is high, medium, low and then the levels 3, [NaN], 9 as stored:
    level 9 comes after level 3.  [getAllPriorities] of the service over
    [localStorage], whose comparator reads such a level as 5, returns 9
    first and 3 last. *)
Theorem getAllPriorities_NaN_level :
  let start := sampleConfig None (Some [samplePriority "c" 3]) in
  let cfg :=
    addPriority (Some "Top"%string) (Some "9"%string) 1700000000002
      (addPriority (Some "Rush"%string) (Some "high"%string) 1700000000001 start) in
  option_map (map (fun p => (PriorityOption.name p, PriorityOption.level p)))
             (VenueConfig.customPriorities cfg)
  = Some [("c", Num 3); ("Rush", NaN); ("Top", Num 9)]%string /\
  map (fun e => match e with
                | Literal c => (name c, None)
                | Stored p => (PriorityOption.name p, Some (PriorityOption.level p))
                end)
      (fst (getAllPriorities cfg))
  = [("High", None); ("Medium", None); ("Low", None);
     ("c", Some (Num 3)); ("Rush", Some NaN); ("Top", Some (Num 9))]%string /\
  map (fun c => name c) (LocalConfigStore.getAllPriorities cfg)
  = ["High"; "Medium"; "Low"; "Top"; "Rush"; "c"]%string.
Proof. cbv zeta. repeat split; vm_compute; reflexivity. Qed.

End PriorityLevelTheorems.

(** ** Objects, spread and JSON *)
Section ValueFacts.
Import JsNumber JsValue.

Lemma spread_lookup (a : gmap string value) (b : value) (k : string) :
  spread a b !! k =
  match ownProps b !! k with
  | Some v => Some v
  | None => a !! k
  end.
Proof.
  unfold spread. rewrite lookup_union.
  destruct (ownProps b !! k), (a !! k); reflexivity.
Qed.

Lemma spread_override (a : gmap string value) (b : value) k v :
  ownProps b !! k = Some v -> spread a b !! k = Some v.
Proof. intros H. rewrite spread_lookup, H. reflexivity. Qed.

Lemma spread_keep (a : gmap string value) (b : value) k :
  ownProps b !! k = None -> spread a b !! k = a !! k.
Proof. intros H. rewrite spread_lookup, H. reflexivity. Qed.

Lemma spread_twice (a : gmap string value) (b : value) :
  spread (spread a b) b = spread a b.
Proof.
  apply map_eq. intros k. rewrite !spread_lookup.
  destruct (ownProps b !! k); reflexivity.
Qed.

Lemma spread_copy (c : gmap string value) : spread ∅ (VObject c) = c.
Proof.
  apply map_eq. intros k. rewrite spread_lookup. cbn.
  destruct (c !! k); [reflexivity | apply lookup_empty].
Qed.

Lemma jsonImage_props (props : gmap string value) :
  (forall k v, props !! k = Some v -> jsonClean v) ->
  jsonImage (VObject props) = VObject props.
Proof.
  intros H. cbn [jsonImage]. f_equal. apply map_eq. intros k.
  rewrite lookup_omap. destruct (props !! k) as [v|] eqn:E; [|reflexivity].
  destruct (H k v E) as [Hu Hv]. cbn.
  destruct v; try contradiction; rewrite ?Hv; try reflexivity.
Qed.

Lemma jsonClean_object fields :
  Forall (fun kv => jsonClean (snd kv)) fields -> jsonClean (object fields).
Proof.
  intros H. split; [discriminate|]. apply jsonImage_props. intros k v Hk.
  apply elem_of_list_to_map_2 in Hk. apply list_elem_of_In in Hk.
  eapply List.Forall_forall in H; [|exact Hk]. exact H.
Qed.

Lemma jsonClean_array items :
  Forall jsonClean items -> jsonClean (VArray items).
Proof.
  intros H. split; [discriminate|]. cbn [jsonImage]. f_equal.
  induction H as [|v items [Hu Hv] _ IH]; [reflexivity|].
  cbn [map]. rewrite IH. f_equal.
  destruct v; try contradiction; rewrite ?Hv; reflexivity.
Qed.

Lemma jsonClean_string s : jsonClean (VString s).
Proof. split; [discriminate | reflexivity]. Qed.

Lemma jsonClean_bool b : jsonClean (VBool b).
Proof. split; [discriminate | reflexivity]. Qed.

Lemma jsonClean_number n : n <> NaN -> jsonClean (VNumber n).
Proof. intros H. split; [discriminate|]. destruct n; [contradiction | reflexivity]. Qed.

Lemma jsonClean_map {A} (f : A -> value) (l : list A) :
  Forall (fun x => jsonClean (f x)) l -> jsonClean (VArray (map f l)).
Proof.
  intros H. apply jsonClean_array. induction H; constructor; assumption.
Qed.

(** Whatever the configuration holds, the document JSON makes of it merges
    back into it without a change. *)
Lemma spread_jsonImage_self (cfg : gmap string value) :
  (forall k v, cfg !! k = Some v -> v = VUndefined \/ jsonImage v = v) ->
  spread cfg (jsonImage (VObject cfg)) = cfg.
Proof.
  intros H. apply map_eq. intros k. rewrite spread_lookup. cbn.
  rewrite lookup_omap. destruct (cfg !! k) as [v|] eqn:E; [|reflexivity].
  cbn. destruct (H k v E) as [-> | Hv]; [reflexivity|].
  destruct v; rewrite ?Hv; reflexivity.
Qed.

(** Reading a property from the value without its [undefined] properties
    gives what reading it from the value gives, without its own. *)
Lemma withoutUndefined_getProp (props : gmap string value) (k : string) :
  getProp (ownProps (withoutUndefined (VObject props))) k
  = withoutUndefined (getProp props k).
Proof.
  unfold getProp. cbn [withoutUndefined ownProps]. rewrite lookup_omap.
  destruct (props !! k) as [v|]; [|reflexivity]. cbn.
  destruct v; reflexivity.
Qed.

(** The properties of a representable object that do not hold [undefined]
    are written and read back without their [undefined] properties. *)
Lemma jsonImage_lookup (cfg : gmap string value) k :
  jsonRepresentable (VObject cfg) ->
  ownProps (jsonImage (VObject cfg)) !! k
  = match cfg !! k with
    | Some VUndefined | None => None
    | Some v => Some (withoutUndefined v)
    end.
Proof.
  intros [_ H]. cbn [jsonImage withoutUndefined] in H. injection H as H.
  apply (f_equal (fun m => m !! k)) in H. rewrite !lookup_omap in H.
  cbn [jsonImage ownProps]. rewrite lookup_omap.
  destruct (cfg !! k) as [v|]; [|reflexivity].
  cbn in H |- *. destruct v; cbn in H |- *; try reflexivity; exact H.
Qed.

End ValueFacts.

(** ** The typed configuration as an object *)
Section EncodeFacts.
Import JsNumber JsValue Encode.

Lemma Forall_optional {A} (f : A -> value) key (x : option A) :
  (forall a, x = Some a -> jsonClean (f a)) ->
  Forall (fun kv => jsonClean (snd kv)) (optional f key x).
Proof.
  intros H. destruct x as [a|]; cbn; [|constructor].
  constructor; [apply H; reflexivity | constructor].
Qed.

Lemma jsonClean_strings l : jsonClean (strings l).
Proof.
  apply jsonClean_map. apply List.Forall_forall. intros; apply jsonClean_string.
Qed.

Lemma jsonClean_location l :
  LocationOption.capacity l <> Some NaN -> jsonClean (location l).
Proof.
  intros Hc. apply jsonClean_object.
  repeat first [apply Forall_app; split | apply List.Forall_cons
               | apply List.Forall_nil | apply Forall_optional; intros
               | apply jsonClean_string | apply jsonClean_bool
               | apply jsonClean_strings ].
  apply jsonClean_number. congruence.
Qed.

Lemma jsonClean_category c : jsonClean (category c).
Proof.
  apply jsonClean_object.
  repeat first [apply Forall_app; split | apply List.Forall_cons
               | apply List.Forall_nil | apply Forall_optional; intros
               | apply jsonClean_string | apply jsonClean_bool ].
Qed.

Lemma jsonClean_priority p :
  PriorityOption.level p <> NaN -> jsonClean (priority p).
Proof.
  intros Hl. apply jsonClean_object.
  repeat first [apply List.Forall_cons | apply List.Forall_nil
               | apply jsonClean_string | apply jsonClean_bool
               | apply jsonClean_number; assumption ].
Qed.

Lemma jsonClean_features f : jsonClean (features f).
Proof.
  apply jsonClean_object.
  repeat first [apply List.Forall_cons | apply List.Forall_nil | apply jsonClean_bool ].
Qed.

(** A typed configuration without [NaN] is an object that JSON represents as
    it is. *)
Lemma jsonClean_config c : numeric c -> jsonClean (VObject (config c)).
Proof.
  intros (Hd & Hloc & Hprio). apply (jsonClean_object (configFields c)).
  unfold configFields.
  repeat first [apply Forall_app; split | apply List.Forall_cons
               | apply List.Forall_nil | apply Forall_optional; intros
               | apply jsonClean_string | apply jsonClean_features
               | apply jsonClean_number; assumption ];
    cbn [snd].
  - apply jsonClean_map. eapply List.Forall_impl; [|exact Hloc].
    intros l. apply jsonClean_location.
  - apply jsonClean_map. apply List.Forall_forall. intros; apply jsonClean_category.
  - apply jsonClean_map. eapply List.Forall_impl; [|].
    + intros p. apply jsonClean_priority.
    + match goal with H : VenueConfig.customPriorities c = Some _ |- _ =>
        rewrite H in Hprio end. exact Hprio.
  - destruct (VenueConfig.timeFormat c); apply jsonClean_string.
  - destruct (VenueConfig.dateFormat c); apply jsonClean_string.
  - destruct (VenueConfig.firstDayOfWeek c); apply jsonClean_number; discriminate.
Qed.

End EncodeFacts.

(** ** Updating, exporting and importing the configuration *)
Section ServiceFacts.
Import JsNumber JsValue ConfigService ConfigSpec.
Context (JSON_parse : string -> option value)
        (JSON_stringify : value -> string)
        (backend : Backend).

Lemma currentConfig_loaded cur :
  currentConfig backend (Some cur) = (Returned cur, Some cur).
Proof. reflexivity. Qed.

Lemma getConfig_loaded cur :
  getConfig backend (Some cur) = (Returned cur, Some cur).
Proof.
  unfold getConfig, bind. rewrite currentConfig_loaded. unfold ret.
  rewrite spread_copy. reflexivity.
Qed.

Lemma exportConfig_loaded cur :
  exportConfig JSON_stringify backend (Some cur) =
  (Returned (JSON_stringify (VObject cur)), Some cur).
Proof. unfold exportConfig, bind. rewrite getConfig_loaded. reflexivity. Qed.

(** On a loaded service [updateConfig] stores the merge when the backend
    accepts it and the merge has its feature flags, and otherwise throws
    without touching the configuration. *)
Lemma updateConfig_loaded updates cur :
  updateConfig backend updates (Some cur) =
  if accepts backend && hasFeatures (spread cur updates)
  then (Returned tt, Some (spread cur updates))
  else (Thrown, Some cur).
Proof.
  unfold updateConfig, bind, getVenueId, readFeatures, accepts, hasFeatures.
  rewrite currentConfig_loaded.
  destruct (venueIdAnswered backend); cbn; [|reflexivity].
  destruct (getProp (spread cur updates) "features"), (putOk backend); reflexivity.
Qed.

Lemma importConfig_loaded text cur :
  importConfig JSON_parse backend text (Some cur) =
  match JSON_parse text with
  | None => (Returned false, Some cur)
  | Some doc =>
      if accepts backend && hasFeatures (spread cur doc)
      then (Returned true, Some (spread cur doc))
      else (Returned false, Some cur)
  end.
Proof.
  unfold importConfig. destruct (JSON_parse text) as [doc|]; [|reflexivity].
  rewrite updateConfig_loaded.
  destruct (accepts backend && hasFeatures (spread cur doc)); reflexivity.
Qed.

Lemma spread_self (cfg : gmap string value) : spread cfg (VObject cfg) = cfg.
Proof.
  apply map_eq. intros k. rewrite spread_lookup. cbn.
  destruct (cfg !! k); reflexivity.
Qed.

(** Importing what was exported from [cfg], into a service holding [cur]. *)
Lemma importConfig_exported cfg cur :
  jsonClean (VObject cfg) ->
  JSON_parse (JSON_stringify (VObject cfg)) = Some (jsonImage (VObject cfg)) ->
  importConfig JSON_parse backend (JSON_stringify (VObject cfg)) (Some cur) =
  if accepts backend && hasFeatures (spread cur (VObject cfg))
  then (Returned true, Some (spread cur (VObject cfg)))
  else (Returned false, Some cur).
Proof.
  intros [_ Hclean] Hjson. rewrite importConfig_loaded, Hjson, Hclean. reflexivity.
Qed.

Lemma importConfig_exported_same cfg :
  jsonClean (VObject cfg) ->
  JSON_parse (JSON_stringify (VObject cfg)) = Some (jsonImage (VObject cfg)) ->
  snd (importConfig JSON_parse backend (JSON_stringify (VObject cfg)) (Some cfg))
  = Some cfg.
Proof.
  intros Hclean Hjson. rewrite importConfig_exported by assumption.
  rewrite spread_self. destruct (accepts backend && hasFeatures cfg); reflexivity.
Qed.

End ServiceFacts.

Section ServiceTheorems.
Import JsNumber JsValue ConfigService ConfigSpec.

(** C7.  The shallow merge [{ ...a, ...b }] is idempotent: merging the same
    override a second time changes nothing, for every configuration object
    [a] and every override [b]; and so a second [updateConfig] with the same
    updates leaves the service as the first one left it. *)
Theorem config_merge_idempotent (a : gmap string value) (b : value) :
  spread (spread a b) b = spread a b /\
  forall backend,
    let once := snd (updateConfig backend b (Some a)) in
    snd (updateConfig backend b once) = once.
Proof.
  split; [apply spread_twice|]. intros backend. cbv zeta.
  rewrite updateConfig_loaded.
  destruct (accepts backend && hasFeatures (spread a b)) eqn:E; cbn [snd];
    rewrite updateConfig_loaded.
  - rewrite spread_twice, E. reflexivity.
  - rewrite E. reflexivity.
Qed.

(** The merge is shallow: a partial [features] object replaces the stored one
    as a whole. *)
Example merge_is_shallow :
  let current := Encode.config Defaults.DEFAULT_CONFIG in
  let updates := object [("features", object [("allowRecurring", VBool true)])]%string in
  spread current updates !! "features"%string =
    Some (object [("allowRecurring", VBool true)]%string) /\
  spread current updates !! "companyName"%string = Some (VString "Event Planner").
Proof. split; reflexivity. Qed.

(** C8.  Export followed by import is a round trip.  Let [cfg] be a valid
    configuration: it has its [features], and JSON represents it (no [NaN],
    no [undefined] array element; a property may hold [undefined], as
    [capacity] does for a location without one), in a runtime whose
    [JSON.parse] reads back what [JSON.stringify] wrote.  The service that
    holds [cfg] exports a text and leaves [cfg] in place.  Importing that
    text, into the same service or into one that holds any other
    configuration, succeeds whenever the backend accepts the update, and then
    every field of [cfg] that does not hold [undefined] is a field of the
    new configuration with the value it has in [cfg], up to the properties
    inside it that hold [undefined], which are left out (reading them gives
    [undefined] either way); in the same service the new configuration is
    [cfg] itself up to those properties.  If the backend refuses, the import
    returns [false] and the configuration stays as it was. *)
Theorem export_import_round_trip
    (JSON_parse : string -> option value) (JSON_stringify : value -> string)
    (backend : Backend) (cfg : gmap string value) :
  jsonRepresentable (VObject cfg) ->
  hasFeatures cfg = true ->
  JSON_parse (JSON_stringify (VObject cfg)) = Some (jsonImage (VObject cfg)) ->
  exists text,
    exportConfig JSON_stringify backend (Some cfg) = (Returned text, Some cfg) /\
    importConfig JSON_parse backend text (Some cfg)
    = (if accepts backend
       then (Returned true, Some (withoutUndefined <$> cfg))
       else (Returned false, Some cfg)) /\
    forall cur,
      exists new,
        importConfig JSON_parse backend text (Some cur)
        = (if accepts backend
           then (Returned true, Some new)
           else (Returned false, Some cur)) /\
        (forall k v, cfg !! k = Some v -> v <> VUndefined ->
                     new !! k = Some (withoutUndefined v)) /\
        (forall k, cfg !! k = None \/ cfg !! k = Some VUndefined ->
                   new !! k = cur !! k).
Proof.
  intros Hrep Hfeat Hjson. exists (JSON_stringify (VObject cfg)).
  split; [apply exportConfig_loaded|].
  assert (Hnew : forall cur k,
             spread cur (jsonImage (VObject cfg)) !! k
             = match cfg !! k with
               | Some VUndefined | None => cur !! k
               | Some v => Some (withoutUndefined v)
               end).
  { intros cur k. rewrite spread_lookup, (jsonImage_lookup cfg k Hrep).
    destruct (cfg !! k) as [v|]; [|reflexivity]. destruct v; reflexivity. }
  assert (Hhas : forall cur, hasFeatures (spread cur (jsonImage (VObject cfg))) = true).
  { intros cur. unfold hasFeatures, getProp in *. rewrite Hnew.
    destruct (cfg !! "features"%string) as [v|]; [|discriminate Hfeat].
    destruct v; try discriminate Hfeat; reflexivity. }
  split.
  - rewrite importConfig_loaded, Hjson, Hhas, andb_true_r.
    destruct (accepts backend); [|reflexivity].
    do 2 f_equal. apply map_eq. intros k. rewrite Hnew, lookup_fmap.
    destruct (cfg !! k) as [v|]; [|reflexivity]. destruct v; reflexivity.
  - intros cur. exists (spread cur (jsonImage (VObject cfg))).
    split; [|split].
    + rewrite importConfig_loaded, Hjson, Hhas, andb_true_r. reflexivity.
    + intros k v Hk Hv. rewrite Hnew, Hk. destruct v; congruence.
    + intros k [Hk | Hk]; rewrite Hnew, Hk; reflexivity.
Qed.

(** The round trip of a configuration as [ensureLoaded] stores it, with a
    location whose [capacity] holds [undefined], into a service that holds
    [DEFAULT_CONFIG]. *)
Lemma export_import_round_trip_witness :
  let JSON_stringify := fun _ : value => "exported"%string in
  let JSON_parse := parseOnly "exported" (jsonImage (VObject loadedConfig)) in
  let backend := {| firstLoad := LoadRefused; venueIdAnswered := true; putOk := true |} in
  exists text new,
    exportConfig JSON_stringify backend (Some loadedConfig)
    = (Returned text, Some loadedConfig) /\
    importConfig JSON_parse backend text (Some (Encode.config Defaults.DEFAULT_CONFIG))
    = (Returned true, Some new) /\
    new !! "venueName"%string = Some (VString "Main Venue") /\
    new !! "locations"%string
    = Some (VArray [ object [ ("id", VString "hall");
                              ("name", VString "Main Hall");
                              ("description", VString EmptyString);
                              ("amenities", VArray [VString "stage"]);
                              ("isActive", VBool true) ]%string ]).
Proof.
  cbv zeta.
  destruct (export_import_round_trip
              (parseOnly "exported" (jsonImage (VObject loadedConfig)))
              (fun _ => "exported"%string)
              {| firstLoad := LoadRefused; venueIdAnswered := true; putOk := true |}
              loadedConfig) as (text & Hexp & _ & Himp).
  - split; [discriminate | vm_compute; reflexivity].
  - vm_compute. reflexivity.
  - vm_compute. reflexivity.
  - destruct (Himp (Encode.config Defaults.DEFAULT_CONFIG)) as (new & Hnew & Hfield & _).
    cbn [accepts venueIdAnswered putOk andb] in Hnew.
    exists text, new. split; [exact Hexp|]. split; [exact Hnew|]. split.
    + apply (Hfield "venueName"%string (VString "Main Venue"));
        [vm_compute; reflexivity | discriminate].
    + rewrite (Hfield "locations"%string _ eq_refl ltac:(discriminate)).
      vm_compute. reflexivity.
Defined.

(** Every typed configuration without [NaN] makes the round trip. *)
Corollary export_import_typed
    (JSON_parse : string -> option value) (JSON_stringify : value -> string)
    (backend : Backend) (c : VenueConfig.t) :
  Encode.numeric c ->
  JSON_parse (JSON_stringify (VObject (Encode.config c)))
    = Some (jsonImage (VObject (Encode.config c))) ->
  snd (importConfig JSON_parse backend
         (JSON_stringify (VObject (Encode.config c))) (Some (Encode.config c)))
  = Some (Encode.config c).
Proof.
  intros Hnum Hjson. apply importConfig_exported_same; [|exact Hjson].
  apply jsonClean_config. exact Hnum.
Qed.

(** A document that lacks [companyName] is accepted, and the field keeps
    the value of the current configuration. *)
Lemma importConfig_keeps_current_fields :
  let current :=
    <["companyName" := VString "Acme Halls"]> (Encode.config Defaults.DEFAULT_CONFIG) in
  let backend := {| firstLoad := LoadRefused; venueIdAnswered := true; putOk := true |} in
  let JSON_parse := parseOnly "{}" (VObject ∅) in
  exists new,
    importConfig JSON_parse backend "{}" (Some current) = (Returned true, Some new) /\
    new !! "companyName"%string = Some (VString "Acme Halls") /\
    spread (Encode.config Defaults.DEFAULT_CONFIG) (VObject ∅) !! "companyName"%string
      = Some (VString "Event Planner") /\
    new <> spread (Encode.config Defaults.DEFAULT_CONFIG) (VObject ∅).
Proof.
  cbv zeta. eexists. split; [reflexivity|]. split; [reflexivity|].
  split; [reflexivity|].
  intros H. apply (f_equal (fun m => m !! "companyName"%string)) in H.
  discriminate H.
Qed.

(** What [importConfig] does on a loaded service, case by case: [false] and
    no change when the text does not parse, when the merge has no [features]
    to read or when the backend does not accept the update; otherwise [true]
    and the shallow merge of the document over the current configuration. *)
Lemma importConfig_outcome
    (JSON_parse : string -> option value) (backend : Backend)
    (text : string) (current : gmap string value) :
  match JSON_parse text with
  | None =>
      importConfig JSON_parse backend text (Some current)
      = (Returned false, Some current)
  | Some doc =>
      let merged := spread current doc in
      (forall k v, ownProps doc !! k = Some v -> merged !! k = Some v) /\
      (forall k, ownProps doc !! k = None -> merged !! k = current !! k) /\
      importConfig JSON_parse backend text (Some current)
      = if accepts backend && hasFeatures merged
        then (Returned true, Some merged)
        else (Returned false, Some current)
  end.
Proof.
  rewrite importConfig_loaded. destruct (JSON_parse text) as [doc|]; [|reflexivity].
  cbv zeta. split; [|split; [|reflexivity]].
  - intros k v. apply spread_override.
  - intros k. apply spread_keep.
Qed.

(** C9.  [importConfig] of the service over the API neither fills a document
    from the defaults nor checks its shape; [importConfig] of the service
    over [localStorage] does both.  With [companyName] set to [Acme Halls]
    and a backend that accepts every update: the document [{}] is accepted
    and [companyName] stays [Acme Halls], where the service over
    [localStorage] resets it to the default [Event Planner]; the documents
    [42] and ["ab"], which are no configuration objects, are accepted too,
    the second adding the properties [0] and [1] to the configuration, where
    the service over [localStorage] returns [false] and changes nothing.  A
    text that does not parse is refused by both without a change. *)
Theorem importConfig_unchecked_merge :
  let current :=
    <["companyName" := VString "Acme Halls"]> (Encode.config Defaults.DEFAULT_CONFIG) in
  let backend := {| firstLoad := LoadRefused; venueIdAnswered := true; putOk := true |} in
  let api text := importConfig parseSmall backend text (Some current) in
  let service := {| LocalConfigStore.config := current;
                    LocalConfigStore.stored := None |} in
  let local text :=
    LocalConfigStore.importConfig parseSmall (fun _ => "saved"%string) true text
                                  service in
  let ab := String "034" (String "a" (String "b" (String "034" EmptyString))) in
  api "{}"%string = (Returned true, Some current) /\
  fst (local "{}"%string) = true /\
  LocalConfigStore.config (snd (local "{}"%string)) !! "companyName"%string
    = Some (VString "Event Planner") /\
  api "42"%string = (Returned true, Some current) /\
  local "42"%string = (false, service) /\
  (exists new, api ab = (Returned true, Some new) /\
               new !! "0"%string = Some (VString "a") /\
               new !! "1"%string = Some (VString "b") /\
               new !! "companyName"%string = Some (VString "Acme Halls")) /\
  local ab = (false, service) /\
  api "{"%string = (Returned false, Some current) /\
  local "{"%string = (false, service).
Proof.
  cbv zeta.
  assert (Hempty : forall c : gmap string value, spread c (VObject ∅) = c).
  { intros c. apply map_eq. intros k. rewrite spread_lookup. reflexivity. }
  assert (Hnum : forall c : gmap string value, spread c (VNumber (Num 42)) = c).
  { intros c. apply map_eq. intros k. rewrite spread_lookup. reflexivity. }
  split; [rewrite importConfig_loaded; cbn [parseSmall String.eqb Ascii.eqb Bool.eqb];
          rewrite Hempty; reflexivity|].
  split; [reflexivity|]. split; [reflexivity|].
  split; [rewrite importConfig_loaded; cbn [parseSmall String.eqb Ascii.eqb Bool.eqb];
          rewrite Hnum; reflexivity|].
  split; [reflexivity|].
  split; [eexists; split; [rewrite importConfig_loaded; reflexivity|];
          repeat split; reflexivity|].
  split; [reflexivity|]. split; reflexivity.
Qed.

End ServiceTheorems.

(** * Further properties of the date utilities and the calendar view *)

(** ** More on days, weeks and months *)
Section MoreDateFacts.
Import JsDate JsDateMore DateUtils DateUtilsMore GridSpec CalendarSpec.

(** Year, month and day of month determine the day. *)
Lemma Day_of_components d1 d2 :
  YearFromDay d1 = YearFromDay d2 -> MonthFromDay d1 = MonthFromDay d2 ->
  DateFromDay d1 = DateFromDay d2 -> d1 = d2.
Proof.
  intros Hy Hm Hd.
  pose proof (MakeDay_components d1 0) as H1.
  pose proof (MakeDay_components d2 0) as H2.
  rewrite Hy, Hm, Hd in H1. lia.
Qed.

(** A day lies in month [m] of year [y] exactly between the first day of
    that month and the first day of the next. *)
Lemma in_month d y m :
  0 <= m <= 11 ->
  (YearFromDay d = y /\ MonthFromDay d = m <->
   DayFromYear y + monthStart (InLeapYear y) m <= d
     < DayFromYear y + monthStart (InLeapYear y) (m + 1)).
Proof.
  intros Hm. split.
  - intros [<- <-]. pose proof (MonthFromDay_spec d) as H. cbv zeta in H.
    unfold DayWithinYear in H. lia.
  - intros H.
    pose proof (month_length (InLeapYear y) m (InLeapYear_range y) Hm) as Hlen.
    destruct (components_of_day y m
                (d - DayFromYear y - monthStart (InLeapYear y) m + 1))
      as (Hy & Hmo & _); try lia.
    replace (DayFromYear y + monthStart (InLeapYear y) m
             + (d - DayFromYear y - monthStart (InLeapYear y) m + 1) - 1)
      with d in * by lia.
    split; assumption.
Qed.

Lemma InLeapYear_isLeapYear y :
  InLeapYear y = if isLeapYear y then 1 else 0.
Proof.
  unfold InLeapYear, DaysInYear, isLeapYear.
  destruct (y mod 4 =? 0), (y mod 100 =? 0), (y mod 400 =? 0); reflexivity.
Qed.

Lemma monthLength_table year month :
  monthLength year month =
  daysInMonth (isLeapYear (ctorYear year month)) (ctorMonth month).
Proof.
  unfold monthLength. cbv zeta. rewrite InLeapYear_isLeapYear.
  pose proof (ctorMonth_range month) as Hm.
  assert (Hcases : ctorMonth month = 0 \/ ctorMonth month = 1 \/ ctorMonth month = 2
                   \/ ctorMonth month = 3 \/ ctorMonth month = 4 \/ ctorMonth month = 5
                   \/ ctorMonth month = 6 \/ ctorMonth month = 7 \/ ctorMonth month = 8
                   \/ ctorMonth month = 9 \/ ctorMonth month = 10 \/ ctorMonth month = 11)
    by lia.
  destruct (isLeapYear (ctorYear year month));
    repeat (destruct Hcases as [Hcases | Hcases]); rewrite Hcases; reflexivity.
Qed.

Lemma getWeekStart_value t :
  getWeekStart t = (t - getDay t * msPerDay, t - getDay t * msPerDay).
Proof.
  unfold getWeekStart. cbv zeta.
  replace (getDate t - getDay t) with (getDate t + - getDay t) by lia.
  rewrite setDate_offset. f_equal; lia.
Qed.

End MoreDateFacts.

Section MoreDateTheorems.
Import JsDate JsDateMore DateUtils DateUtilsMore GridSpec CalendarSpec.

(** X1.  [isSameDay] holds exactly when the two dates fall on the same
    calendar day, whatever their times of day. *)
Theorem isSameDay_same_day (date1 date2 : Date) :
  isSameDay date1 date2 = true <-> Day date1 = Day date2.
Proof.
  unfold isSameDay, getFullYear, getMonth, getDate.
  rewrite !andb_true_iff, !Z.eqb_eq. split.
  - intros [[Hy Hm] Hd]. apply Day_of_components; assumption.
  - intros ->. auto.
Qed.

(** X2.  [getWeekStart] returns the Sunday on or before the date, at the same
    time of day and at most six days back, and leaves its argument moved to
    that same Sunday; on a Sunday it changes nothing, so applying it twice is
    applying it once.  The calendar grid of a month starts at the week start
    of the 1st. *)
Theorem getWeekStart_sunday (date : Date) :
  let start := fst (getWeekStart date) in
  start = date - getDay date * msPerDay /\
  snd (getWeekStart date) = start /\
  getDay start = 0 /\
  TimeWithinDay start = TimeWithinDay date /\
  0 <= Day date - Day start <= 6 /\
  fst (getWeekStart start) = start /\
  forall year month,
    nth 0 (concat (getCalendarGrid year month)) 0
    = fst (getWeekStart (newDate year month 1)).
Proof.
  cbv zeta. rewrite !getWeekStart_value. cbn [fst snd].
  pose proof (WeekDay_range (Day date)) as Hr.
  assert (Hsun : getDay (date - getDay date * msPerDay) = 0).
  { replace (date - getDay date * msPerDay)
      with (date + - getDay date * msPerDay) by lia.
    unfold getDay. rewrite Day_add. apply WeekDay_sub. }
  split; [reflexivity|]. split; [reflexivity|]. split; [exact Hsun|]. split.
  - replace (date - getDay date * msPerDay)
      with (date + - getDay date * msPerDay) by lia.
    unfold TimeWithinDay. apply Z.mod_add. unfold msPerDay. lia.
  - split.
    + replace (date - getDay date * msPerDay)
        with (date + - getDay date * msPerDay) by lia.
      rewrite Day_add. unfold getDay. lia.
    + split.
      * rewrite Hsun. lia.
      * intros year month. rewrite getWeekStart_value. cbn [fst].
        rewrite getCalendarGrid_gridFrom, gridFrom_concat.
        change (seq 0 42) with (0%nat :: seq 1 41). cbn [map nth].
        unfold gridAnchor. lia.
Qed.

(** X3.  For a month 0..11 of a year outside 0..99, [getDaysInMonth] lists
    the days 1, 2, ... of that month and year at midnight, as many as the
    month has by the Gregorian calendar: 31, 30, or 28 and 29 for February
    outside and in leap years. *)
Theorem getDaysInMonth_calendar (year month : Z) :
  0 <= month <= 11 -> year < 0 \/ 99 < year ->
  let n := daysInMonth (isLeapYear year) month in
  map (fun c => (getFullYear c, getMonth c, getDate c, TimeWithinDay c))
      (getDaysInMonth year month)
  = map (fun k => (year, month, Z.of_nat k, 0)) (seq 1 (Z.to_nat n)).
Proof.
  intros Hm Hy. cbv zeta.
  assert (Hcy : ctorYear year month = year).
  { unfold ctorYear. rewrite Z.div_small by lia.
    destruct (Z.leb_spec 0 year), (Z.leb_spec year 99); cbn; lia. }
  assert (Hcm : ctorMonth month = month) by (apply Z.mod_small; lia).
  rewrite getDaysInMonth_days, monthLength_table, Hcy, Hcm.
  pose proof (monthLength_range year month) as Hlen.
  rewrite monthLength_table, Hcy, Hcm in Hlen.
  rewrite map_map. apply map_ext_in. intros k Hk. apply in_seq in Hk.
  destruct (newDate_components year month (Z.of_nat k)) as (H1 & H2 & H3).
  { rewrite monthLength_table, Hcy, Hcm. lia. }
  rewrite H1, H2, H3, Hcy, Hcm. f_equal.
  unfold newDate. apply TimeWithinDay_MakeDate. unfold msPerDay. lia.
Qed.

Lemma getDaysInMonth_calendar_witness :
  0 <= 1 <= 11 /\ (2024 < 0 \/ 99 < 2024) /\
  map (fun c => (getFullYear c, getMonth c, getDate c, TimeWithinDay c))
      (getDaysInMonth 2024 1)
  = map (fun k => (2024, 1, Z.of_nat k, 0))
        (seq 1 (Z.to_nat (daysInMonth (isLeapYear 2024) 1))).
Proof.
  split; [lia|]. split; [right; lia|].
  apply (getDaysInMonth_calendar 2024 1); [lia | right; lia].
Defined.

(** X4.  The name tables answer exactly the indexes they have: months 0..11
    and days 0..6, [undefined] for anything else.  So the month of every date
    has a name, the weekday of every date has a name and a short name, and
    the short name is made of the first three letters of the name. *)
Theorem names_defined (index : Z) (date : Date) :
  (is_Some (getMonthName index) <-> 0 <= index <= 11) /\
  (is_Some (getDayName index) <-> 0 <= index <= 6) /\
  (is_Some (getShortDayName index) <-> 0 <= index <= 6) /\
  is_Some (getMonthName (getMonth date)) /\
  exists name, getDayName (getDay date) = Some name /\
               getShortDayName (getDay date) = Some (substring 0 3 name).
Proof.
  assert (Hel : forall (l : list string) i,
            is_Some (element l i) <-> 0 <= i < Z.of_nat (length l)).
  { intros l i. unfold element. destruct (Z.ltb_spec i 0) as [Hneg | Hpos].
    - split; [intros [x Hx]; discriminate | lia].
    - rewrite <- not_eq_None_Some, nth_error_None. split; lia. }
  unfold getMonthName, getDayName, getShortDayName. rewrite !Hel.
  change (length monthNames) with 12%nat. change (length dayNames) with 7%nat.
  change (length shortDayNames) with 7%nat.
  split; [lia|]. split; [lia|]. split; [lia|]. split.
  - pose proof (MonthFromDay_range (Day date)). unfold getMonth. lia.
  - pose proof (WeekDay_range (Day date)) as Hw. unfold getDay.
    assert (Hc : WeekDay (Day date) = 0 \/ WeekDay (Day date) = 1
                 \/ WeekDay (Day date) = 2 \/ WeekDay (Day date) = 3
                 \/ WeekDay (Day date) = 4 \/ WeekDay (Day date) = 5
                 \/ WeekDay (Day date) = 6) by lia.
    repeat (destruct Hc as [Hc | Hc]); rewrite Hc; eexists; split; reflexivity.
Qed.

End MoreDateTheorems.

(** ** The calendar view *)
Section CalendarViewFacts.
Import JsDate JsDateMore DateUtils DateUtilsMore GridSpec CalendarSpec CalendarView
       EventSpec.

Lemma filter_seq_interval (p : nat -> bool) :
  forall cnt start a n,
    (forall i, start <= i < start + cnt -> (p i = true <-> a <= i < a + n))%nat ->
    (start <= a)%nat -> (a + n <= start + cnt)%nat ->
    List.filter p (seq start cnt) = seq a n.
Proof.
  induction cnt as [|cnt IH]; intros start a n Hp Hlo Hhi.
  - assert (n = 0)%nat as -> by lia. reflexivity.
  - cbn [seq List.filter]. destruct (p start) eqn:E.
    + apply Hp in E; [|lia]. assert (a = start) as -> by lia.
      destruct n as [|n]; [lia|]. cbn [seq]. f_equal.
      apply IH; try lia. intros i Hi. rewrite Hp by lia. lia.
    + destruct n as [|n].
      * change (seq a 0) with (seq (S start) 0). apply IH; try lia.
        intros i Hi. rewrite Hp by lia. lia.
      * assert (a <> start).
        { intros ->. assert (p start = true) by (apply Hp; lia). congruence. }
        apply IH; try lia. intros i Hi. apply Hp. lia.
Qed.

Lemma filter_map_commute {A B} (p : B -> bool) (f : A -> B) l :
  List.filter p (map f l) = map f (List.filter (fun x => p (f x)) l).
Proof.
  induction l as [|x l IH]; cbn; [reflexivity|].
  destruct (p (f x)); cbn; rewrite IH; reflexivity.
Qed.

Lemma map_seq_shift {B} (f g : nat -> B) n :
  forall a b, (forall k, (k < n)%nat -> f (a + k)%nat = g (b + k)%nat) ->
  map f (seq a n) = map g (seq b n).
Proof.
  induction n as [|n IH]; intros a b H; [reflexivity|].
  cbn [seq map]. f_equal.
  - specialize (H 0%nat ltac:(lia)). rewrite !Nat.add_0_r in H. exact H.
  - apply IH. intros k Hk. specialize (H (S k) ltac:(lia)).
    replace (S a + k)%nat with (a + S k)%nat by lia.
    replace (S b + k)%nat with (b + S k)%nat by lia. exact H.
Qed.

(** Year and month of the constructor for a month 0..11 of a plain year. *)
Lemma ctor_plain year month :
  0 <= month <= 11 -> year < 0 \/ 99 < year ->
  ctorYear year month = year /\ ctorMonth month = month.
Proof.
  intros Hm Hy. split.
  - unfold ctorYear. rewrite Z.div_small by lia.
    destruct (Z.leb_spec 0 year), (Z.leb_spec year 99); cbn; lia.
  - apply Z.mod_small. lia.
Qed.

Lemma Day_gridAnchor year month :
  Day (gridAnchor year month)
  = Day (newDate year month 1) - getDay (newDate year month 1).
Proof.
  unfold gridAnchor. cbv zeta.
  replace (newDate year month 1 - getDay (newDate year month 1) * msPerDay)
    with (newDate year month 1 + - getDay (newDate year month 1) * msPerDay) by lia.
  rewrite Day_add. lia.
Qed.

(** Components of the date [setMonth] yields when the day of month exists in
    every month. *)
Lemma setMonth_components t month :
  getDate t <= 28 ->
  let t' := setMonth t month in
  Day t' = DayFromYear (getFullYear t + month / 12)
           + monthStart (InLeapYear (getFullYear t + month / 12)) (month mod 12)
           + getDate t - 1 /\
  getFullYear t' = getFullYear t + month / 12 /\
  getMonth t' = month mod 12 /\
  getDate t' = getDate t /\
  TimeWithinDay t' = TimeWithinDay t.
Proof.
  intros Hd. cbv zeta.
  pose proof (DateFromDay_range (Day t)) as Hr. fold (getDate t) in Hr.
  pose proof (Z.mod_pos_bound t msPerDay ltac:(unfold msPerDay; lia)) as Htw.
  fold (TimeWithinDay t) in Htw.
  pose proof (Z.mod_pos_bound month 12 ltac:(lia)) as Hmn.
  assert (HD : Day (setMonth t month)
               = DayFromYear (getFullYear t + month / 12)
                 + monthStart (InLeapYear (getFullYear t + month / 12)) (month mod 12)
                 + getDate t - 1).
  { unfold setMonth. rewrite Day_MakeDate by assumption. reflexivity. }
  pose proof (month_length (InLeapYear (getFullYear t + month / 12)) (month mod 12)
                (InLeapYear_range _) ltac:(lia)) as Hlen.
  destruct (components_of_day (getFullYear t + month / 12) (month mod 12) (getDate t))
    as (Hy & Hm & Hdt); try lia.
  split; [exact HD|].
  unfold getFullYear at 1, getMonth at 1, getDate at 1. rewrite HD.
  split; [exact Hy|]. split; [exact Hm|]. split; [exact Hdt|].
  unfold setMonth. apply TimeWithinDay_MakeDate. assumption.
Qed.

Lemma Date_ext t1 t2 :
  Day t1 = Day t2 -> TimeWithinDay t1 = TimeWithinDay t2 -> t1 = t2.
Proof.
  intros Hd Ht. rewrite <- (MakeDate_Day t1), <- (MakeDate_Day t2), Hd, Ht.
  reflexivity.
Qed.

End CalendarViewFacts.

Section CalendarViewTheorems.
Import JsDate JsDateMore DateUtils DateUtilsMore GridSpec CalendarSpec CalendarView
       EventSpec.

(** X5.  In the grid the calendar draws for [currentDate] (a year outside
    0..99), the cells of the current month, those not marked [other-month],
    are in order exactly the days [getDaysInMonth] lists for that month: the
    leading and trailing cells all belong to other months. *)
Theorem current_month_cells (currentDate : Date) :
  plainYear currentDate ->
  List.filter (isCurrentMonth currentDate) (concat (renderedGrid currentDate))
  = getDaysInMonth (getFullYear currentDate) (getMonth currentDate) /\
  forall events today selectedDate date,
    In "other-month"%string
       (classes (renderDay events today selectedDate currentDate date))
    <-> isCurrentMonth currentDate date = false.
Proof.
  intros Hplain. split.
  - unfold renderedGrid. cbv zeta. unfold plainYear in Hplain.
    unfold isCurrentMonth.
    remember (getFullYear currentDate) as year eqn:Ey.
    remember (getMonth currentDate) as month eqn:Em.
    assert (Hm : 0 <= month <= 11) by (subst month; apply MonthFromDay_range).
    clear Ey Em.
    destruct (ctor_plain year month Hm Hplain) as [Hcy Hcm].
    pose proof (monthLength_range year month) as Hlen.
    assert (Hlen' : monthLength year month
                    = monthStart (InLeapYear year) (month + 1)
                      - monthStart (InLeapYear year) month).
    { unfold monthLength. cbv zeta. rewrite Hcy, Hcm. reflexivity. }
    pose proof (WeekDay_range (Day (newDate year month 1))) as Hback.
    rewrite getCalendarGrid_gridFrom, gridFrom_concat, getDaysInMonth_days.
    rewrite filter_map_commute.
    rewrite (filter_seq_interval _ 42 0
               (Z.to_nat (getDay (newDate year month 1)))
               (Z.to_nat (monthLength year month))).
    + apply map_seq_shift. intros k Hk.
      unfold gridAnchor, getDay. cbv zeta.
      remember (WeekDay (Day (newDate year month 1))) as back.
      rewrite (newDate_day year month (Z.of_nat (1 + k))).
      remember (newDate year month 1) as first. unfold msPerDay. lia.
    + intros i Hi. rewrite andb_true_iff, !Z.eqb_eq.
      unfold getMonth, getFullYear.
      rewrite Day_add, Day_gridAnchor, Day_newDate, Hcy, Hcm.
      unfold getDay. rewrite Day_newDate, Hcy, Hcm.
      rewrite Day_newDate, Hcy, Hcm in Hback.
      remember (WeekDay (DayFromYear year + monthStart (InLeapYear year) month + 1 - 1))
        as back.
      remember (monthLength year month) as len.
      rewrite (and_comm (MonthFromDay _ = month)), in_month by assumption.
      lia.
    + lia.
    + unfold getDay. lia.
  - intros events today selectedDate date. unfold renderDay. cbn [classes].
    destruct (isToday today date), (isSelected selectedDate date),
      (isCurrentMonth currentDate date), (0 <? length _)%nat; cbn;
      (split; intros H; [try reflexivity | try discriminate H]);
      repeat (destruct H as [H | H]; try discriminate H);
      try contradiction; auto 10.
Qed.

Lemma current_month_cells_witness :
  plainYear (newDate 2024 1 15) /\
  List.filter (isCurrentMonth (newDate 2024 1 15))
              (concat (renderedGrid (newDate 2024 1 15)))
  = getDaysInMonth (getFullYear (newDate 2024 1 15)) (getMonth (newDate 2024 1 15)).
Proof.
  assert (H : plainYear (newDate 2024 1 15)) by (right; vm_compute; reflexivity).
  split; [exact H|]. apply (current_month_cells (newDate 2024 1 15) H).
Defined.

(** X6.  From a date whose day of month is at most 28, [nextMonth] goes to
    the same day and time of day of the following month (January of the next
    year after December) and [previousMonth] to those of the month before;
    each undoes the other. *)
Theorem nextMonth_previousMonth (currentDate : Date) :
  getDate currentDate <= 28 ->
  let next := nextMonth currentDate in
  let previous := previousMonth currentDate in
  getDate next = getDate currentDate /\
  getMonth next = (getMonth currentDate + 1) mod 12 /\
  getFullYear next
    = getFullYear currentDate + (if getMonth currentDate =? 11 then 1 else 0) /\
  TimeWithinDay next = TimeWithinDay currentDate /\
  getDate previous = getDate currentDate /\
  getMonth previous = (getMonth currentDate - 1) mod 12 /\
  getFullYear previous
    = getFullYear currentDate - (if getMonth currentDate =? 0 then 1 else 0) /\
  previousMonth next = currentDate /\
  nextMonth previous = currentDate.
Proof.
  intros Hd. cbv zeta. unfold nextMonth, previousMonth.
  pose proof (MonthFromDay_range (Day currentDate)) as Hm.
  fold (getMonth currentDate) in Hm.
  destruct (setMonth_components currentDate (getMonth currentDate + 1) Hd)
    as (HDn & Hyn & Hmn & Hdn & Htn).
  destruct (setMonth_components currentDate (getMonth currentDate - 1) Hd)
    as (HDp & Hyp & Hmp & Hdp & Htp).
  set (next := setMonth currentDate (getMonth currentDate + 1)) in *.
  set (prev := setMonth currentDate (getMonth currentDate - 1)) in *.
  assert (Hcur : Day currentDate
                 = DayFromYear (getFullYear currentDate)
                   + monthStart (InLeapYear (getFullYear currentDate))
                       (getMonth currentDate)
                   + getDate currentDate - 1).
  { unfold getFullYear, getMonth, getDate, DateFromDay, DayWithinYear. lia. }
  assert (Hqn : (getMonth currentDate + 1) / 12
                = if getMonth currentDate =? 11 then 1 else 0).
  { destruct (Z.eqb_spec (getMonth currentDate) 11) as [-> | Hne]; [reflexivity|].
    apply Z.div_small. lia. }
  assert (Hqp : (getMonth currentDate - 1) / 12
                = - (if getMonth currentDate =? 0 then 1 else 0)).
  { destruct (Z.eqb_spec (getMonth currentDate) 0) as [-> | Hne]; [reflexivity|].
    rewrite Z.div_small; lia. }
  split; [exact Hdn|]. split; [exact Hmn|]. split; [rewrite Hyn, Hqn; reflexivity|].
  split; [exact Htn|]. split; [exact Hdp|]. split; [exact Hmp|].
  split; [rewrite Hyp, Hqp; lia|].
  assert (Hdn' : getDate next <= 28) by lia.
  assert (Hdp' : getDate prev <= 28) by lia.
  split; apply Date_ext.
  - destruct (setMonth_components next (getMonth next - 1) Hdn') as (HD & _).
    rewrite HD, Hcur, Hyn, Hmn, Hdn.
    destruct (Z.eqb_spec (getMonth currentDate) 11) as [-> | Hne].
    + change ((11 + 1) / 12) with 1. change (((11 + 1) mod 12 - 1) / 12) with (-1).
      change (((11 + 1) mod 12 - 1) mod 12) with 11.
      replace (getFullYear currentDate + 1 + -1) with (getFullYear currentDate) by lia.
      reflexivity.
    + rewrite (Z.div_small (getMonth currentDate + 1)) by lia.
      rewrite (Z.mod_small (getMonth currentDate + 1)) by lia.
      replace (getMonth currentDate + 1 - 1) with (getMonth currentDate) by lia.
      rewrite Z.div_small, Z.mod_small, !Z.add_0_r by lia. reflexivity.
  - destruct (setMonth_components next (getMonth next - 1) Hdn') as (_ & _ & _ & _ & Ht).
    rewrite Ht. exact Htn.
  - destruct (setMonth_components prev (getMonth prev + 1) Hdp') as (HD & _).
    rewrite HD, Hcur, Hyp, Hmp, Hdp.
    destruct (Z.eqb_spec (getMonth currentDate) 0) as [-> | Hne].
    + change ((0 - 1) / 12) with (-1). change (((0 - 1) mod 12 + 1) / 12) with 1.
      change (((0 - 1) mod 12 + 1) mod 12) with 0.
      replace (getFullYear currentDate + -1 + 1) with (getFullYear currentDate) by lia.
      reflexivity.
    + rewrite (Z.div_small (getMonth currentDate - 1)) by lia.
      rewrite (Z.mod_small (getMonth currentDate - 1)) by lia.
      replace (getMonth currentDate - 1 + 1) with (getMonth currentDate) by lia.
      rewrite Z.div_small, Z.mod_small, !Z.add_0_r by lia. reflexivity.
  - destruct (setMonth_components prev (getMonth prev + 1) Hdp') as (_ & _ & _ & _ & Ht).
    rewrite Ht. exact Htp.
Qed.

Lemma nextMonth_previousMonth_witness :
  getDate (newDate 2024 11 24) <= 28 /\
  previousMonth (nextMonth (newDate 2024 11 24)) = newDate 2024 11 24.
Proof.
  assert (H : getDate (newDate 2024 11 24) <= 28) by (vm_compute; discriminate).
  split; [exact H|].
  apply (nextMonth_previousMonth (newDate 2024 11 24) H).
Defined.

(** From 31 January 2024 [nextMonth] skips February: day 31 of February is
    2 March. *)
Example nextMonth_from_31_january :
  let next := nextMonth (newDate 2024 0 31) in
  (getFullYear next, getMonth next, getDate next) = (2024, 2, 2).
Proof. vm_compute. reflexivity. Qed.

End CalendarViewTheorems.

(** * Further properties of the event queries *)
Section SortFilterFacts.
Import JsArray JsNumber.
Context {A : Type} (compareFn : A -> A -> number).
Context (P : A -> Prop) (key : A -> Z).
Hypothesis compare_key :
  forall x y, P x -> P y -> sortCompare compareFn x y = key x - key y.

(** An element not above any element of the array is inserted in front. *)
Lemma insertSorted_front x l :
  P x -> Forall P l -> Forall (fun y => key x <= key y) l ->
  insertSorted compareFn x l = x :: l.
Proof.
  intros Hx HP Hle. destruct l as [|y l]; [reflexivity|].
  cbn [insertSorted]. inversion HP; subst. inversion Hle; subst.
  rewrite compare_key by assumption.
  destruct (Z.leb_spec (key x - key y) 0); [reflexivity | lia].
Qed.

Lemma filter_insertSorted (p : A -> bool) x l :
  P x -> Forall P l -> StronglySorted (ascendingBy key) l ->
  List.filter p (insertSorted compareFn x l)
  = if p x then insertSorted compareFn x (List.filter p l) else List.filter p l.
Proof.
  intros Hx HP Hs. induction l as [|y l IH].
  - cbn. destruct (p x); reflexivity.
  - inversion HP as [|? ? Py HPl]; subst.
    apply StronglySorted_inv in Hs as [Hs Hy].
    cbn [insertSorted]. rewrite compare_key by assumption.
    destruct (Z.leb_spec (key x - key y) 0) as [Hle | Hgt].
    + cbn [List.filter]. destruct (p x) eqn:Epx; [|reflexivity].
      symmetry. apply insertSorted_front; [assumption| |].
      * destruct (p y); [constructor; [assumption|] |];
          apply List.Forall_forall; intros z Hz; apply filter_In in Hz as [Hz _];
          exact (proj1 (List.Forall_forall _ _) HPl z Hz).
      * assert (Hall : Forall (fun z => key x <= key z) (y :: l)).
        { constructor; [lia|]. apply List.Forall_forall. intros z Hz.
          pose proof (proj1 (List.Forall_forall _ _) Hy z Hz) as Hyz.
          unfold ascendingBy in Hyz. lia. }
        apply List.Forall_forall. intros z Hz.
        change (In z (List.filter p (y :: l))) in Hz.
        apply filter_In in Hz as [Hz _].
        exact (proj1 (List.Forall_forall _ _) Hall z Hz).
    + cbn [List.filter]. rewrite (IH HPl Hs).
      destruct (p y) eqn:Epy, (p x) eqn:Epx; try reflexivity.
      cbn [insertSorted]. rewrite compare_key by assumption.
      destruct (Z.leb_spec (key x - key y) 0); [lia | reflexivity].
Qed.

(** Filtering commutes with the stable sort. *)
Lemma filter_sort (p : A -> bool) l :
  Forall P l ->
  List.filter p (sort compareFn l) = sort compareFn (List.filter p l).
Proof.
  intros HP. induction l as [|x l IH]; [reflexivity|].
  inversion HP as [|? ? Px HPl]; subst.
  change (sort compareFn (x :: l)) with (insertSorted compareFn x (sort compareFn l)).
  rewrite filter_insertSorted.
  - rewrite (IH HPl). cbn [List.filter]. destruct (p x); reflexivity.
  - assumption.
  - apply List.Forall_forall. intros z Hz. apply sort_In in Hz.
    exact (proj1 (List.Forall_forall _ _) HPl z Hz).
  - apply (sort_StronglySorted compareFn P key compare_key). assumption.
Qed.

End SortFilterFacts.

Section MoreEventFacts.
Import JsDate JsArray JsNumber EventSpec.

Lemma filter_all {A} (p : A -> bool) l :
  (forall x, In x l -> p x = true) -> List.filter p l = l.
Proof.
  induction l as [|x l IH]; intros H; [reflexivity|].
  cbn [List.filter]. rewrite (H x (or_introl eq_refl)), IH; [reflexivity|].
  intros y Hy. apply H. right. exact Hy.
Qed.

Lemma filter_length_le {A} (p : A -> bool) l :
  (length (List.filter p l) <= length l)%nat.
Proof.
  induction l as [|x l IH]; cbn; [lia|]. destruct (p x); cbn; lia.
Qed.

Lemma filter_length_impl {A} (p q : A -> bool) l :
  (forall x, In x l -> p x = true -> q x = true) ->
  (length (List.filter p l) <= length (List.filter q l))%nat.
Proof.
  induction l as [|x l IH]; intros H; [cbn; lia|].
  assert (IH' := IH (fun y Hy => H y (or_intror Hy))).
  cbn [List.filter]. destruct (p x) eqn:Ep.
  - rewrite (H x (or_introl eq_refl) Ep). cbn. lia.
  - destruct (q x); cbn; lia.
Qed.

Lemma sort_byStart_filter (p : Event.t -> bool) l :
  List.filter p (sort byStart l) = sort byStart (List.filter p l).
Proof.
  apply (filter_sort byStart (fun _ => True) Event.startDate byStart_key).
  apply Forall_True.
Qed.

Lemma sort_byStart_id l :
  StronglySorted startsBefore l -> sort byStart l = l.
Proof.
  intros Hs.
  apply (sort_sorted_id byStart (fun _ => True) Event.startDate byStart_key).
  - apply Forall_True.
  - exact Hs.
Qed.

Lemma setHoursZero_le now : setHoursZero now <= now.
Proof.
  unfold setHoursZero, MakeDate.
  pose proof (Day_TimeWithinDay now) as H.
  pose proof (Z.mod_pos_bound now msPerDay msPerDay_pos) as Hb.
  fold (TimeWithinDay now) in Hb. lia.
Qed.

Lemma setHoursZero_lt now : TimeWithinDay now <> 0 -> setHoursZero now < now.
Proof.
  intros Hne. unfold setHoursZero, MakeDate.
  pose proof (Day_TimeWithinDay now) as H.
  pose proof (Z.mod_pos_bound now msPerDay msPerDay_pos) as Hb.
  fold (TimeWithinDay now) in Hb. lia.
Qed.

End MoreEventFacts.

Section MoreEventTheorems.
Import JsDate JsArray JsNumber EventSpec.

(** X7.  The three implementations of the day query agree on every list of
    events, sorted or not: filtering and then sorting (dashboard) gives the
    list that sorting and then filtering gives (storage service, and the
    calendar over the loaded events).  The query applied to its own result
    returns it unchanged, and queries for two dates commute. *)
Theorem getEventsForDate_agree (events : list Event.t) (date date' : Date) :
  Dashboard.getEventsForDate events date
    = EventStorage.getEventsForDate (Some events) date /\
  Dashboard.getEventsForDate events date
    = Calendar.getEventsForDate (Calendar.loadEvents (Some events)) date /\
  Dashboard.getEventsForDate (Dashboard.getEventsForDate events date) date
    = Dashboard.getEventsForDate events date /\
  Dashboard.getEventsForDate (Dashboard.getEventsForDate events date) date'
    = Dashboard.getEventsForDate (Dashboard.getEventsForDate events date') date.
Proof.
  rewrite !Dashboard_getEventsForDate_eq, EventStorage_getEventsForDate_eq,
    Calendar_getEventsForDate_eq.
  unfold Calendar.loadEvents, EventStorage.loadAllEvents.
  change (fun a b : Event.t =>
            Num (getTime (Event.startDate a) - getTime (Event.startDate b)))
    with byStart.
  rewrite <- !sort_byStart_filter.
  split; [reflexivity|]. split; [reflexivity|].
  assert (Hid : forall l, sort byStart (sort byStart l) = sort byStart l).
  { intros l. apply sort_byStart_id, sort_byStart_sorted. }
  rewrite !Hid. split.
  - apply filter_all. intros e He. apply filter_In in He. tauto.
  - generalize (sort byStart events) as l. intros l.
    induction l as [|e l IH]; [reflexivity|]. cbn [List.filter].
    destruct (onDateb date e) eqn:E1, (onDateb date' e) eqn:E2; cbn [List.filter];
      rewrite ?E1, ?E2, IH; reflexivity.
Qed.

(** X8.  The numbers of the dashboard: none of the three counts exceeds the
    total, at any time; and when the clock is not exactly at midnight every
    event counted as urgent is also counted as upcoming. *)
Theorem updateStats_bounds (events : list Event.t) (now : Date) :
  let stats := Dashboard.updateStats events now in
  (Dashboard.todayEvents stats <= Dashboard.totalEvents stats)%nat /\
  (Dashboard.upcomingEvents stats <= Dashboard.totalEvents stats)%nat /\
  (Dashboard.urgentEvents stats <= Dashboard.totalEvents stats)%nat /\
  (TimeWithinDay now <> 0 ->
   (Dashboard.urgentEvents stats <= Dashboard.upcomingEvents stats)%nat).
Proof.
  cbv zeta. unfold Dashboard.updateStats. cbv zeta.
  cbn [Dashboard.todayEvents Dashboard.totalEvents Dashboard.upcomingEvents
       Dashboard.urgentEvents].
  split; [|split; [|split]].
  - rewrite Dashboard_getEventsForDate_eq, sort_length. apply filter_length_le.
  - apply filter_length_le.
  - apply filter_length_le.
  - intros Hne. apply filter_length_impl. intros e _ H.
    apply andb_true_iff in H as [_ H].
    pose proof (setHoursZero_lt now Hne) as Hlt.
    unfold Z.geb in H. unfold Z.gtb.
    destruct (Event.startDate e ?= now) eqn:E; try discriminate H.
    + apply Z.compare_eq in E. rewrite E.
      apply Z.compare_gt_iff in Hlt as ->. reflexivity.
    + apply Z.compare_gt_iff in E.
      assert (setHoursZero now < Event.startDate e) as G by lia.
      apply Z.compare_gt_iff in G as ->. reflexivity.
Qed.

Lemma updateStats_bounds_witness :
  let now := at_ 2024 2 15 10 0 in
  let D := sampleEvent "D" (at_ 2024 2 15 12 0) (at_ 2024 2 15 13 0) "urgent" in
  TimeWithinDay now <> 0 /\
  (Dashboard.urgentEvents (Dashboard.updateStats [D] now)
   <= Dashboard.upcomingEvents (Dashboard.updateStats [D] now))%nat.
Proof.
  cbv zeta.
  assert (H : TimeWithinDay (at_ 2024 2 15 10 0) <> 0) by (vm_compute; discriminate).
  split; [exact H|].
  apply (updateStats_bounds _ (at_ 2024 2 15 10 0)). exact H.
Defined.

(** At midnight exactly, an urgent event that starts at that instant is
    counted as urgent but not as upcoming. *)
Example updateStats_at_midnight :
  let now := at_ 2024 2 15 0 0 in
  let D := sampleEvent "D" now (at_ 2024 2 15 1 0) "urgent" in
  Dashboard.updateStats [D] now =
    {| Dashboard.totalEvents := 1; Dashboard.todayEvents := 1;
       Dashboard.upcomingEvents := 0; Dashboard.urgentEvents := 1 |}.
Proof. vm_compute. reflexivity. Qed.

End MoreEventTheorems.

(** * Further properties of the configuration page *)
Section ConfigPageFacts.
Import JsNumber ConfigService ConfigPage ConfigPageLists ConfigSpec.

Lemma updateFound_involutive {T} (test : T -> bool) (update : T -> T) l :
  (forall x, update (update x) = x) -> (forall x, test (update x) = test x) ->
  updateFound test update (updateFound test update l) = l.
Proof.
  intros Hinv Htest. induction l as [|x l IH]; [reflexivity|].
  cbn [updateFound]. destruct (test x) eqn:E; cbn [updateFound].
  - rewrite Htest, E, Hinv. reflexivity.
  - rewrite E, IH. reflexivity.
Qed.

Lemma updateFound_map {T U} (f : T -> U) (test : T -> bool) (update : T -> T) l :
  (forall x, f (update x) = f x) ->
  map f (updateFound test update l) = map f l.
Proof.
  intros Hf. induction l as [|x l IH]; [reflexivity|].
  cbn [updateFound]. destruct (test x); cbn [map]; rewrite ?Hf, ?IH; reflexivity.
Qed.

Lemma updateFound_absent {T} (test : T -> bool) (update : T -> T) l :
  (forall x, In x l -> test x = false) -> updateFound test update l = l.
Proof.
  induction l as [|x l IH]; intros H; [reflexivity|].
  cbn [updateFound]. rewrite (H x (or_introl eq_refl)), IH; [reflexivity|].
  intros y Hy. apply H. right. exact Hy.
Qed.

Lemma toggleLocation_involutive l : toggleLocation (toggleLocation l) = l.
Proof. destruct l as [? ? ? ? ? []]; reflexivity. Qed.

Lemma toggleCategory_involutive c : toggleCategory (toggleCategory c) = c.
Proof. destruct c as [? ? ? ? []]; reflexivity. Qed.

Lemma togglePriority_involutive p : togglePriority (togglePriority p) = p.
Proof. destruct p as [? ? ? ? []]; reflexivity. Qed.

Lemma set_locations_same c : set_locations (VenueConfig.locations c) c = c.
Proof. destruct c; reflexivity. Qed.

Lemma set_customCategories_same c :
  set_customCategories (VenueConfig.customCategories c) c = c.
Proof. destruct c; reflexivity. Qed.

Lemma set_customPriorities_same c :
  VenueConfig.set_customPriorities (VenueConfig.customPriorities c) c = c.
Proof. destruct c; reflexivity. Qed.

Lemma set_locations_fields v c :
  VenueConfig.locations (set_locations v c) = v /\
  VenueConfig.customCategories (set_locations v c) = VenueConfig.customCategories c /\
  VenueConfig.customPriorities (set_locations v c) = VenueConfig.customPriorities c.
Proof. repeat split; reflexivity. Qed.

Lemma set_customCategories_fields v c :
  VenueConfig.locations (set_customCategories v c) = VenueConfig.locations c /\
  VenueConfig.customCategories (set_customCategories v c) = v /\
  VenueConfig.customPriorities (set_customCategories v c)
    = VenueConfig.customPriorities c.
Proof. repeat split; reflexivity. Qed.

Lemma set_customPriorities_fields v c :
  VenueConfig.locations (VenueConfig.set_customPriorities v c)
    = VenueConfig.locations c /\
  VenueConfig.customCategories (VenueConfig.set_customPriorities v c)
    = VenueConfig.customCategories c /\
  VenueConfig.customPriorities (VenueConfig.set_customPriorities v c) = v.
Proof. repeat split; reflexivity. Qed.

Lemma set_locations_twice v w c :
  set_locations v (set_locations w c) = set_locations v c.
Proof. reflexivity. Qed.

Lemma set_customCategories_twice v w c :
  set_customCategories v (set_customCategories w c) = set_customCategories v c.
Proof. reflexivity. Qed.

Lemma set_customPriorities_twice v w c :
  VenueConfig.set_customPriorities v (VenueConfig.set_customPriorities w c)
  = VenueConfig.set_customPriorities v c.
Proof. reflexivity. Qed.

Lemma filter_filter_same {T} (p : T -> bool) l :
  List.filter p (List.filter p l) = List.filter p l.
Proof.
  induction l as [|x l IH]; [reflexivity|]. cbn [List.filter].
  destruct (p x) eqn:E; cbn [List.filter]; rewrite ?E, IH; reflexivity.
Qed.

Lemma filter_none {T} (p : T -> bool) l :
  (forall x, In x l -> p x = true) -> List.filter p l = l.
Proof.
  induction l as [|x l IH]; intros H; [reflexivity|].
  cbn [List.filter]. rewrite (H x (or_introl eq_refl)), IH; [reflexivity|].
  intros y Hy. apply H. right. exact Hy.
Qed.

(** With distinct ids, switching off the active item with a given id takes
    exactly that item out of the active ones. *)
Lemma filter_updateFound_off {T} (idOf : T -> string) (active : T -> bool)
    (update : T -> T) (i : string) l :
  List.NoDup (map idOf l) ->
  (forall x, active (update x) = negb (active x)) ->
  (forall x, In x l -> idOf x = i -> active x = true) ->
  List.filter active (updateFound (fun x => String.eqb (idOf x) i) update l)
  = List.filter (fun x => negb (String.eqb (idOf x) i)) (List.filter active l).
Proof.
  intros Hnd Hup. induction l as [|x l IH]; intros Hact; [reflexivity|].
  cbn [map] in Hnd. apply List.NoDup_cons_iff in Hnd as [Hx Hnd].
  cbn [updateFound]. destruct (String.eqb_spec (idOf x) i) as [Hi | Hi].
  - cbn [List.filter]. rewrite Hup, (Hact x (or_introl eq_refl) Hi).
    cbn [negb List.filter]. rewrite (proj2 (String.eqb_eq _ _) Hi). cbn [negb].
    symmetry. apply filter_none. intros y Hy. apply filter_In in Hy as [Hy _].
    apply negb_true_iff, String.eqb_neq. intros Hyi. apply Hx.
    rewrite Hi, <- Hyi. apply in_map. exact Hy.
  - cbn [List.filter]. rewrite IH.
    + destruct (active x); [|reflexivity]. cbn [List.filter].
      rewrite (proj2 (String.eqb_neq _ _) Hi). reflexivity.
    + exact Hnd.
    + intros y Hy. apply Hact. right. exact Hy.
Qed.

End ConfigPageFacts.

Section ConfigPageTheorems.
Import JsNumber JsValue ConfigService ConfigPage ConfigPageLists ConfigSpec.

(** X9.  [toggleItem] undoes itself: toggling the same item twice gives the
    configuration back, whatever the type and id are.  It changes no id and
    no level, and neither adds nor removes an item. *)
Theorem toggleItem_involutive (type id : option string) (config : VenueConfig.t) :
  let toggled := toggleItem type id config in
  toggleItem type id toggled = config /\
  map LocationOption.id (VenueConfig.locations toggled)
    = map LocationOption.id (VenueConfig.locations config) /\
  option_map (map CategoryOption.id) (VenueConfig.customCategories toggled)
    = option_map (map CategoryOption.id) (VenueConfig.customCategories config) /\
  option_map (map (fun p => (PriorityOption.id p, PriorityOption.level p)))
             (VenueConfig.customPriorities toggled)
    = option_map (map (fun p => (PriorityOption.id p, PriorityOption.level p)))
                 (VenueConfig.customPriorities config).
Proof.
  cbv zeta. unfold toggleItem.
  destruct type as [type|], id as [id|]; try (repeat split; reflexivity).
  destruct (truthy (Some type) && truthy (Some id)) eqn:Et;
    [|repeat split; reflexivity].
  destruct (String.eqb type "location") eqn:E1;
    [|destruct (String.eqb type "category") eqn:E2;
      [|destruct (String.eqb type "priority") eqn:E3]].
  - destruct (set_locations_fields
                (updateFound (fun l => String.eqb (LocationOption.id l) id)
                             toggleLocation (VenueConfig.locations config)) config)
      as (-> & -> & ->).
    rewrite set_locations_twice, updateFound_involutive, set_locations_same,
      (updateFound_map LocationOption.id); auto using toggleLocation_involutive.
  - destruct (set_customCategories_fields
                (option_map
                   (updateFound (fun c => String.eqb (CategoryOption.id c) id)
                                toggleCategory)
                   (VenueConfig.customCategories config)) config)
      as (-> & -> & ->).
    rewrite set_customCategories_twice.
    destruct (VenueConfig.customCategories config) as [l|] eqn:Ec; cbn [option_map].
    + rewrite updateFound_involutive, (updateFound_map CategoryOption.id), <- Ec,
        set_customCategories_same; auto using toggleCategory_involutive.
    + rewrite <- Ec, set_customCategories_same. auto.
  - destruct (set_customPriorities_fields
                (option_map
                   (updateFound (fun p => String.eqb (PriorityOption.id p) id)
                                togglePriority)
                   (VenueConfig.customPriorities config)) config)
      as (-> & -> & ->).
    rewrite set_customPriorities_twice.
    destruct (VenueConfig.customPriorities config) as [l|] eqn:Ec; cbn [option_map].
    + rewrite updateFound_involutive,
        (updateFound_map (fun p => (PriorityOption.id p, PriorityOption.level p))),
        <- Ec, set_customPriorities_same; auto using togglePriority_involutive.
    + rewrite <- Ec, set_customPriorities_same. auto.
  - auto.
Qed.

(** X10.  When the ids of the locations are distinct, switching off an
    active location takes exactly that location out of the list the forms
    offer ([getActiveLocations]); the other active locations stay, in
    order. *)
Theorem toggleItem_getActiveLocations (id : string) (config : VenueConfig.t) :
  id <> EmptyString ->
  List.NoDup (map LocationOption.id (VenueConfig.locations config)) ->
  (forall l, In l (VenueConfig.locations config) ->
             LocationOption.id l = id -> LocationOption.isActive l = true) ->
  getActiveLocations (toggleItem (Some "location"%string) (Some id) config)
  = List.filter (fun l => negb (String.eqb (LocationOption.id l) id))
                (getActiveLocations config).
Proof.
  intros Hid Hnd Hact. unfold toggleItem, getActiveLocations.
  destruct id as [|ch id]; [congruence|].
  cbn [truthy andb String.eqb Ascii.eqb Bool.eqb]. cbv iota.
  cbn [VenueConfig.locations set_locations].
  apply (filter_updateFound_off LocationOption.id); auto.
Qed.

Lemma toggleItem_getActiveLocations_witness :
  let hall :=
    {| LocationOption.id := "hall"; LocationOption.name := "Hall";
       LocationOption.description := None; LocationOption.capacity := None;
       LocationOption.amenities := None; LocationOption.isActive := true |} in
  let config := set_locations [hall] (sampleConfig None None) in
  getActiveLocations (toggleItem (Some "location"%string) (Some "hall"%string) config)
  = List.filter (fun l => negb (String.eqb (LocationOption.id l) "hall"))
                (getActiveLocations config).
Proof.
  cbv zeta.
  apply (toggleItem_getActiveLocations "hall"%string).
  - discriminate.
  - cbn. constructor; [simpl; tauto | constructor].
  - cbn. intros l [<- | []] _. reflexivity.
Defined.

(** Of two locations with the same id, only the first is switched. *)
Example toggleItem_duplicate_ids :
  let hall active :=
    {| LocationOption.id := "hall"; LocationOption.name := "Hall";
       LocationOption.description := None; LocationOption.capacity := None;
       LocationOption.amenities := None; LocationOption.isActive := active |} in
  let config := set_locations [hall true; hall true] (sampleConfig None None) in
  VenueConfig.locations (toggleItem (Some "location"%string) (Some "hall"%string) config)
  = [hall false; hall true] /\
  VenueConfig.locations
    (deleteItem true (Some "location"%string) (Some "hall"%string) config) = [].
Proof. split; reflexivity. Qed.

(** X11.  [deleteItem] is idempotent, and after it no item of the list has
    the deleted id, whichever list the type names; a list that is undefined
    stays undefined. *)
Theorem deleteItem_idempotent (confirmed : bool) (type id : option string)
    (config : VenueConfig.t) :
  let deleted := deleteItem confirmed type id config in
  deleteItem confirmed type id deleted = deleted /\
  (VenueConfig.customCategories config = None ->
   VenueConfig.customCategories deleted = None) /\
  (VenueConfig.customPriorities config = None ->
   VenueConfig.customPriorities deleted = None) /\
  forall i, confirmed = true -> id = Some i -> i <> EmptyString ->
    (type = Some "location"%string ->
     ~ In i (map LocationOption.id (VenueConfig.locations deleted))) /\
    (type = Some "category"%string ->
     ~ In i (map CategoryOption.id
                 (default [] (VenueConfig.customCategories deleted)))) /\
    (type = Some "priority"%string ->
     ~ In i (map PriorityOption.id
                 (default [] (VenueConfig.customPriorities deleted)))).
Proof.
  assert (Hgone : forall T (idOf : T -> string) i l,
             ~ In i (map idOf
                         (List.filter (fun x => negb (String.eqb (idOf x) i)) l))).
  { intros T idOf i l Hin. apply in_map_iff in Hin as (x & Hx & Hin).
    apply filter_In in Hin as [_ Hin]. apply negb_true_iff, String.eqb_neq in Hin.
    contradiction. }
  cbv zeta. split; [|split; [|split]].
  - unfold deleteItem. destruct confirmed; cbn [negb]; [|reflexivity].
    destruct type as [type|], id as [id|]; try reflexivity.
    destruct (truthy (Some type) && truthy (Some id)); [|reflexivity].
    destruct (String.eqb type "location");
      [|destruct (String.eqb type "category");
        [|destruct (String.eqb type "priority")]].
    + destruct (set_locations_fields
                  (List.filter (fun l => negb (String.eqb (LocationOption.id l) id))
                               (VenueConfig.locations config)) config) as (-> & _).
      rewrite set_locations_twice, filter_filter_same. reflexivity.
    + destruct (set_customCategories_fields
                  (option_map
                     (List.filter (fun c => negb (String.eqb (CategoryOption.id c) id)))
                     (VenueConfig.customCategories config)) config) as (_ & -> & _).
      rewrite set_customCategories_twice.
      destruct (VenueConfig.customCategories config); cbn [option_map];
        rewrite ?filter_filter_same; reflexivity.
    + destruct (set_customPriorities_fields
                  (option_map
                     (List.filter (fun p => negb (String.eqb (PriorityOption.id p) id)))
                     (VenueConfig.customPriorities config)) config) as (_ & _ & ->).
      rewrite set_customPriorities_twice.
      destruct (VenueConfig.customPriorities config); cbn [option_map];
        rewrite ?filter_filter_same; reflexivity.
    + reflexivity.
  - intros Hc. unfold deleteItem. destruct confirmed; cbn [negb]; [|exact Hc].
    destruct type as [type|], id as [id|]; try exact Hc.
    destruct (truthy (Some type) && truthy (Some id)); [|exact Hc].
    destruct (String.eqb type "location");
      [|destruct (String.eqb type "category");
        [|destruct (String.eqb type "priority")]]; try exact Hc.
    cbn [set_customCategories VenueConfig.customCategories]. rewrite Hc. reflexivity.
  - intros Hc. unfold deleteItem. destruct confirmed; cbn [negb]; [|exact Hc].
    destruct type as [type|], id as [id|]; try exact Hc.
    destruct (truthy (Some type) && truthy (Some id)); [|exact Hc].
    destruct (String.eqb type "location");
      [|destruct (String.eqb type "category");
        [|destruct (String.eqb type "priority")]]; try exact Hc.
    cbn [VenueConfig.set_customPriorities VenueConfig.customPriorities].
    rewrite Hc. reflexivity.
  - intros i -> -> Hi. destruct i as [|ch i]; [congruence|].
    split; [|split]; intros ->; unfold deleteItem;
      cbn [negb truthy andb String.eqb Ascii.eqb Bool.eqb]; cbv iota.
    + apply Hgone.
    + cbn [set_customCategories VenueConfig.customCategories].
      destruct (VenueConfig.customCategories config); cbn [option_map default];
        [apply Hgone | auto].
    + cbn [VenueConfig.set_customPriorities VenueConfig.customPriorities].
      destruct (VenueConfig.customPriorities config); cbn [option_map default];
        [apply Hgone | auto].
Qed.

(** X13.  Adding a category and then deleting it gives the categories back,
    provided no category had the new id; a list that was undefined is then
    the empty list. *)
Theorem deleteItem_after_addCategory (name : string) (now : Z)
    (config : VenueConfig.t) :
  name <> EmptyString ->
  ~ In ("category-" ++ pretty now)%string
       (map CategoryOption.id (default [] (VenueConfig.customCategories config))) ->
  deleteItem true (Some "category"%string) (Some ("category-" ++ pretty now)%string)
             (addCategory (Some name) now config)
  = set_customCategories (Some (default [] (VenueConfig.customCategories config)))
                         config.
Proof.
  intros Hname Hfresh. destruct name as [|ch name]; [congruence|].
  unfold deleteItem, addCategory.
  cbn [negb truthy andb String.eqb Ascii.eqb Bool.eqb String.append]. cbv iota.
  cbn [VenueConfig.customCategories set_customCategories option_map].
  rewrite set_customCategories_twice, List.filter_app. cbn [List.filter CategoryOption.id].
  rewrite String.eqb_refl. cbn [negb]. rewrite app_nil_r.
  rewrite filter_none; [reflexivity|].
  intros c Hc. apply negb_true_iff, String.eqb_neq. intros Heq.
  apply Hfresh. cbn [String.append] in Heq. rewrite <- Heq. apply in_map. exact Hc.
Qed.

Lemma deleteItem_after_addCategory_witness :
  deleteItem true (Some "category"%string)
             (Some ("category-" ++ pretty 1700000000000)%string)
             (addCategory (Some "Training"%string) 1700000000000
                          (sampleConfig None None))
  = set_customCategories (Some []) (sampleConfig None None).
Proof.
  apply (deleteItem_after_addCategory "Training" 1700000000000
           (sampleConfig None None)).
  - discriminate.
  - cbn. tauto.
Defined.

End ConfigPageTheorems.

(** * The lists the configuration page shares with the service *)
Section SharingFacts.
Import ConfigSharing.
Context {T : Type} (idOf : T -> string) (toggled : T -> T).

Lemma omap_valid (objects : list T) (item : T) (refs : list nat) :
  Forall (fun o => (o < length objects)%nat) refs ->
  omap (fun o => (objects ++ [item]) !! o) refs = omap (fun o => objects !! o) refs.
Proof.
  induction 1 as [|o refs Ho _ IH]; [reflexivity|].
  cbn. rewrite IH, lookup_app_l by exact Ho. reflexivity.
Qed.

Lemma omap_pushed (objects : list T) (item : T) (refs : list nat) :
  Forall (fun o => (o < length objects)%nat) refs ->
  omap (fun o => (objects ++ [item]) !! o) (refs ++ [length objects])
  = omap (fun o => objects !! o) refs ++ [item].
Proof.
  induction 1 as [|o refs Ho _ IH].
  - cbn. rewrite list_lookup_middle by reflexivity. reflexivity.
  - cbn [app]. cbn. rewrite lookup_app_l by exact Ho.
    destruct (objects !! o); cbn; rewrite IH; reflexivity.
Qed.

Lemma wellFormed_array (w : World T) array :
  wellFormed w ->
  Forall (fun o => (o < length (objects (heap w)))%nat)
         (default [] (arrays (heap w) !! array)).
Proof.
  intros [_ H]. destruct (arrays (heap w) !! array) as [refs|] eqn:E; [|constructor].
  exact (Forall_lookup_1 _ _ _ _ H E).
Qed.

Lemma serviceList_act (a : Action T) (w : World T) :
  serviceList (act idOf toggled a w) = serviceList w.
Proof.
  destruct a as [item|id|id]; cbn [act]; unfold addItem, toggleItem, deleteItem.
  - destruct (pageList w); reflexivity.
  - destruct (negb (ConfigPage.truthy (Some id))); [reflexivity|].
    destruct (pageList w); [|reflexivity].
    destruct (find idOf (heap w) id _); reflexivity.
  - destruct (negb (ConfigPage.truthy (Some id))); [reflexivity|].
    destruct (pageList w); reflexivity.
Qed.

Lemma Forall_valid_weaken (n m : nat) (refs : list nat) :
  (n <= m)%nat -> Forall (fun o => (o < n)%nat) refs -> Forall (fun o => (o < m)%nat) refs.
Proof.
  intros Hnm H. apply (List.Forall_impl _ (P := fun o => (o < n)%nat)); [|exact H].
  intros o Ho. lia.
Qed.

Lemma wellFormed_act (a : Action T) (w : World T) :
  wellFormed w -> wellFormed (act idOf toggled a w).
Proof.
  intros Hwf. pose proof Hwf as [Hrefs Hobjs].
  destruct a as [item|id|id]; cbn [act].
  - unfold addItem. cbv zeta. destruct (pageList w) as [p|] eqn:Ep.
    + split; cbn [heap serviceList pageList arrays objects].
      * intros array [Harr | Harr]; rewrite length_insert; apply Hrefs;
          [left; exact Harr | right; congruence].
      * rewrite length_app. cbn [length].
        apply Forall_insert.
        -- apply (List.Forall_impl _ (P := Forall (fun o => (o < length (objects (heap w)))%nat)));
             [|exact Hobjs].
           intros refs. apply Forall_valid_weaken. lia.
        -- apply Forall_app. split.
           ++ apply (Forall_valid_weaken (length (objects (heap w)))); [lia|].
              apply wellFormed_array, Hwf.
           ++ repeat constructor. lia.
    + split; cbn [heap serviceList pageList arrays objects].
      * intros array [Harr | Harr]; rewrite length_app; cbn [length].
        -- pose proof (Hrefs array (or_introl Harr)). lia.
        -- injection Harr as <-. lia.
      * rewrite length_app. cbn [length]. apply Forall_app. split.
        -- apply (List.Forall_impl _ (P := Forall (fun o => (o < length (objects (heap w)))%nat)));
             [|exact Hobjs].
           intros refs. apply Forall_valid_weaken. lia.
        -- repeat constructor. lia.
  - unfold toggleItem. cbv zeta.
    destruct (negb (ConfigPage.truthy (Some id))); [exact Hwf|].
    destruct (pageList w) as [p|] eqn:Ep; [|exact Hwf].
    destruct (find idOf (heap w) id _) as [o|]; [|exact Hwf].
    split; cbn [heap serviceList pageList arrays objects].
    + intros array [Harr | Harr]; apply Hrefs;
        [left; exact Harr | right; congruence].
    + rewrite length_alter. exact Hobjs.
  - unfold deleteItem. cbv zeta.
    destruct (negb (ConfigPage.truthy (Some id))); [exact Hwf|].
    destruct (pageList w) as [p|] eqn:Ep; [|exact Hwf].
    split; cbn [heap serviceList pageList arrays objects].
    + intros array [Harr | Harr]; rewrite length_app; cbn [length].
      * pose proof (Hrefs array (or_introl Harr)). lia.
      * injection Harr as <-. lia.
    + apply Forall_app. split; [exact Hobjs|]. constructor; [|constructor].
      apply List.Forall_forall. intros o Ho. apply filter_In in Ho as [Ho _].
      exact (proj1 (List.Forall_forall _ _) (wellFormed_array w p Hwf) o Ho).
Qed.

Lemma wellFormed_run (actions : list (Action T)) (w : World T) :
  wellFormed w -> wellFormed (run idOf toggled actions w).
Proof.
  revert w. induction actions as [|a actions IH]; intros w Hwf; [exact Hwf|].
  cbn [run fold_left]. apply IH, wellFormed_act, Hwf.
Qed.

(** The page goes on sharing the array until it deletes an item. *)
Lemma shares_act (a : Action T) (w : World T) :
  wellFormed w ->
  shares (act idOf toggled a w) = shares w && negb (isDelete a).
Proof.
  intros [Hrefs _]. unfold shares. rewrite serviceList_act.
  destruct a as [item|id|id]; cbn [act isDelete negb];
    unfold addItem, toggleItem, deleteItem; cbv zeta.
  - destruct (pageList w) as [p|] eqn:Ep; cbn [pageList].
    + destruct (serviceList w); rewrite ?andb_true_r; reflexivity.
    + destruct (serviceList w) as [s|] eqn:Es; [|reflexivity].
      pose proof (Hrefs s (or_introl eq_refl)) as Hs.
      destruct (Nat.eqb_spec (length (arrays (heap w))) s); [lia | reflexivity].
  - rewrite andb_true_r.
    destruct (negb (ConfigPage.truthy (Some id))); [reflexivity|].
    destruct (pageList w) as [p|] eqn:Ep; [|rewrite ?Ep; reflexivity].
    destruct (find idOf (heap w) id _); cbn [pageList]; rewrite ?Ep; reflexivity.
  - destruct (ConfigPage.truthy (Some id)); cbn [negb];
      [|rewrite andb_true_r; reflexivity].
    destruct (pageList w) as [p|] eqn:Ep; cbn [pageList].
    + destruct (serviceList w) as [s|] eqn:Es; [|reflexivity].
      pose proof (Hrefs s (or_introl eq_refl)) as Hs. rewrite ?andb_false_r.
      destruct (Nat.eqb_spec (length (arrays (heap w))) s); [lia | reflexivity].
    + rewrite ?Ep. reflexivity.
Qed.

Lemma shares_run (actions : list (Action T)) (w : World T) :
  wellFormed w ->
  shares (run idOf toggled actions w)
  = shares w && forallb (fun a => negb (isDelete a)) actions.
Proof.
  revert w. induction actions as [|a actions IH]; intros w Hwf.
  - cbn. rewrite andb_true_r. reflexivity.
  - cbn [run fold_left forallb].
    change (fold_left (fun w a => act idOf toggled a w) actions (act idOf toggled a w))
      with (run idOf toggled actions (act idOf toggled a w)).
    rewrite IH by (apply wellFormed_act, Hwf).
    rewrite shares_act by exact Hwf. rewrite andb_assoc. reflexivity.
Qed.

(** What a new item changes for the page and for the service. *)
Lemma addItem_items (item : T) (w : World T) :
  wellFormed w ->
  pageItems (addItem item w) = pageItems w ++ [item] /\
  serviceItems (addItem item w)
  = if shares w then serviceItems w ++ [item] else serviceItems w.
Proof.
  intros Hwf. pose proof Hwf as [Hrefs Hobjs].
  unfold pageItems, serviceItems, shares, addItem. cbv zeta.
  destruct (pageList w) as [p|] eqn:Ep; cbn [heap serviceList pageList items].
  - pose proof (Hrefs p (or_intror eq_refl)) as Hp.
    pose proof (wellFormed_array w p Hwf) as Hvalid.
    assert (Hpage : elements
                      {| objects := objects (heap w) ++ [item];
                         arrays := <[p := default [] (arrays (heap w) !! p)
                                          ++ [length (objects (heap w))]]>
                                     (arrays (heap w)) |} p
                    = elements (heap w) p ++ [item]).
    { unfold elements. cbn [objects arrays].
      rewrite list_lookup_insert_eq by exact Hp. cbn [default from_option Datatypes.id].
      apply omap_pushed. exact Hvalid. }
    split; [exact Hpage|].
    destruct (serviceList w) as [s|] eqn:Es; cbn [items]; [|reflexivity].
    destruct (Nat.eqb_spec p s) as [<- | Hne]; [exact Hpage|].
    unfold elements. cbn [objects arrays].
    rewrite list_lookup_insert_ne by exact Hne.
    apply omap_valid, wellFormed_array, Hwf.
  - split.
    + unfold elements. cbn [objects arrays].
      rewrite list_lookup_middle by reflexivity. cbn [default from_option Datatypes.id].
      cbn. rewrite list_lookup_middle by reflexivity. reflexivity.
    + destruct (serviceList w) as [s|] eqn:Es; cbn [items]; [|reflexivity].
      pose proof (Hrefs s (or_introl eq_refl)) as Hs.
      unfold elements. cbn [objects arrays].
      rewrite lookup_app_l by exact Hs.
      apply omap_valid, wellFormed_array, Hwf.
Qed.

End SharingFacts.

Section SharingTheorems.
Import ConfigSharing.

(** X12.  An item added on the configuration page reaches the service
    exactly as long as the page works on the service's own array.  After
    [render()], and after any additions, toggles and deletions on the page,
    a new item is always last in the page's list; it is last in the list the
    getters of the service read when the list was defined at [render()] and
    no item has been deleted on the page since, and otherwise the service's
    list is as it was: [deleteItem] gives the page an array of its own, and
    so does the first addition to a list that was [undefined]. *)
Theorem added_item_reaches_service {T : Type} (idOf : T -> string)
    (toggled : T -> T) (w0 : World T) (actions : list (Action T)) (item : T) :
  wellFormed w0 ->
  let w := run idOf toggled actions (render w0) in
  let w' := addItem item w in
  pageItems w' = pageItems w ++ [item] /\
  serviceItems w' = (if shares w then serviceItems w ++ [item] else serviceItems w) /\
  (shares w = true
   <-> is_Some (serviceList w0)
       /\ Forall (fun a => isDelete a = false) actions).
Proof.
  intros Hwf0. cbv zeta.
  assert (Hwf : wellFormed (render w0)).
  { destruct Hwf0 as [Hrefs Hobjs]. split; [|exact Hobjs].
    intros array [H | H]; apply Hrefs; left; exact H. }
  destruct (addItem_items item (run idOf toggled actions (render w0))
              (wellFormed_run idOf toggled actions _ Hwf)) as [Hpage Hservice].
  split; [exact Hpage|]. split; [exact Hservice|].
  rewrite (shares_run idOf toggled actions _ Hwf), andb_true_iff, forallb_forall,
    List.Forall_forall.
  assert (Hshare : shares (render w0) = true <-> is_Some (serviceList w0)).
  { unfold shares, render. cbn [pageList serviceList].
    destruct (serviceList w0) as [s|].
    - rewrite Nat.eqb_refl. split; eauto.
    - split; [discriminate | intros [x Hx]; discriminate Hx]. }
  rewrite Hshare. split; intros [H1 H2]; (split; [exact H1|]); intros a Ha.
  - apply negb_true_iff, H2, Ha.
  - apply negb_true_iff, H2, Ha.
Qed.

Lemma added_item_reaches_service_witness :
  let w0 := {| heap := {| objects := ["Hall"%string]; arrays := [[0%nat]] |};
               serviceList := Some 0%nat; pageList := None |} in
  let w := run (fun x : string => x) (fun x => x) [Toggle "Hall"%string] (render w0) in
  serviceItems (addItem "Garden"%string w) = ["Hall"; "Garden"]%string.
Proof.
  cbv zeta.
  destruct (added_item_reaches_service (fun x : string => x) (fun x => x)
              {| heap := {| objects := ["Hall"%string]; arrays := [[0%nat]] |};
                 serviceList := Some 0%nat; pageList := None |}
              [Toggle "Hall"%string] "Garden"%string) as (_ & H & _).
  - split.
    + intros array [H | H]; [injection H as <-; cbn; lia | discriminate H].
    + repeat constructor.
  - rewrite H. reflexivity.
Defined.

(** Locations on the page and in the service: a location added after
    [render()] is offered by the service, a toggle on the page reaches the
    service, and after a deletion on the page the service still has the
    deleted location and does not get the next new one. *)
Example added_location_after_delete :
  let location name active :=
    {| LocationOption.id := name; LocationOption.name := name;
       LocationOption.description := None; LocationOption.capacity := None;
       LocationOption.amenities := None; LocationOption.isActive := active |} in
  let names w := map LocationOption.name
                     (List.filter LocationOption.isActive w) in
  let w0 := {| heap := {| objects := [location "Hall"%string true];
                          arrays := [[0%nat]] |};
               serviceList := Some 0%nat; pageList := None |} in
  let go := run LocationOption.id ConfigPageLists.toggleLocation in
  let w1 := go [Add (location "Garden"%string true)] (render w0) in
  let w2 := go [Toggle "Hall"%string] w1 in
  let w3 := go [Delete "Garden"%string; Add (location "Roof"%string true)] w2 in
  names (serviceItems w1) = ["Hall"; "Garden"]%string /\
  names (serviceItems w2) = ["Garden"]%string /\
  names (serviceItems w3) = ["Garden"]%string /\
  map LocationOption.name (pageItems w3) = ["Hall"; "Roof"]%string /\
  names (serviceItems (go [Toggle "Hall"%string] w3)) = ["Hall"; "Garden"]%string.
Proof. cbv zeta. repeat split; reflexivity. Qed.

End SharingTheorems.

(** * Further properties of the configuration service *)
Section ServiceMoreFacts.
Import JsNumber JsValue ConfigService ConfigPage ConfigPageLists ConfigSpec.

Lemma getProp_spread_override (a : gmap string value) (b : value) k v :
  ownProps b !! k = Some v -> getProp (spread a b) k = v.
Proof.
  intros H. unfold getProp. rewrite (spread_override a b k v H). reflexivity.
Qed.

Lemma spread_defined (a : gmap string value) (b : value) k :
  is_Some (a !! k) -> is_Some (spread a b !! k).
Proof.
  intros [v Hv]. rewrite spread_lookup.
  destruct (ownProps b !! k); eauto.
Qed.

End ServiceMoreFacts.

Section ServiceMoreTheorems.
Import JsNumber JsValue ConfigService ConfigPage ConfigPageLists ConfigSpec.

(** X14.  [saveConfig] of the configuration page stores the values of the
    form over the loaded configuration when the backend accepts the update
    and reports failure, leaving the configuration as it was, when it does
    not: the form always supplies [features], so nothing else can make it
    fail.  The update has no entry for the three lists and the default
    category and priority, which keep their stored values. *)
Theorem saveConfig_outcome (parseFloat : string -> value) (backend : Backend)
    (form : Form) (current : gmap string value) :
  let merged := spread current (formUpdates parseFloat form) in
  saveConfig parseFloat backend form (Some current)
    = (if accepts backend then (Returned true, Some merged)
       else (Returned false, Some current)) /\
  merged !! "companyName"%string = Some (VString (company_name form)) /\
  merged !! "firstDayOfWeek"%string
    = Some (VNumber (parseInt (first_day_week form))) /\
  (forall k, In k ["locations"; "customCategories"; "customPriorities";
                   "defaultCategory"; "defaultPriority"]%string ->
             merged !! k = current !! k) /\
  (forall k, is_Some (current !! k) -> is_Some (merged !! k)).
Proof.
  cbv zeta. split; [|split; [|split; [|split]]].
  - unfold saveConfig. rewrite updateConfig_loaded.
    assert (Hf : hasFeatures (spread current (formUpdates parseFloat form)) = true).
    { unfold hasFeatures.
      erewrite getProp_spread_override; [|reflexivity]. reflexivity. }
    rewrite Hf, andb_true_r. destruct (accepts backend); reflexivity.
  - apply spread_override. reflexivity.
  - apply spread_override. reflexivity.
  - intros k Hk. apply spread_keep.
    cbn [In] in Hk.
    destruct Hk as [<- | [<- | [<- | [<- | [<- | []]]]]]; reflexivity.
  - intros k. apply spread_defined.
Qed.

(** X15.  A first load that is interrupted after the configuration row was
    read leaves that configuration stored: the call throws, and every later
    call finds the service loaded and works on the stored configuration
    without asking the backend again. *)
Theorem interrupted_load_is_kept (backend later : Backend)
    (c : gmap string value) :
  firstLoad backend = LoadInterrupted c ->
  getConfig backend None = (Thrown, Some c) /\
  getConfig later (Some c) = (Returned c, Some c) /\
  (forall updates, updateConfig backend updates None = (Thrown, Some c)) /\
  (forall JSON_parse text,
     importConfig JSON_parse backend text None
     = (Returned false, match JSON_parse text with
                        | Some _ => Some c
                        | None => None
                        end)).
Proof.
  intros Hload. split; [|split; [|split]].
  - unfold getConfig, currentConfig, ensureLoaded, bind, getState, setConfig, throw.
    rewrite Hload. reflexivity.
  - apply getConfig_loaded.
  - intros updates.
    unfold updateConfig, currentConfig, ensureLoaded, bind, getState, setConfig,
      throw.
    rewrite Hload. reflexivity.
  - intros JSON_parse text. unfold importConfig.
    destruct (JSON_parse text); [|reflexivity].
    unfold updateConfig, currentConfig, ensureLoaded, bind, getState, setConfig,
      throw.
    rewrite Hload. reflexivity.
Qed.

Lemma interrupted_load_is_kept_witness :
  let c := Encode.config Defaults.DEFAULT_CONFIG in
  let backend :=
    {| firstLoad := LoadInterrupted c; venueIdAnswered := true; putOk := true |} in
  getConfig backend None = (Thrown, Some c) /\
  getConfig backend (Some c) = (Returned c, Some c).
Proof.
  cbv zeta.
  destruct (interrupted_load_is_kept
              {| firstLoad := LoadInterrupted (Encode.config Defaults.DEFAULT_CONFIG);
                 venueIdAnswered := true; putOk := true |}
              {| firstLoad := LoadInterrupted (Encode.config Defaults.DEFAULT_CONFIG);
                 venueIdAnswered := true; putOk := true |}
              (Encode.config Defaults.DEFAULT_CONFIG) eq_refl) as (H1 & H2 & _).
  split; [exact H1 | exact H2].
Defined.

(** X16.  No call of the service removes a property from the stored
    configuration or unloads it: after [updateConfig] and [importConfig],
    whatever their outcome, every property the configuration had is still
    there (with the value of the update, if the update was stored and has
    one). *)
Theorem updates_keep_properties (JSON_parse : string -> option value)
    (backend : Backend) (updates : value) (text : string)
    (current : gmap string value) (k : string) :
  is_Some (current !! k) ->
  (exists new, snd (updateConfig backend updates (Some current)) = Some new /\
               is_Some (new !! k)) /\
  (exists new, snd (importConfig JSON_parse backend text (Some current)) = Some new /\
               is_Some (new !! k)).
Proof.
  intros Hk. split.
  - rewrite updateConfig_loaded.
    destruct (accepts backend && hasFeatures (spread current updates)); cbn [snd];
      eexists; split; try reflexivity; auto using spread_defined.
  - rewrite importConfig_loaded. destruct (JSON_parse text) as [doc|].
    + destruct (accepts backend && hasFeatures (spread current doc)); cbn [snd];
        eexists; split; try reflexivity; auto using spread_defined.
    + eexists; split; [reflexivity | exact Hk].
Qed.

Lemma updates_keep_properties_witness :
  exists new,
    snd (updateConfig
           {| firstLoad := LoadRefused; venueIdAnswered := true; putOk := true |}
           (object [("logo", VUndefined)]%string)
           (Some (Encode.config Defaults.DEFAULT_CONFIG))) = Some new /\
    is_Some (new !! "logo"%string).
Proof.
  apply (updates_keep_properties (fun _ => None)
           {| firstLoad := LoadRefused; venueIdAnswered := true; putOk := true |}
           (object [("logo", VUndefined)]%string) EmptyString
           (Encode.config Defaults.DEFAULT_CONFIG) "logo"%string).
  vm_compute. eauto.
Defined.

End ServiceMoreTheorems.

(** * Properties of the configuration service over [localStorage] *)
Section LocalConfigFacts.
Import JsNumber JsValue JsArray ConfigService LocalConfigStore LocalConfigSpec ConfigSpec.

Lemma complete_spread a b : complete a -> complete (spread a b).
Proof. intros H k Hk. apply spread_defined, H, Hk. Qed.

Lemma complete_DEFAULT_CONFIG : complete DEFAULT_CONFIG.
Proof. intros k Hk. exact Hk. Qed.

Lemma complete_copy : complete (spread ∅ (VObject DEFAULT_CONFIG)).
Proof. rewrite spread_copy. apply complete_DEFAULT_CONFIG. Qed.

Lemma spread_complete c : complete c -> spread DEFAULT_CONFIG (VObject c) = c.
Proof.
  intros H. apply map_eq. intros k. rewrite spread_lookup. cbn [ownProps].
  destruct (c !! k) as [x|] eqn:E; [reflexivity|].
  destruct (DEFAULT_CONFIG !! k) as [y|] eqn:D; [|reflexivity].
  destruct (H k (ex_intro _ y D)) as [z Hz]. congruence.
Qed.

Context (JSON_parse : string -> option value)
        (JSON_stringify : value -> string)
        (writable : bool).

Lemma loadConfig_complete stored : complete (loadConfig JSON_parse stored).
Proof.
  unfold loadConfig. destruct stored as [[|c s]|]; try apply complete_copy.
  destruct (JSON_parse (String c s)).
  - apply complete_spread, complete_DEFAULT_CONFIG.
  - apply complete_copy.
Qed.

Lemma config_saveConfig s :
  config (saveConfig JSON_stringify writable s) = config s.
Proof. unfold saveConfig. destruct writable; reflexivity. Qed.

Lemma call_complete c s :
  complete (config s) ->
  complete (config (call JSON_parse JSON_stringify writable c s)).
Proof.
  intros H. destruct c as [updates| |text]; cbn [call].
  - unfold updateConfig. rewrite config_saveConfig. cbn [config].
    apply complete_spread, H.
  - unfold resetToDefaults. rewrite config_saveConfig. apply complete_copy.
  - unfold importConfig. destruct (JSON_parse text) as [doc|]; [|exact H].
    destruct (isObject doc); [|exact H]. cbn [snd].
    rewrite config_saveConfig. cbn [config].
    apply complete_spread, complete_DEFAULT_CONFIG.
Qed.

Lemma calls_complete cs s :
  complete (config s) ->
  complete (config (calls JSON_parse JSON_stringify writable cs s)).
Proof.
  revert s. induction cs as [|c cs IH]; intros s H; [exact H|].
  cbn [calls fold_left]. apply IH, call_complete, H.
Qed.

Lemma jsonClean_image v : jsonClean v -> jsonImage v = v.
Proof. intros [_ H]. exact H. Qed.

(** A new service reads back the configuration a writable service saved. *)
Lemma new_saved c :
  complete c -> jsonClean (VObject c) ->
  JSON_parse (JSON_stringify (VObject c)) = Some (jsonImage (VObject c)) ->
  JSON_stringify (VObject c) <> EmptyString ->
  loadConfig JSON_parse (Some (JSON_stringify (VObject c))) = c.
Proof.
  intros Hc Hclean Hparse Hne. unfold loadConfig.
  destruct (JSON_stringify (VObject c)) as [|ch text] eqn:E; [congruence|].
  rewrite Hparse, (jsonClean_image _ Hclean). apply spread_complete, Hc.
Qed.

End LocalConfigFacts.

Section SortMapFacts.
Import JsNumber JsArray.
Context {A B : Type} (compareA : A -> A -> number) (compareB : B -> B -> number)
        (f : A -> B).

Lemma insertSorted_map x l :
  (forall y, In y l -> sortCompare compareB (f x) (f y) = sortCompare compareA x y) ->
  insertSorted compareB (f x) (map f l) = map f (insertSorted compareA x l).
Proof.
  induction l as [|y l IH]; intros H; [reflexivity|].
  cbn [map insertSorted]. rewrite (H y (or_introl eq_refl)).
  destruct (sortCompare compareA x y <=? 0); [reflexivity|].
  cbn [map]. rewrite IH; [reflexivity|]. intros z Hz. apply H. right. exact Hz.
Qed.

(** Sorting the images by a comparator that agrees with the one of the
    sources gives the images of the sorted sources. *)
Lemma sort_map l :
  (forall x y, In x l -> In y l ->
               sortCompare compareB (f x) (f y) = sortCompare compareA x y) ->
  sort compareB (map f l) = map f (sort compareA l).
Proof.
  induction l as [|x l IH]; intros H; [reflexivity|].
  cbn [map]. change (sort compareB (f x :: map f l))
    with (insertSorted compareB (f x) (sort compareB (map f l))).
  rewrite IH by (intros y z Hy Hz; apply H; right; assumption).
  change (sort compareA (x :: l)) with (insertSorted compareA x (sort compareA l)).
  apply insertSorted_map. intros y Hy. apply sort_In in Hy.
  apply H; [left; reflexivity | right; exact Hy].
Qed.

End SortMapFacts.

Section LocalPriorityFacts.
Import JsNumber JsArray ConfigService LocalConfigStore LocalConfigSpec ConfigSpec.

Lemma find_by_id (l : list PriorityOption.t) p :
  List.NoDup (map PriorityOption.id l) -> In p l ->
  List.find (fun q => String.eqb (PriorityOption.id q) (PriorityOption.id p)) l
  = Some p.
Proof.
  induction l as [|q l IH]; intros Hnd Hin; [contradiction|].
  cbn [map] in Hnd. apply List.NoDup_cons_iff in Hnd as [Hq Hnd].
  cbn [List.find]. destruct Hin as [-> | Hin].
  - rewrite String.eqb_refl. reflexivity.
  - destruct (String.eqb_spec (PriorityOption.id q) (PriorityOption.id p)) as [E|E].
    + exfalso. apply Hq. rewrite E. apply in_map. exact Hin.
    + apply IH; assumption.
Qed.

Lemma levelOr5_stored cfg l p :
  VenueConfig.customPriorities cfg = Some l ->
  List.NoDup (map PriorityOption.id l) -> In p l -> properLevel p ->
  levelOr5 cfg (PriorityOption.id p) = PriorityOption.level p.
Proof.
  intros Hc Hnd Hin (n & Hn & Hn0). unfold levelOr5.
  rewrite Hc, (find_by_id l p Hnd Hin), Hn. destruct n; congruence.
Qed.

End LocalPriorityFacts.

Section LocalConfigTheorems.
Import JsNumber JsValue JsArray ConfigService LocalConfigStore LocalConfigSpec ConfigSpec.

(** X17.  [importConfig] of the service over [localStorage] accepts every
    text that parses to an object (or array) and then replaces the
    configuration by the document laid over [DEFAULT_CONFIG]: the top-level
    properties the document lacks get their default values, whatever the
    current configuration holds.  Any other text gives [false] and changes
    neither the configuration nor the stored item. *)
Theorem local_importConfig_outcome
    (JSON_parse : string -> option value) (JSON_stringify : value -> string)
    (writable : bool) (text : string) (s : Service) :
  let result := importConfig JSON_parse JSON_stringify writable text s in
  match JSON_parse text with
  | Some doc =>
      if isObject doc then
        let cfg := spread DEFAULT_CONFIG doc in
        fst result = true /\
        config (snd result) = cfg /\
        (forall k v, ownProps doc !! k = Some v -> cfg !! k = Some v) /\
        (forall k, ownProps doc !! k = None -> cfg !! k = DEFAULT_CONFIG !! k) /\
        stored (snd result)
          = (if writable then Some (JSON_stringify (VObject cfg)) else stored s)
      else result = (false, s)
  | None => result = (false, s)
  end.
Proof.
  cbv zeta. unfold importConfig.
  destruct (JSON_parse text) as [doc|]; [|reflexivity].
  destruct (isObject doc); [|reflexivity]. cbn [fst snd].
  rewrite config_saveConfig. cbn [config].
  split; [reflexivity|]. split; [reflexivity|].
  split; [intros k v; apply spread_override|].
  split; [intros k; apply spread_keep|].
  unfold saveConfig. destruct writable; reflexivity.
Qed.

(** X18.  Whatever item the service starts from and whatever calls of
    [updateConfig], [resetToDefaults] and [importConfig] follow, the
    configuration has every property of [DEFAULT_CONFIG]; a configuration
    that [getConfig] hands out is a copy equal to the stored one. *)
Theorem local_config_is_complete
    (JSON_parse : string -> option value) (JSON_stringify : value -> string)
    (writable : bool) (stored : option string) (cs : list Call) :
  let s := calls JSON_parse JSON_stringify writable cs (new JSON_parse stored) in
  complete (config s) /\ getConfig s = config s.
Proof.
  cbv zeta. split.
  - apply calls_complete. cbn [new config]. apply loadConfig_complete.
  - apply spread_copy.
Qed.

(** X19.  A configuration that [updateConfig] saved is the one a new
    instance of the service loads: when storage is writable and the
    configuration is one JSON represents as it is, constructing the service
    again from the stored item gives the same service state. *)
Theorem local_config_survives_reload
    (JSON_parse : string -> option value) (JSON_stringify : value -> string)
    (stored0 : option string) (cs : list Call) (updates : value) :
  let s := updateConfig JSON_stringify true updates
             (calls JSON_parse JSON_stringify true cs (new JSON_parse stored0)) in
  jsonClean (VObject (config s)) ->
  JSON_parse (JSON_stringify (VObject (config s)))
    = Some (jsonImage (VObject (config s))) ->
  JSON_stringify (VObject (config s)) <> EmptyString ->
  new JSON_parse (stored s) = s.
Proof.
  cbv zeta. intros Hclean Hparse Hne.
  set (before := calls JSON_parse JSON_stringify true cs (new JSON_parse stored0)) in *.
  assert (Hc : complete (config (updateConfig JSON_stringify true updates before))).
  { apply (call_complete JSON_parse JSON_stringify true (CallUpdate updates)).
    apply calls_complete. cbn [new config]. apply loadConfig_complete. }
  unfold updateConfig, saveConfig in *. cbn [config stored] in *.
  unfold new. rewrite (new_saved JSON_parse JSON_stringify _ Hc Hclean Hparse Hne).
  reflexivity.
Qed.

Lemma local_config_survives_reload_witness :
  let JSON_stringify := fun _ : value => "saved"%string in
  let cfg := spread DEFAULT_CONFIG (object [("companyName", VString "Acme Halls")]%string) in
  let JSON_parse := parseOnly "saved" (VObject cfg) in
  let s := updateConfig JSON_stringify true
             (object [("companyName", VString "Acme Halls")]%string)
             (calls JSON_parse JSON_stringify true [] (new JSON_parse None)) in
  new JSON_parse (stored s) = s.
Proof.
  cbv zeta.
  apply (local_config_survives_reload
           (parseOnly "saved"
              (VObject (spread DEFAULT_CONFIG
                          (object [("companyName", VString "Acme Halls")]%string))))
           (fun _ => "saved"%string) None []
           (object [("companyName", VString "Acme Halls")]%string)).
  - split; [discriminate | vm_compute; reflexivity].
  - vm_compute. reflexivity.
  - discriminate.
Defined.

(** X20.  [getAllPriorities] of the service over [localStorage]: when the
    custom priorities have distinct ids and levels that are numbers other
    than 0, the result is the three defaults followed by the active custom
    priorities in the order of the stable sort by level, highest first; it
    is the list of the service over the HTTP API with the inactive entries
    left out. *)
Theorem local_getAllPriorities_order (cfg : VenueConfig.t) :
  let custom := default [] (VenueConfig.customPriorities cfg) in
  List.NoDup (map PriorityOption.id custom) ->
  Forall properLevel custom ->
  LocalConfigStore.getAllPriorities cfg
  = defaultPriorities
    ++ map priorityChoice
         (List.filter (fun p => PriorityOption.isActive p)
                      (sort byLevelDescending custom)) /\
  fst (ConfigService.getAllPriorities cfg)
  = map Literal defaultPriorities ++ map Stored (sort byLevelDescending custom).
Proof.
  cbv zeta. intros Hnd Hlev. split; [|apply getAllPriorities_shape].
  unfold LocalConfigStore.getAllPriorities. cbv zeta. apply (f_equal (app _)).
  assert (Hnum : Forall (fun p => PriorityOption.level p <> NaN)
                        (default [] (VenueConfig.customPriorities cfg))).
  { apply (List.Forall_impl _ (P := properLevel)); [|exact Hlev].
    intros p (n & Hn & _). congruence. }
  rewrite (filter_sort byLevelDescending _ _ byLevelDescending_key _ _ Hnum).
  change (fun priority : PriorityOption.t =>
            {| id := PriorityOption.id priority; name := PriorityOption.name priority;
               color := PriorityOption.color priority |}) with priorityChoice.
  apply sort_map. intros x y Hx Hy.
  apply filter_In in Hx as [Hx _]. apply filter_In in Hy as [Hy _].
  destruct (VenueConfig.customPriorities cfg) as [l|] eqn:Ec; [|contradiction].
  cbn [default from_option Datatypes.id] in *.
  unfold sortCompare, byLevelDescending. cbn [id priorityChoice].
  rewrite (levelOr5_stored cfg l x Ec Hnd Hx), (levelOr5_stored cfg l y Ec Hnd Hy);
    [reflexivity| |].
  - exact (proj1 (List.Forall_forall _ _) Hlev y Hy).
  - exact (proj1 (List.Forall_forall _ _) Hlev x Hx).
Qed.

Lemma local_getAllPriorities_order_witness :
  let cfg := sampleConfig None (Some [samplePriority "c" 3; samplePriority "a" 9;
                                      samplePriority "b" 5]) in
  map (fun c => id c) (LocalConfigStore.getAllPriorities cfg)
  = ["high"; "medium"; "low"; "a"; "b"; "c"]%string.
Proof.
  cbv zeta.
  destruct (local_getAllPriorities_order
              (sampleConfig None (Some [samplePriority "c" 3; samplePriority "a" 9;
                                        samplePriority "b" 5]))) as [H _].
  - cbn. repeat constructor; cbn; intuition discriminate.
  - repeat constructor; eexists; (split; [reflexivity | discriminate]).
  - rewrite H. reflexivity.
Defined.

(** A level of 0 counts as 5 in the service over [localStorage], and an
    inactive priority is left out; the service over the API sorts by the
    stored levels and keeps it. *)
Example local_getAllPriorities_level_0 :
  let off := {| PriorityOption.id := "off"; PriorityOption.name := "off";
                PriorityOption.color := "#6b7280"; PriorityOption.level := Num 9;
                PriorityOption.isActive := false |} in
  let cfg := sampleConfig None (Some [samplePriority "a" 3; samplePriority "z" 0; off]) in
  map (fun c => id c) (LocalConfigStore.getAllPriorities cfg)
  = ["high"; "medium"; "low"; "z"; "a"]%string /\
  fst (ConfigService.getAllPriorities cfg)
  = map Literal defaultPriorities
    ++ map Stored [off; samplePriority "a" 3; samplePriority "z" 0].
Proof. split; reflexivity. Qed.

End LocalConfigTheorems.

(** * Properties of the event storage over [localStorage] *)
Section LocalEventFacts.
Import JsDate JsArray JsNumber EventSpec LocalEventStorage LocalEventSpec.

Lemma omap_ext {A B} (f g : A -> option B) l :
  (forall x, In x l -> f x = g x) -> omap f l = omap g l.
Proof.
  induction l as [|x l IH]; intros H; [reflexivity|]. cbn.
  rewrite (H x (or_introl eq_refl)), IH; [reflexivity|].
  intros y Hy. apply H. right. exact Hy.
Qed.

Lemma omap_app_list {A B} (f : A -> option B) l1 l2 :
  omap f (l1 ++ l2) = omap f l1 ++ omap f l2.
Proof.
  induction l1 as [|x l1 IH]; [reflexivity|]. cbn. rewrite IH.
  destruct (f x); reflexivity.
Qed.

(** Leaving out the keys on which [f] yields elements that fail [q]. *)
Lemma omap_filter {A B} (f : A -> option B) (p : A -> bool) (q : B -> bool) l :
  (forall x y, In x l -> f x = Some y -> q y = p x) ->
  omap f (List.filter p l) = List.filter q (omap f l).
Proof.
  induction l as [|x l IH]; intros H; [reflexivity|].
  assert (IH' := IH (fun x y Hx => H x y (or_intror Hx))).
  cbn [List.filter]. cbn. destruct (f x) as [y|] eqn:E.
  - cbn [List.filter]. rewrite (H x y (or_introl eq_refl) E).
    destruct (p x); cbn; rewrite ?E, IH'; reflexivity.
  - destruct (p x); cbn; rewrite ?E, IH'; reflexivity.
Qed.

Lemma NoDup_snoc {A} (l : list A) x :
  List.NoDup l -> ~ In x l -> List.NoDup (l ++ [x]).
Proof.
  induction l as [|y l IH]; intros Hnd Hx; cbn [app].
  - constructor; [intros [] | constructor].
  - apply List.NoDup_cons_iff in Hnd as [Hy Hnd]. constructor.
    + rewrite in_app_iff. cbn [In]. intros [H | [H | []]]; [tauto|].
      apply Hx. left. symmetry. exact H.
    + apply IH; [exact Hnd|]. intros H. apply Hx. right. exact H.
Qed.

Lemma includes_In eventIds eventId :
  includes eventIds eventId = true <-> In eventId eventIds.
Proof.
  unfold includes. rewrite existsb_exists. split.
  - intros (x & Hx & E). apply String.eqb_eq in E. subst. exact Hx.
  - intros H. exists eventId. split; [exact H | apply String.eqb_refl].
Qed.

Lemma loadEvent_setRecord id event st st' id' :
  setRecord id event st = Some st' ->
  loadEvent id' st' = if String.eqb id id' then Some event else loadEvent id' st.
Proof.
  unfold setRecord. destruct (capacity st); [discriminate|].
  intros [= <-]. unfold loadEvent. cbn [records].
  destruct (String.eqb_spec id id') as [-> | Hne].
  - rewrite lookup_insert_eq. reflexivity.
  - rewrite lookup_insert_ne by exact Hne. reflexivity.
Qed.

Lemma loadEvent_removeRecord id st id' :
  loadEvent id' (removeRecord id st)
  = if String.eqb id id' then None else loadEvent id' st.
Proof.
  unfold loadEvent, removeRecord. cbn [records].
  destruct (String.eqb_spec id id') as [-> | Hne].
  - rewrite lookup_delete_eq. reflexivity.
  - rewrite lookup_delete_ne by exact Hne. reflexivity.
Qed.

Lemma loadEvent_same_records st st' id :
  records st' = records st -> loadEvent id st' = loadEvent id st.
Proof. unfold loadEvent. intros ->. reflexivity. Qed.

Lemma lookup_delete_all (ids : list string) (m : gmap string (Text Event.t)) id :
  fold_left (fun records eventId => delete eventId records) ids m !! id
  = if existsb (String.eqb id) ids then None else m !! id.
Proof.
  revert m. induction ids as [|x ids IH]; intros m; [reflexivity|].
  cbn [fold_left existsb]. rewrite IH.
  destruct (existsb (String.eqb id) ids); [rewrite orb_true_r; reflexivity|].
  rewrite orb_false_r. destruct (String.eqb_spec id x) as [-> | Hne].
  - apply lookup_delete_eq.
  - apply lookup_delete_ne. congruence.
Qed.

Lemma sort_byStart_Permutation l l' :
  Permutation l l' -> Permutation (sort byStart l) (sort byStart l').
Proof.
  intros H. rewrite (sort_Permutation byStart l), (sort_Permutation byStart l').
  exact H.
Qed.

End LocalEventFacts.

Section LocalEventTheorems.
Import JsDate JsArray JsNumber EventSpec LocalEventStorage LocalEventSpec.

(** X21.  The storage keys do not collide: the key of an event is never
    the key of the id list, and different ids have different keys. *)
Theorem event_keys_distinct (id id' : string) :
  (EVENT_PREFIX ++ id)%string <> EVENTS_KEY /\
  ((EVENT_PREFIX ++ id)%string = (EVENT_PREFIX ++ id')%string -> id = id').
Proof.
  unfold EVENT_PREFIX, EVENTS_KEY. cbn [String.append]. split.
  - discriminate.
  - intros [= H]. exact H.
Qed.

(** X22.  With a readable index and room for two items, [updateEvent]
    returns the event with the new [updatedAt], after which [loadEvent]
    yields exactly that event under its id, every other id loads what it
    did, and the index lists the former ids and this one, none of them
    twice. *)
Theorem updateEvent_then_load (now : Date) (event : Event.t) (st : Storage) :
  index st <> Some Unparseable ->
  (2 <= capacity st)%nat ->
  let updated := set_updatedAt now event in
  exists st',
    updateEvent now event st = (Returned updated, st') /\
    loadEvent (Event.id event) st' = Some updated /\
    (forall id, id <> Event.id event -> loadEvent id st' = loadEvent id st) /\
    (forall id, In id (listed st') <-> In id (listed st) \/ id = Event.id event) /\
    (consistent st -> consistent st') /\
    In updated (loadAllEvents st').
Proof.
  intros Hidx Hcap. cbv zeta.
  assert (Hcases :
    exists st',
      updateEvent now event st = (Returned (set_updatedAt now event), st') /\
      records st' = <[Event.id event := Parsed (set_updatedAt now event)]> (records st) /\
      index st' = Some (Parsed (if includes (listed st) (Event.id event)
                                then listed st
                                else listed st ++ [Event.id event])) /\
      (includes (listed st) (Event.id event) = true -> index st' = index st)).
  { unfold updateEvent, setRecord, updateEventsList, setIndex, listed.
    destruct (capacity st) as [|[|n]]; try lia. cbn [index capacity records].
    destruct (index st) as [[ids| |]|] eqn:Ei; try congruence; cbn [negb];
      try (destruct (includes ids (Event.id event)) eqn:Einc; cbn [negb]);
      cbn [includes existsb negb capacity index records];
      eexists; (split; [reflexivity|]); cbn [records index];
        repeat split; try reflexivity; try discriminate. }
  destruct Hcases as (st' & Hup & Hrec & Hidx' & Hsame).
  assert (Hload : forall id, loadEvent id st'
                    = if String.eqb (Event.id event) id
                      then Some (set_updatedAt now event) else loadEvent id st).
  { intros id. unfold loadEvent. rewrite Hrec.
    destruct (String.eqb_spec (Event.id event) id) as [-> | Hne].
    - rewrite lookup_insert_eq. reflexivity.
    - rewrite lookup_insert_ne by exact Hne. reflexivity. }
  assert (Hlisted : forall id, In id (listed st')
                               <-> In id (listed st) \/ id = Event.id event).
  { intros id. unfold listed at 1. rewrite Hidx'.
    destruct (includes (listed st) (Event.id event)) eqn:Einc.
    - apply includes_In in Einc. split; [tauto|]. intros [H | ->]; assumption.
    - rewrite in_app_iff. cbn [In]. intuition (subst; auto). }
  exists st'. split; [exact Hup|]. split; [|split; [|split; [|split]]].
  - rewrite Hload, String.eqb_refl. reflexivity.
  - intros id Hne. rewrite Hload.
    destruct (String.eqb_spec (Event.id event) id); [congruence | reflexivity].
  - exact Hlisted.
  - intros [Hnd Hids]. split.
    + unfold listed at 1. rewrite Hidx'.
      destruct (includes (listed st) (Event.id event)) eqn:Einc; [exact Hnd|].
      apply NoDup_snoc; [exact Hnd|]. intros Hx.
      apply includes_In in Hx. congruence.
    + intros id e. rewrite Hrec.
      destruct (String.eqb_spec (Event.id event) id) as [<- | Hne].
      * rewrite lookup_insert_eq. intros [= <-]. reflexivity.
      * rewrite lookup_insert_ne by exact Hne. apply Hids.
  - unfold loadAllEvents, EventStorage.loadAllEvents, readEvents. rewrite Hidx'.
    apply sort_In.
    assert (Hin : In (Event.id event)
                     (if includes (listed st) (Event.id event)
                      then listed st else listed st ++ [Event.id event])).
    { destruct (includes (listed st) (Event.id event)) eqn:Einc.
      - apply includes_In. exact Einc.
      - apply in_app_iff. right. left. reflexivity. }
    revert Hin. generalize (if includes (listed st) (Event.id event)
                            then listed st else listed st ++ [Event.id event]).
    intros ids Hin. induction ids as [|x ids IH]; [contradiction|].
    cbn. destruct Hin as [-> | Hin].
    + rewrite Hload, String.eqb_refl. left. reflexivity.
    + destruct (loadEvent x st'); [right|]; apply IH, Hin.
Qed.

Lemma updateEvent_then_load_witness :
  let st := {| index := None; records := ∅; capacity := 2 |} in
  let event := sampleEvent "e1" (at_ 2024 5 1 9 0) (at_ 2024 5 1 10 0) "high" in
  exists st',
    updateEvent (at_ 2024 4 30 8 0) event st
      = (Returned (set_updatedAt (at_ 2024 4 30 8 0) event), st') /\
    loadEvent "e1" st' = Some (set_updatedAt (at_ 2024 4 30 8 0) event).
Proof.
  cbv zeta.
  destruct (updateEvent_then_load (at_ 2024 4 30 8 0)
              (sampleEvent "e1" (at_ 2024 5 1 9 0) (at_ 2024 5 1 10 0) "high")
              {| index := None; records := ∅; capacity := 2 |})
    as (st' & H1 & H2 & _).
  - discriminate.
  - cbn. lia.
  - exists st'. split; [exact H1 | exact H2].
Defined.

(** X23.  [updateEvent] throws exactly when the storage is full, when the
    index is unreadable, or when there is room for the event but not for the
    index that has to list it.  In the last two cases the event has been
    written before the call fails, and the index is as it was. *)
Theorem updateEvent_throws (now : Date) (event : Event.t) (st : Storage) :
  let result := updateEvent now event st in
  (fst result = Thrown <->
   capacity st = 0%nat \/ index st = Some Unparseable \/
   (capacity st = 1%nat /\ includes (listed st) (Event.id event) = false)) /\
  (fst result = Thrown ->
   index (snd result) = index st /\
   (capacity st = 0%nat -> snd result = st) /\
   (capacity st <> 0%nat ->
    loadEvent (Event.id event) (snd result) = Some (set_updatedAt now event))).
Proof.
  cbv zeta. unfold updateEvent, setRecord, updateEventsList, setIndex, listed.
  destruct (capacity st) as [|[|n]] eqn:Ec; cbn [index capacity records fst snd].
  - split; [split; auto|]. intros _. repeat split; auto. congruence.
  - destruct (index st) as [[ids| |]|] eqn:Ei; cbn [negb];
      try (destruct (includes ids (Event.id event)) eqn:Einc; cbn [negb]);
      cbn [includes existsb negb capacity index records fst snd];
      (split;
       [ split;
         [ intros H; try discriminate H; auto 6
         | intros [H | [H | [H1 H2]]]; congruence ]
       | intros H;
         (discriminate H ||
          (split; [reflexivity|];
           (split; [intros; congruence|]); intros _; unfold loadEvent;
           cbn [records]; rewrite lookup_insert_eq; reflexivity)) ]).
  - destruct (index st) as [[ids| |]|] eqn:Ei; cbn [negb];
      try (destruct (includes ids (Event.id event)) eqn:Einc; cbn [negb]);
      cbn [includes existsb negb capacity index records fst snd];
      (split;
       [ split;
         [ intros H; try discriminate H; auto 6
         | intros [H | [H | [H1 H2]]]; congruence ]
       | intros H;
         (discriminate H ||
          (split; [reflexivity|];
           (split; [intros; congruence|]); intros _; unfold loadEvent;
           cbn [records]; rewrite lookup_insert_eq; reflexivity)) ]).
Qed.

(** X24.  After [deleteEvent] the event cannot be loaded any more, whatever
    the call returns, and every other id loads what it did.  When the call
    returns [true] the index no longer lists the id, and in a consistent
    storage [loadAllEvents] then yields the former events without those that
    have the id. *)
Theorem deleteEvent_removes (id : string) (st : Storage) :
  let ok := fst (deleteEvent id st) in
  let st' := snd (deleteEvent id st) in
  loadEvent id st' = None /\
  (forall id', id' <> id -> loadEvent id' st' = loadEvent id' st) /\
  (ok = true -> ~ In id (listed st')) /\
  (ok = true -> consistent st ->
   consistent st' /\
   loadAllEvents st'
   = List.filter (fun e => negb (String.eqb (Event.id e) id)) (loadAllEvents st)).
Proof.
  cbv zeta.
  assert (Hrec : records (snd (deleteEvent id st)) = delete id (records st)).
  { unfold deleteEvent, setIndex, removeRecord. cbn [index capacity records].
    destruct (index st) as [[ids| |]|]; try reflexivity.
    destruct (capacity st); reflexivity. }
  assert (Hload : forall id', loadEvent id' (snd (deleteEvent id st))
                              = if String.eqb id id' then None else loadEvent id' st).
  { intros id'. rewrite <- loadEvent_removeRecord.
    apply loadEvent_same_records. exact Hrec. }
  assert (Hidx : fst (deleteEvent id st) = true ->
                 index (snd (deleteEvent id st))
                 = match index st with
                   | Some (Parsed ids) =>
                       Some (Parsed (List.filter
                                       (fun eventId => negb (String.eqb eventId id)) ids))
                   | other => other
                   end).
  { unfold deleteEvent, setIndex, removeRecord. cbn [index capacity records].
    destruct (index st) as [[ids| |]|]; try reflexivity; try discriminate.
    destruct (capacity st); [discriminate | reflexivity]. }
  split; [|split; [|split]].
  - rewrite Hload, String.eqb_refl. reflexivity.
  - intros id' Hne. rewrite Hload.
    destruct (String.eqb_spec id id'); [congruence | reflexivity].
  - intros Hok. unfold listed. rewrite (Hidx Hok).
    destruct (index st) as [[ids| |]|]; try (intros []).
    intros Hin. apply filter_In in Hin as [_ Hin].
    rewrite String.eqb_refl in Hin. discriminate.
  - intros Hok [Hnd Hids]. split; [split|].
    + unfold listed in *. rewrite (Hidx Hok).
      destruct (index st) as [[ids| |]|]; try constructor.
      apply List.NoDup_filter. exact Hnd.
    + intros id' e. rewrite Hrec.
      destruct (String.eqb_spec id id') as [<- | Hne].
      * rewrite lookup_delete_eq. discriminate.
      * rewrite lookup_delete_ne by exact Hne. apply Hids.
    + unfold loadAllEvents, EventStorage.loadAllEvents, readEvents.
      rewrite (Hidx Hok).
      destruct (index st) as [[ids| |]|]; try reflexivity.
      change (fun a b : Event.t =>
                Num (getTime (Event.startDate a) - getTime (Event.startDate b)))
        with byStart.
      rewrite sort_byStart_filter. apply (f_equal (sort byStart)).
      rewrite <- (omap_filter (fun eventId => loadEvent eventId st)
                    (fun eventId => negb (String.eqb eventId id))).
      * apply omap_ext. intros x Hx. apply filter_In in Hx as [_ Hx].
        rewrite Hload. apply negb_true_iff, String.eqb_neq in Hx.
        destruct (String.eqb_spec id x); [congruence | reflexivity].
      * intros x e _ He. unfold loadEvent in He.
        destruct (records st !! x) as [[e'| |]|] eqn:Er; try discriminate.
        injection He as ->. rewrite (Hids x e Er). reflexivity.
Qed.

(** X25.  After [clearAllEvents], whatever it returns, [loadAllEvents]
    yields no event.  When it returns [true] the index is gone and so is
    every event the index listed; an event stored under an id that was not
    listed stays in the storage. *)
Theorem clearAllEvents_clears (st : Storage) :
  let ok := fst (clearAllEvents st) in
  let st' := snd (clearAllEvents st) in
  loadAllEvents st' = [] /\
  (ok = false <-> index st = Some Unparseable) /\
  (ok = true ->
   index st' = None /\
   forall id, loadEvent id st'
              = if includes (listed st) id then None else loadEvent id st).
Proof.
  cbv zeta. unfold clearAllEvents, listed.
  destruct (index st) as [[ids| |]|] eqn:Ei; cbn [fst snd].
  - split; [reflexivity|]. split; [split; discriminate|].
    intros _. split; [reflexivity|]. intros id.
    unfold loadEvent. cbn [records]. rewrite lookup_delete_all.
    unfold includes. destruct (existsb (String.eqb id) ids); reflexivity.
  - split; [reflexivity|]. split; [split; discriminate|].
    intros _. split; [reflexivity|]. intros id. reflexivity.
  - split; [|split; [split; reflexivity | discriminate]].
    unfold loadAllEvents, readEvents. rewrite Ei. reflexivity.
  - split; [reflexivity|]. split; [split; discriminate|].
    intros _. split; [reflexivity|]. intros id. reflexivity.
Qed.

(** X26.  [saveEvent] with a readable index and room for two items returns
    the new event, with the drawn id and both dates of record set to the
    clock; what is stored, and what [loadEvent] then yields, is that event
    with [updatedAt] read again in [updateEvent].  If the id was not listed
    before, [loadAllEvents] yields the former events and the stored one. *)
Theorem saveEvent_stores (uuid : string) (now later : Date)
    (eventData : CreateEventData) (st : Storage) :
  index st <> Some Unparseable ->
  (2 <= capacity st)%nat ->
  exists event st',
    saveEvent uuid now later eventData st = (Returned event, st') /\
    Event.id event = uuid /\
    Event.createdAt event = now /\ Event.updatedAt event = now /\
    Event.startDate event = startDate eventData /\
    Event.endDate event = endDate eventData /\
    loadEvent uuid st' = Some (set_updatedAt later event) /\
    (~ In uuid (listed st) ->
     Permutation (loadAllEvents st') (set_updatedAt later event :: loadAllEvents st)).
Proof.
  intros Hidx Hcap. unfold saveEvent. cbv zeta.
  set (event := {| Event.id := uuid; Event.title := title eventData;
                   Event.description := description eventData;
                   Event.startDate := startDate eventData;
                   Event.endDate := endDate eventData;
                   Event.location := location eventData;
                   Event.category := category eventData;
                   Event.priority := priority eventData;
                   Event.attendees := attendees eventData;
                   Event.createdAt := now; Event.updatedAt := now |}).
  assert (Hcases :
    exists st',
      updateEvent later event st = (Returned (set_updatedAt later event), st') /\
      records st' = <[uuid := Parsed (set_updatedAt later event)]> (records st) /\
      (includes (listed st) uuid = false ->
       index st' = Some (Parsed (listed st ++ [uuid])))).
  { unfold updateEvent, setRecord, updateEventsList, setIndex, listed.
    destruct (capacity st) as [|[|n]]; try lia. cbn [index capacity records].
    destruct (index st) as [[ids| |]|] eqn:Ei; try congruence; cbn [negb];
      try (destruct (includes ids (Event.id event)) eqn:Einc; cbn [negb]);
      cbn [includes existsb negb capacity index records];
      eexists; (split; [reflexivity|]); cbn [records index Event.id event];
        split; try reflexivity; intros H; try reflexivity.
    cbn [Event.id event] in Einc. congruence. }
  destruct Hcases as (st' & Hup & Hrec & Hidx').
  exists event, st'. rewrite Hup.
  repeat (split; [reflexivity|]). split.
  - unfold loadEvent. rewrite Hrec, lookup_insert_eq. reflexivity.
  - intros Hfresh.
    assert (Hinc : includes (listed st) uuid = false).
    { destruct (includes (listed st) uuid) eqn:E; [|reflexivity].
      apply includes_In in E. contradiction. }
    unfold loadAllEvents, EventStorage.loadAllEvents, readEvents.
    rewrite (Hidx' Hinc).
    change (fun a b : Event.t =>
              Num (getTime (Event.startDate a) - getTime (Event.startDate b)))
      with byStart.
    assert (Hold : omap (fun eventId => loadEvent eventId st') (listed st ++ [uuid])
                   = omap (fun eventId => loadEvent eventId st) (listed st)
                     ++ [set_updatedAt later event]).
    { rewrite omap_app_list. f_equal.
      - apply omap_ext. intros x Hx. unfold loadEvent. rewrite Hrec.
        rewrite lookup_insert_ne; [reflexivity|]. intros ->. contradiction.
      - cbn. unfold loadEvent. rewrite Hrec, lookup_insert_eq. reflexivity. }
    rewrite Hold, (sort_Permutation byStart).
    rewrite Permutation_app_comm. cbn [app]. constructor.
    unfold listed. destruct (index st) as [[ids| |]|]; cbn;
      try (symmetry; apply (sort_Permutation byStart)); constructor.
Qed.

Lemma saveEvent_stores_witness :
  let st := {| index := None; records := ∅; capacity := 2 |} in
  let data := {| title := "Review"; description := EmptyString;
                 startDate := at_ 2024 5 1 9 0; endDate := at_ 2024 5 1 10 0;
                 location := None; category := "meeting"; priority := "high";
                 attendees := None |} in
  exists event st',
    saveEvent "e1" (at_ 2024 4 30 8 0) (at_ 2024 4 30 8 1) data st
      = (Returned event, st') /\
    Event.id event = "e1"%string.
Proof.
  cbv zeta.
  destruct (saveEvent_stores "e1" (at_ 2024 4 30 8 0) (at_ 2024 4 30 8 1)
              {| title := "Review"; description := EmptyString;
                 startDate := at_ 2024 5 1 9 0; endDate := at_ 2024 5 1 10 0;
                 location := None; category := "meeting"; priority := "high";
                 attendees := None |}
              {| index := None; records := ∅; capacity := 2 |})
    as (event & st' & H1 & H2 & _).
  - discriminate.
  - cbn. lia.
  - exists event, st'. split; [exact H1 | exact H2].
Defined.

(** An event that is written while the index is unreadable is never listed:
    [updateEvent] throws, [loadEvent] finds the event, [loadAllEvents] does
    not, and [clearAllEvents] fails without removing it. *)
Example updateEvent_unlisted :
  let st := {| index := Some Unparseable; records := ∅; capacity := 5 |} in
  let event := sampleEvent "e1" (at_ 2024 5 1 9 0) (at_ 2024 5 1 10 0) "high" in
  let result := updateEvent (at_ 2024 4 30 8 0) event st in
  fst result = Thrown /\
  loadEvent "e1" (snd result) = Some (set_updatedAt (at_ 2024 4 30 8 0) event) /\
  loadAllEvents (snd result) = [] /\
  fst (clearAllEvents (snd result)) = false /\
  loadEvent "e1" (snd (clearAllEvents (snd result)))
    = Some (set_updatedAt (at_ 2024 4 30 8 0) event).
Proof. vm_compute. repeat split; reflexivity. Qed.

End LocalEventTheorems.

(** * Properties of the event form *)
Section EventFormFacts.
Import EventForm EventFormSpec.

Lemma split_not_nil s : split s <> [].
Proof.
  destruct s as [|c s]; cbn [split]; [discriminate|].
  destruct (N.eqb c newline); [discriminate|].
  destruct (split s); discriminate.
Qed.

Lemma split_oneLine s : oneLine s = true -> split s = [s].
Proof.
  induction s as [|c s IH]; intros H; [reflexivity|].
  cbn [oneLine] in H. apply andb_true_iff in H as [Hc Hs].
  cbn [split]. apply negb_true_iff in Hc. rewrite Hc, (IH Hs). reflexivity.
Qed.

Lemma split_line s rest :
  oneLine s = true ->
  split (s ++ newline :: rest) = s :: split rest.
Proof.
  induction s as [|c s IH]; intros H.
  - cbn [app split]. rewrite N.eqb_refl. reflexivity.
  - cbn [oneLine] in H. apply andb_true_iff in H as [Hc Hs].
    cbn [app split]. apply negb_true_iff in Hc.
    rewrite Hc, (IH Hs). reflexivity.
Qed.

Lemma split_join l :
  l <> [] -> Forall (fun s => oneLine s = true) l -> split (join l) = l.
Proof.
  induction l as [|x l IH]; intros Hne Hall; [congruence|].
  inversion Hall as [|? ? Hx Hl]; subst.
  destruct l as [|y l]; [apply split_oneLine, Hx|].
  change (join (x :: y :: l)) with (x ++ newline :: join (y :: l)).
  rewrite (split_line _ _ Hx), IH; [reflexivity | discriminate | exact Hl].
Qed.

Lemma split_lines_oneLine s : Forall (fun line => oneLine line = true) (split s).
Proof.
  induction s as [|c s IH]; [repeat constructor|].
  cbn [split]. destruct (N.eqb c newline) eqn:Ec.
  - constructor; [reflexivity | exact IH].
  - destruct (split s) as [|line lines];
      [repeat constructor; cbn [oneLine]; rewrite Ec; reflexivity|].
    inversion IH; subst. constructor; [|assumption].
    cbn [oneLine]. rewrite Ec. assumption.
Qed.

Lemma trimStart_oneLine s : oneLine s = true -> oneLine (trimStart s) = true.
Proof.
  induction s as [|c s IH]; intros H; [reflexivity|].
  cbn [trimStart]. destruct (isWhiteSpace c); [|exact H].
  cbn [oneLine] in H. apply andb_true_iff in H as [_ H]. apply IH, H.
Qed.

Lemma trimEnd_oneLine s : oneLine s = true -> oneLine (trimEnd s) = true.
Proof.
  induction s as [|c s IH]; intros H; [reflexivity|].
  cbn [oneLine] in H. apply andb_true_iff in H as [Hc Hs].
  cbn [trimEnd]. specialize (IH Hs).
  destruct (trimEnd s) as [|d rest].
  - destruct (isWhiteSpace c); [reflexivity|]. cbn [oneLine]. rewrite Hc. reflexivity.
  - cbn [oneLine] in *. rewrite Hc. exact IH.
Qed.

(** What [trimStart] leaves does not start with white space. *)
Lemma trimStart_head s :
  match trimStart s with
  | [] => True
  | c :: _ => isWhiteSpace c = false
  end.
Proof.
  induction s as [|c s IH]; [exact I|].
  cbn [trimStart]. destruct (isWhiteSpace c) eqn:E; [exact IH | exact E].
Qed.

Lemma trimStart_id c s : isWhiteSpace c = false -> trimStart (c :: s) = c :: s.
Proof. intros H. cbn [trimStart]. rewrite H. reflexivity. Qed.

Lemma trimEnd_idempotent s : trimEnd (trimEnd s) = trimEnd s.
Proof.
  induction s as [|c s IH]; [reflexivity|].
  cbn [trimEnd]. destruct (trimEnd s) as [|d rest] eqn:E.
  - destruct (isWhiteSpace c) eqn:Ec; [reflexivity|].
    cbn [trimEnd]. rewrite Ec. reflexivity.
  - cbn [trimEnd] in *. rewrite IH. reflexivity.
Qed.

Lemma trimEnd_head c s :
  isWhiteSpace c = false ->
  exists rest, trimEnd (c :: s) = c :: rest.
Proof.
  intros Hc. cbn [trimEnd]. destruct (trimEnd s); [rewrite Hc|]; eauto.
Qed.

Lemma trim_idempotent s : trim (trim s) = trim s.
Proof.
  unfold trim. pose proof (trimStart_head s) as Hh.
  destruct (trimStart s) as [|c t] eqn:E; [reflexivity|].
  destruct (trimEnd_head c t Hh) as [rest Hr]. rewrite Hr.
  rewrite (trimStart_id c rest Hh), <- Hr. apply trimEnd_idempotent.
Qed.

Lemma trim_oneLine s : oneLine s = true -> oneLine (trim s) = true.
Proof. intros H. apply trimEnd_oneLine, trimStart_oneLine, H. Qed.

(** What [trim] leaves neither starts nor ends with white space. *)
Lemma trimEnd_last s :
  match rev (trimEnd s) with
  | [] => True
  | c :: _ => isWhiteSpace c = false
  end.
Proof.
  induction s as [|c s IH]; [exact I|].
  cbn [trimEnd]. destruct (trimEnd s) as [|d rest].
  - destruct (isWhiteSpace c) eqn:E; [exact I | exact E].
  - change (rev (c :: d :: rest)) with (rev (d :: rest) ++ [c]).
    destruct (rev (d :: rest)) as [|z zs] eqn:Er; [|exact IH].
    apply (f_equal (@length _)) in Er. rewrite length_rev in Er. discriminate Er.
Qed.

Lemma trim_ends s :
  match trim s with
  | [] => True
  | c :: _ => isWhiteSpace c = false
  end /\
  match rev (trim s) with
  | [] => True
  | c :: _ => isWhiteSpace c = false
  end.
Proof.
  split; [|apply trimEnd_last].
  unfold trim. pose proof (trimStart_head s) as Hh.
  destruct (trimStart s) as [|c t]; [exact I|].
  destruct (trimEnd_head c t Hh) as [rest ->]. exact Hh.
Qed.

Lemma length_pos_nonempty (s : text) : (0 <? length s)%nat = true <-> s <> [].
Proof.
  destruct s; cbn; split; intros H; try congruence; try discriminate; reflexivity.
Qed.

Lemma collected_names value :
  Forall name
    (List.filter (fun line => (0 <? length line)%nat)
                 (map (fun line => trim line) (split value))).
Proof.
  apply List.Forall_forall. intros a Ha. apply filter_In in Ha as [Ha Hlen].
  apply in_map_iff in Ha as (line & <- & Hline).
  split; [apply length_pos_nonempty, Hlen|]. split; [apply trim_idempotent|].
  apply trim_oneLine.
  exact (proj1 (List.Forall_forall _ _) (split_lines_oneLine value) line Hline).
Qed.

End EventFormFacts.

Section EventFormTheorems.
Import EventForm EventFormSpec.




(** Blank lines and the white space around a name are dropped, the no-break
    space (U+00A0) and the byte order mark (U+FEFF) included; a space inside
    a name stays. *)
Example collectAttendees_text :
  collectAttendees (ofAscii " Ann Lee  " ++ [10; 10] ++ ofAscii "Bo" ++ [10])%N
  = Some [ofAscii "Ann Lee"; ofAscii "Bo"] /\
  collectAttendees [32; 10; 9]%N = None /\
  collectAttendees [160]%N = None /\
  collectAttendees ([160] ++ ofAscii "Bob" ++ [65279; 8232])%N
  = Some [ofAscii "Bob"] /\
  collectTitle (ofAscii "   ") = None /\
  collectTitle (ofAscii " Review ") = Some (ofAscii "Review") /\
  map isWhiteSpace [8200; 12288; 133; 6158; 8203]%N
  = [true; true; false; false; false].
Proof. repeat split; reflexivity. Qed.

End EventFormTheorems.

(** * Properties of the router *)
Section RouterFacts.
Import Router.
Context {Data : Type}.

(** The router shows the page of the current history entry. *)
Lemma act_entryPage (a : Action Data) (w : World Data) :
  namesPage a -> listening w = true ->
  currentPage w = entryPage (current (history w)) ->
  listening (act a w) = true /\
  currentPage (act a w) = entryPage (current (history (act a w))).
Proof.
  intros Ha Hl Hinv. destruct a as [p d|]; cbn [act].
  - split; [exact Hl|]. cbn. destruct p; [contradiction | reflexivity].
  - unfold goBack. destruct (before (history w)) as [|entry earlier]; [auto|].
    rewrite Hl. destruct entry as [state|]; cbn; auto.
Qed.

Lemma run_entryPage (actions : list (Action Data)) (w : World Data) :
  Forall namesPage actions -> listening w = true ->
  currentPage w = entryPage (current (history w)) ->
  listening (run actions w) = true /\
  currentPage (run actions w) = entryPage (current (history (run actions w))).
Proof.
  revert w. induction actions as [|a actions IH]; intros w Hall Hl Hinv; [auto|].
  inversion Hall as [|? ? Ha Hrest]; subst. cbn [run fold_left].
  destruct (act_entryPage a w Ha Hl Hinv) as [Hl' Hinv'].
  apply IH; assumption.
Qed.

End RouterFacts.

Section RouterTheorems.
Import Router.

(** X29.  After [init()], whatever pages are visited and however often the
    user goes back, the router shows the page of the current history entry,
    and going back right after a [navigateTo] returns to the page shown
    before it, with the history entries before and at the current position
    as they were. *)
Theorem goBack_after_navigateTo {Data : Type} (h : History Data)
    (actions : list (Action Data)) (page : string) (data : option Data) :
  Forall namesPage actions ->
  let w := run actions (init (new h)) in
  let w' := goBack (navigateTo page data w) in
  getCurrentPage w = entryPage (current (history w)) /\
  getCurrentPage w' = getCurrentPage w /\
  current (history w') = current (history w) /\
  before (history w') = before (history w).
Proof.
  intros Hall. cbv zeta.
  destruct (run_entryPage actions (init (new h)) Hall eq_refl eq_refl) as [Hl Hinv].
  set (w := run actions (init (new h))) in *.
  unfold getCurrentPage. split; [exact Hinv|].
  unfold goBack, navigateTo. cbn [history before pushState listening current].
  rewrite Hl. rewrite Hinv.
  destruct (current (history w)) as [state|]; cbn; auto.
Qed.

Lemma goBack_after_navigateTo_witness :
  let h := {| before := []; current := None; after := [] |} : History unit in
  let w := run [NavigateTo "config"%string None] (init (new h)) in
  getCurrentPage (goBack (navigateTo "event-editor"%string None w)) = "config"%string.
Proof.
  cbv zeta.
  destruct (goBack_after_navigateTo
              ({| before := []; current := None; after := [] |} : History unit)
              [NavigateTo "config"%string None] "event-editor"%string None)
    as (_ & H & _).
  - repeat constructor. discriminate.
  - rewrite H. reflexivity.
Defined.

(** A page named by the empty string is shown as such, but on return to its
    history entry the router shows the dashboard. *)
Example navigateTo_empty_page :
  let h := {| before := []; current := None; after := [] |} : History unit in
  let w := navigateTo EmptyString None (init (new h)) in
  getCurrentPage w = EmptyString /\
  getCurrentPage (goBack (navigateTo "config"%string None w)) = "dashboard"%string.
Proof. split; reflexivity. Qed.

End RouterTheorems.

(** * The day cells of the calendar *)
Section DayCellTheorems.
Import JsDate JsDateMore DateUtils CalendarView EventSpec.


End DayCellTheorems.
